(** * Movie context provider: watchlist / watched state machine, batch
      orchestration and preference merge engine

    A shallow embedding of the backend tools of the repository
    ([backend/src/tools/watched.ts], [watchlist.ts], [preferences.ts],
    [backend/src/db/client.ts], [backend/src/db/utilities.ts],
    [backend/src/utils/person-enrichment.ts], [backend/src/cache/redis.ts],
    [backend/src/utils/tool-helpers.ts]) together with the properties of the
    specification that concern them.

    Conventions of the embedding:
    - the PostgreSQL store is a record of tables, each a list of rows;
      a statement issued through [client.query] is a function on that record
      which may throw;
    - [async] code is sequential code: one request runs to completion;
    - a call happens at one instant, [now env]: that is what [NOW()] in each
      of its statements and [new Date()] read;
    - a JavaScript exception is the [Throw] outcome of a computation;
    - the external providers (TMDB movie details, TMDB person search), the
      clock and the [users] table, which no tool writes, are fields of an
      environment that every call receives. *)

From Stdlib Require Import ZArith List String Ascii Bool Lia DecimalString
  Permutation.
From Stdlib Require DecimalPos DecimalZ.
Import ListNotations.

Open Scope string_scope.
Open Scope list_scope.
Open Scope Z_scope.

Infix "+++" := String.append (at level 60, right associativity).

(** The double-quote character, for messages that quote a title or a key. *)
Definition dq : string := String (ascii_of_nat 34) EmptyString.

(** Decimal rendering of an integer, as a template literal renders it. *)
Definition string_of_Z (n : Z) : string := NilZero.string_of_int (Z.to_int n).

(* ================================================================== *)
(** ** Exceptions and results *)

(** The two kinds of exception the handlers tell apart
    ([error instanceof z.ZodError] versus [error instanceof Error]). *)
Inductive exn : Type :=
| ZodError
| Error (message : string).

Inductive res (A : Type) : Type :=
| Ok (a : A)
| Throw (e : exn).
Arguments Ok {A} a.
Arguments Throw {A} e.

Definition is_ok {A} (r : res A) : bool :=
  match r with Ok _ => true | Throw _ => false end.

(** [array.map(f)] for an [f] that may throw: the elements are visited in
    order and the first exception ends the visit. *)
Fixpoint mapM {A B} (f : A -> res B) (l : list A) : res (list B) :=
  match l with
  | [] => Ok []
  | x :: rest =>
      match f x with
      | Throw e => Throw e
      | Ok y =>
          match mapM f rest with
          | Throw e => Throw e
          | Ok ys => Ok (y :: ys)
          end
      end
  end.

(* ================================================================== *)
(** ** JSON values (the [any] / JSONB values of preferences) *)

(** A string is the UTF-8 encoding of the text.  [JNum n] is the number [n],
    a safe integer (at most 2^53 - 1 in absolute value): the numbers
    JavaScript holds exactly and prints digit by digit; fractions and larger
    numbers are outside the embedding.  An object is the list of its
    properties in the order JavaScript enumerates them; the keys are taken
    to be distinct, the first binding being the property. *)
#[warnings="-register-all"]
Inductive Json : Type :=
| JNull
| JBool (b : bool)
| JNum (n : Z)
| JStr (s : string)
| JArr (items : list Json)
| JObj (fields : list (string * Json)).

Fixpoint lookup_field (k : string) (fields : list (string * Json)) : option Json :=
  match fields with
  | [] => None
  | (k', v) :: rest => if String.eqb k k' then Some v else lookup_field k rest
  end.

(** The string holds the character U+0000. *)
Fixpoint has_nul (s : string) : bool :=
  match s with
  | EmptyString => false
  | String c rest => Ascii.eqb c Ascii.zero || has_nul rest
  end.

(** [Array.isArray]. *)
Definition isArray (v : Json) : bool :=
  match v with JArr _ => true | _ => false end.

(** [typeof v === 'object']: true of [null], of arrays and of objects. *)
Definition typeof_object (v : Json) : bool :=
  match v with
  | JNull | JArr _ | JObj _ => true
  | _ => false
  end.

(** What [String(v)] throws for an object that has a [toString] property of
    its own: a JSON value is not callable, and [valueOf] gives the object
    back. *)
Definition not_primitive : exn :=
  Error "Cannot convert object to primitive value".

(** JavaScript's [String(v)].  An array is joined with commas, [null]
    elements giving the empty string; the first element that throws ends
    the join. *)
Fixpoint js_String (v : Json) : res string :=
  match v with
  | JNull => Ok "null"
  | JBool true => Ok "true"
  | JBool false => Ok "false"
  | JNum n => Ok (string_of_Z n)
  | JStr s => Ok s
  | JArr items =>
      (fix join (l : list Json) : res string :=
         match l with
         | [] => Ok EmptyString
         | x :: rest =>
             match match x with JNull => Ok EmptyString | _ => js_String x end with
             | Throw e => Throw e
             | Ok piece =>
                 match rest with
                 | [] => Ok piece
                 | _ :: _ =>
                     match join rest with
                     | Throw e => Throw e
                     | Ok tail => Ok (piece +++ "," +++ tail)
                     end
                 end
             end
         end) items
  | JObj fields =>
      match lookup_field "toString" fields with
      | Some _ => Throw not_primitive
      | None => Ok "[object Object]"
      end
  end.

(** [typeof v === 'object' && v !== null && 'name' in v]: the value of the
    [name] property when [v] is an object that has one. *)
Definition name_in (v : Json) : option Json :=
  match v with
  | JObj fields => lookup_field "name" fields
  | _ => None
  end.

(** *** What the JSONB type does to a value *)

(** Some string or key of the value holds the character U+0000. *)
Fixpoint holds_nul (v : Json) : bool :=
  match v with
  | JStr s => has_nul s
  | JArr items => existsb holds_nul items
  | JObj fields =>
      existsb (fun kv => match kv with (k, x) => has_nul k || holds_nul x end)
              fields
  | _ => false
  end.

(** The order of the keys of a JSONB object: shorter keys first, keys of one
    length in the order of their bytes. *)
Fixpoint bytes_leb (s t : string) : bool :=
  match s, t with
  | EmptyString, _ => true
  | String _ _, EmptyString => false
  | String a s', String b t' =>
      (nat_of_ascii a <? nat_of_ascii b)%nat
      || (Ascii.eqb a b && bytes_leb s' t')
  end.

Definition key_leb (k k' : string) : bool :=
  (String.length k <? String.length k')%nat
  || ((String.length k =? String.length k')%nat && bytes_leb k k').

(** One property put into an object whose keys are in that order; a key
    that is there already is bound anew. *)
Fixpoint insert_property (k : string) (v : Json) (sorted : list (string * Json))
  : list (string * Json) :=
  match sorted with
  | [] => [(k, v)]
  | (k', v') :: rest =>
      if String.eqb k k' then (k, v) :: rest
      else if key_leb k k' then (k, v) :: sorted
      else (k', v') :: insert_property k v rest
  end.

(** The value a JSONB column holds for [v]: the same value with the keys of
    every object in the order of [key_leb]. *)
Fixpoint jsonb (v : Json) : Json :=
  match v with
  | JArr items => JArr (map jsonb items)
  | JObj fields =>
      JObj (fold_right
              (fun kv sorted =>
                 match kv with (k, x) => insert_property k (jsonb x) sorted end)
              [] fields)
  | _ => v
  end.

(** [$n::jsonb] applied to [JSON.stringify(v)]: a value that holds the
    character U+0000, which is sent as the escape \u0000, is refused. *)
Definition unsupported_escape : exn := Error "unsupported Unicode escape sequence".

Definition jsonb_in (v : Json) : res Json :=
  if holds_nul v then Throw unsupported_escape else Ok (jsonb v).

(** A key that JavaScript treats as an array index: the decimal numeral,
    without sign or leading zero, of an integer below 2^32 - 1. *)
Definition is_array_index (k : string) : bool :=
  match NilZero.uint_of_string k with
  | Some d =>
      let n := Z.of_N (N.of_uint d) in
      (n <=? 4294967294) && String.eqb (string_of_Z n) k
  | None => false
  end.

(** A JSONB value as node-postgres hands it over ([JSON.parse] of the text
    the server sends): the properties of an object come in the order of the
    column, and JavaScript enumerates the array indices among them first,
    which that order already has ascending. *)
Fixpoint pg_read (v : Json) : Json :=
  match v with
  | JArr items => JArr (map pg_read items)
  | JObj fields =>
      let read := map (fun kv => match kv with (k, x) => (k, pg_read x) end)
                      fields in
      JObj (filter (fun kv => is_array_index (fst kv)) read
            ++ filter (fun kv => negb (is_array_index (fst kv))) read)
  | _ => v
  end.

(* ================================================================== *)
(** ** The store *)

Module Db.

(** Row of [movies].  The columns [year], [overview], [poster_url] and
    [rating] are copied from the provider's record and read by no operation
    modelled here. *)
Record MovieRow : Type := mkMovie {
  m_id : Z;
  m_tmdb_id : Z;
  m_title : string
}.

Record WatchlistRow : Type := mkWatchlist {
  wl_user_id : Z;
  wl_movie_id : Z;
  wl_notes : option string;
  wl_added_at : Z
}.

Record WatchedRow : Type := mkWatched {
  wd_user_id : Z;
  wd_movie_id : Z;
  wd_rating : Z;
  wd_notes : option string;
  wd_watched_at : Z
}.

Record PrefRow : Type := mkPref {
  p_user_id : Z;
  p_key : string;
  p_value : Json;
  p_updated_at : Z
}.

(** The tables, and the sequence behind [movies.id SERIAL]. *)
Record t : Type := mk {
  movies : list MovieRow;
  movies_id_seq : Z;
  watchlist : list WatchlistRow;
  watched : list WatchedRow;
  preferences : list PrefRow
}.

Definition empty : t :=
  {| movies := []; movies_id_seq := 1; watchlist := []; watched := [];
     preferences := [] |}.

(** Two stores hold the same rows (sequences are not rows). *)
Definition same_rows (s s' : t) : Prop :=
  movies s = movies s' /\ watchlist s = watchlist s' /\
  watched s = watched s' /\ preferences s = preferences s'.

(** *** Computations over a client connection *)

(** A computation over the store that returns or throws; the store it leaves
    behind on a throw is the one the statements so far produced. *)
Definition Tx (A : Type) : Type := t -> res A * t.

Definition ret {A} (a : A) : Tx A := fun s => (Ok a, s).
Definition throw {A} (e : exn) : Tx A := fun s => (Throw e, s).
Definition bind {A B} (m : Tx A) (k : A -> Tx B) : Tx B :=
  fun s =>
    match m s with
    | (Ok a, s') => k a s'
    | (Throw e, s') => (Throw e, s')
    end.

(** [transaction(callback)] of db/client.ts: BEGIN, the callback, COMMIT;
    on a throw ROLLBACK and rethrow.  A rollback restores every table; a
    sequence keeps the values it has handed out. *)
Definition rollback (before after : t) : t :=
  {| movies := movies before;
     movies_id_seq := movies_id_seq after;
     watchlist := watchlist before;
     watched := watched before;
     preferences := preferences before |}.

Definition transaction {A} (callback : Tx A) : Tx A :=
  fun s =>
    match callback s with
    | (Ok a, s') => (Ok a, s')
    | (Throw e, s') => (Throw e, rollback s s')
    end.

(** [query(text, params)] of db/client.ts: one statement on a pooled
    connection, committed on its own. *)
Definition query {A} (statement : Tx A) : Tx A := statement.

End Db.

Notation "x <- m ;; k" := (Db.bind m (fun x => k))
  (at level 61, m at next level, right associativity).
Notation "m ;;; k" := (Db.bind m (fun _ => k))
  (at level 61, right associativity).

(* ================================================================== *)
(** ** External collaborators *)

(** The part of TMDB's movie record the tools read.  [md_release_date] is the
    release date when the provider gave one: its instant (what [new Date]
    yields, in milliseconds) and its en-US long rendering. *)
Record MovieDetails : Type := mkDetails {
  md_tmdb_id : Z;
  md_title : string;
  md_release_date : option (Z * string)
}.

(** A match of TMDB's person search. *)
Record Person : Type := mkPerson {
  person_id : Z;
  person_profile_url : option string
}.

(** What a call sees of the outside world: [getMovieDetails] and
    [searchPeople] of utils/tmdb.ts (both may throw), the clock, and the ids
    of the rows of [users].  That table is written by the admin routes and
    the scripts and by no tool; [watchlist], [watched] and [preferences]
    refer to it ([user_id INTEGER NOT NULL REFERENCES users(id)]).  The
    records of the provider are taken to be ones the store accepts. *)
Record Env : Type := mkEnv {
  getMovieDetails : Z -> res MovieDetails;
  searchPeople : string -> res (list Person);
  now : Z;
  users : list Z
}.

(* ================================================================== *)
(** ** Tool wrappers (utils/tool-helpers.ts) *)

(** An MCP tool response: [isError: false] with its structured content, or
    [isError: true] with the error message. *)
Inductive MCPToolResponse (A : Type) : Type :=
| Reply (structuredContent : A)
| ErrorReply (error : string).
Arguments Reply {A} structuredContent.
Arguments ErrorReply {A} error.

Definition isError {A} (r : MCPToolResponse A) : bool :=
  match r with Reply _ => false | ErrorReply _ => true end.

Definition errorMessage (e : exn) : string :=
  match e with
  | ZodError => "Invalid input"
  | Error message => message
  end.

(** [withToolHandler]: validate, run the handler, and turn every exception
    into an error response.  [W] is the state the handler works on. *)
Definition withToolHandler {I V R W : Type}
    (schema : I -> res V) (handler : V -> Z -> W -> res R * W)
    (input : I) (userId : Z) (w : W) : MCPToolResponse R * W :=
  match schema input with
  | Throw e => (ErrorReply (errorMessage e), w)
  | Ok validatedInput =>
      match handler validatedInput userId w with
      | (Ok result, w') => (Reply result, w')
      | (Throw e, w') => (ErrorReply (errorMessage e), w')
      end
  end.

(** The [{ success, message }] result of the simple tools. *)
Record SimpleResult : Type := mkResult {
  success : bool;
  message : string
}.

(** [input.notes || null]: an absent or empty note is stored as NULL. *)
Definition notes_or_null (notes : option string) : option string :=
  match notes with
  | Some EmptyString => None
  | Some s => Some s
  | None => None
  end.

(* ================================================================== *)
(** ** Statements and helpers of db/utilities.ts *)

Module Sql.
Import Db.

(** *** What the constraints of the schema answer *)

Definition unique_violation (constraint : string) : exn :=
  Error ("duplicate key value violates unique constraint "
           +++ dq +++ constraint +++ dq).

Definition check_violation (relation constraint : string) : exn :=
  Error ("new row for relation " +++ dq +++ relation +++ dq
           +++ " violates check constraint " +++ dq +++ constraint +++ dq).

Definition not_null_violation (column relation : string) : exn :=
  Error ("null value in column " +++ dq +++ column +++ dq +++ " of relation "
           +++ dq +++ relation +++ dq +++ " violates not-null constraint").

Definition foreign_key_violation (table constraint : string) : exn :=
  Error ("insert or update on table " +++ dq +++ table +++ dq
           +++ " violates foreign key constraint " +++ dq +++ constraint +++ dq).

(** A text parameter that holds the character U+0000 is refused when the
    statement is bound, before any row is looked at. *)
Definition invalid_byte_sequence : exn :=
  Error ("invalid byte sequence for encoding " +++ dq +++ "UTF8" +++ dq +++ ": 0x00").

Definition text_refused (text : option string) : bool :=
  match text with
  | Some s => has_nul s
  | None => false
  end.

(** [user_id] of a new row: a missing user id ([0], see [markAsWatched]) is
    sent as NULL and refused by NOT NULL before the row is built; a user id
    without a row in [users] is refused by the foreign key once the other
    constraints have passed. *)
Definition registered (users : list Z) (userId : Z) : bool :=
  existsb (Z.eqb userId) users.

(** [SELECT id FROM movies WHERE tmdb_id = $1] *)
Definition select_movie (tmdb_id : Z) : Tx (list MovieRow) :=
  fun s => (Ok (filter (fun r => m_tmdb_id r =? tmdb_id) (movies s)), s).

(** [INSERT INTO movies (...) VALUES (...) RETURNING id]; [tmdb_id] is
    UNIQUE.  The sequence advances whether or not the insert succeeds. *)
Definition insert_movie (d : MovieDetails) : Tx Z :=
  fun s =>
    let id := movies_id_seq s in
    if existsb (fun r => m_tmdb_id r =? md_tmdb_id d) (movies s) then
      (Throw (unique_violation "movies_tmdb_id_key"),
       {| movies := movies s; movies_id_seq := id + 1;
          watchlist := watchlist s; watched := watched s;
          preferences := preferences s |})
    else
      (Ok id,
       {| movies := movies s ++ [mkMovie id (md_tmdb_id d) (md_title d)];
          movies_id_seq := id + 1;
          watchlist := watchlist s; watched := watched s;
          preferences := preferences s |}).

Definition wl_match (userId movieId : Z) (r : WatchlistRow) : bool :=
  (wl_user_id r =? userId) && (wl_movie_id r =? movieId).

Definition wd_match (userId movieId : Z) (r : WatchedRow) : bool :=
  (wd_user_id r =? userId) && (wd_movie_id r =? movieId).

(** [SELECT id FROM watchlist WHERE user_id = $1 AND movie_id = $2] *)
Definition select_watchlist (userId movieId : Z) : Tx (list WatchlistRow) :=
  fun s => (Ok (filter (wl_match userId movieId) (watchlist s)), s).

(** [SELECT id FROM watched WHERE user_id = $1 AND movie_id = $2] *)
Definition select_watched (userId movieId : Z) : Tx (list WatchedRow) :=
  fun s => (Ok (filter (wd_match userId movieId) (watched s)), s).

(** [INSERT INTO watchlist (user_id, movie_id, notes)]; [user_id] is NOT
    NULL and refers to [users], [(user_id, movie_id)] is UNIQUE and
    [added_at] defaults to NOW(). *)
Definition insert_watchlist (users : list Z) (at_ userId movieId : Z)
    (notes : option string) : Tx unit :=
  fun s =>
    if text_refused notes then (Throw invalid_byte_sequence, s)
    else if userId =? 0 then
      (Throw (not_null_violation "user_id" "watchlist"), s)
    else if existsb (wl_match userId movieId) (watchlist s) then
      (Throw (unique_violation "watchlist_user_id_movie_id_key"), s)
    else if negb (registered users userId) then
      (Throw (foreign_key_violation "watchlist" "watchlist_user_id_fkey"), s)
    else
      (Ok tt,
       {| movies := movies s; movies_id_seq := movies_id_seq s;
          watchlist := watchlist s ++ [mkWatchlist userId movieId notes at_];
          watched := watched s; preferences := preferences s |}).

(** [DELETE FROM watchlist WHERE user_id = $1 AND movie_id = $2]; the result
    is the number of rows deleted. *)
Definition delete_watchlist (userId movieId : Z) : Tx Z :=
  fun s =>
    (Ok (Z.of_nat (List.length (filter (wl_match userId movieId) (watchlist s)))),
     {| movies := movies s; movies_id_seq := movies_id_seq s;
        watchlist := filter (fun r => negb (wl_match userId movieId r)) (watchlist s);
        watched := watched s; preferences := preferences s |}).

(** [CHECK (rating BETWEEN 1 AND 5)] of the [watched] table. *)
Definition rating_check (rating : Z) : bool := (1 <=? rating) && (rating <=? 5).

(** [INSERT INTO watched (user_id, movie_id, rating, notes)]; [user_id] is
    NOT NULL and refers to [users], [(user_id, movie_id)] is UNIQUE and
    [watched_at] defaults to NOW(). *)
Definition insert_watched (users : list Z) (at_ userId movieId rating : Z)
    (notes : option string) : Tx unit :=
  fun s =>
    if text_refused notes then (Throw invalid_byte_sequence, s)
    else if userId =? 0 then
      (Throw (not_null_violation "user_id" "watched"), s)
    else if negb (rating_check rating) then
      (Throw (check_violation "watched" "watched_rating_check"), s)
    else if existsb (wd_match userId movieId) (watched s) then
      (Throw (unique_violation "watched_user_id_movie_id_key"), s)
    else if negb (registered users userId) then
      (Throw (foreign_key_violation "watched" "watched_user_id_fkey"), s)
    else
      (Ok tt,
       {| movies := movies s; movies_id_seq := movies_id_seq s;
          watchlist := watchlist s;
          watched := watched s ++ [mkWatched userId movieId rating notes at_];
          preferences := preferences s |}).

(** [UPDATE watched SET rating = $1, notes = $2, watched_at = NOW()
     WHERE user_id = $3 AND movie_id = $4] *)
Definition update_watched (at_ userId movieId rating : Z) (notes : option string)
  : Tx unit :=
  fun s =>
    if text_refused notes then (Throw invalid_byte_sequence, s)
    else if existsb (wd_match userId movieId) (watched s) && negb (rating_check rating) then
      (Throw (check_violation "watched" "watched_rating_check"), s)
    else
      (Ok tt,
       {| movies := movies s; movies_id_seq := movies_id_seq s;
          watchlist := watchlist s;
          watched :=
            map (fun r => if wd_match userId movieId r
                          then mkWatched userId movieId rating notes at_
                          else r) (watched s);
          preferences := preferences s |}).

(** [ensureMovieExists]: the id of the row for [tmdb_id], fetched from TMDB
    and inserted when there is none. *)
Definition ensureMovieExists (env : Env) (tmdb_id : Z) : Tx Z :=
  movieCheck <- select_movie tmdb_id ;;
  match movieCheck with
  | row :: _ => ret (m_id row)
  | [] =>
      match getMovieDetails env tmdb_id with
      | Throw e => throw e
      | Ok movieDetails => insert_movie movieDetails
      end
  end.

(** [isInWatchlist] *)
Definition isInWatchlist (userId movieId : Z) : Tx bool :=
  result <- select_watchlist userId movieId ;;
  ret (negb (Nat.eqb (List.length result) 0)).

(** [isWatched] *)
Definition isWatched (userId movieId : Z) : Tx bool :=
  result <- select_watched userId movieId ;;
  ret (negb (Nat.eqb (List.length result) 0)).

End Sql.

(* ================================================================== *)
(** ** Watchlist and watched tools (tools/watchlist.ts, tools/watched.ts) *)

Module Watch.
Import Db Sql.

(** *** Input schemas

    The raw input of a tool is a record of integers and strings: values of
    another JSON type, and numbers that are not integers, are rejected by
    the same schemas and are outside these types. *)

Record MarkAsWatchedInput : Type := mkMark {
  mw_tmdb_id : Z;
  mw_rating : Z;
  mw_notes : option string
}.

Definition MarkAsWatchedValid (i : MarkAsWatchedInput) : bool :=
  (0 <? mw_tmdb_id i) && (1 <=? mw_rating i) && (mw_rating i <=? 5).

Definition MarkAsWatchedSchema (i : MarkAsWatchedInput) : res MarkAsWatchedInput :=
  if MarkAsWatchedValid i then Ok i else Throw ZodError.

Record MarkAsWatchedBatchInput : Type := mkBatch {
  entries : list MarkAsWatchedInput;
  transaction_flag : option bool
}.

(** [entries: z.array(MarkAsWatchedSchema).min(1)],
    [transaction: z.boolean().default(true)]. *)
Definition MarkAsWatchedBatchSchema (i : MarkAsWatchedBatchInput)
  : res (list MarkAsWatchedInput * bool) :=
  match entries i with
  | [] => Throw ZodError
  | _ :: _ =>
      if forallb MarkAsWatchedValid (entries i)
      then Ok (entries i,
               match transaction_flag i with Some b => b | None => true end)
      else Throw ZodError
  end.

Record AddToWatchlistInput : Type := mkAdd {
  aw_tmdb_id : Z;
  aw_notes : option string
}.

Definition AddToWatchlistSchema (i : AddToWatchlistInput) : res AddToWatchlistInput :=
  if 0 <? aw_tmdb_id i then Ok i else Throw ZodError.

Definition RemoveFromWatchlistSchema (tmdb_id : Z) : res Z :=
  if 0 <? tmdb_id then Ok tmdb_id else Throw ZodError.

(** *** markAsWatched *)

(** The release-date gate: the message of the error when the release date is
    later than now. *)
Definition not_released_yet (env : Env) (d : MovieDetails) : option string :=
  match md_release_date d with
  | Some (releaseDate, releaseDateStr) =>
      if now env <? releaseDate then
        Some (dq +++ md_title d +++ dq +++ " hasn't been released yet (releases on "
                 +++ releaseDateStr
                 +++ "). You can add it to your watchlist instead.")
      else None
  | None => None
  end.

Definition handleMarkAsWatched (env : Env) (input : MarkAsWatchedInput)
    (userId : Z) : Tx SimpleResult :=
  match getMovieDetails env (mw_tmdb_id input) with
  | Throw e => throw e
  | Ok movieDetails =>
      match not_released_yet env movieDetails with
      | Some msg => throw (Error msg)
      | None =>
          movieCheck <- select_movie (mw_tmdb_id input) ;;
          movieId <- match movieCheck with
                     | row :: _ => ret (m_id row)
                     | [] => insert_movie movieDetails
                     end ;;
          watchedCheck <- select_watched userId movieId ;;
          match watchedCheck with
          | _ :: _ =>
              update_watched (now env) userId movieId (mw_rating input)
                             (notes_or_null (mw_notes input)) ;;;
              ret {| success := true;
                     message := "Updated watch record with new rating." |}
          | [] =>
              insert_watched (users env) (now env) userId movieId (mw_rating input)
                             (notes_or_null (mw_notes input)) ;;;
              rowCount <- delete_watchlist userId movieId ;;
              let removedFromWatchlist := 0 <? rowCount in
              ret {| success := true;
                     message := if removedFromWatchlist
                                then "Movie marked as watched and removed from watchlist."
                                else "Movie marked as watched." |}
          end
      end
  end.

(** A missing user id is [0] here: [!userId] holds of both. *)
Definition markAsWatched (env : Env) :=
  withToolHandler MarkAsWatchedSchema
    (fun validatedInput userId =>
       if userId =? 0 then throw (Error "User ID is required")
       else transaction (handleMarkAsWatched env validatedInput userId)).

(** *** markAsWatchedBatch *)

Record BatchEntryResult : Type := mkEntryResult {
  br_tmdb_id : Z;
  br_success : bool;
  br_message : string
}.

(** The [structuredContent] of the batch response.  The text of the
    response, a heading that names the mode followed by a line per result,
    is not part of the embedding. *)
Record BatchReport : Type := mkReport {
  rp_success : bool;
  rp_results : list BatchEntryResult
}.

(** [error.message]; a [ZodError]'s message is zod's rendering of its
    issues, which no handler throws. *)
Definition caught_message (e : exn) : string :=
  match e with
  | Error message => message
  | ZodError => "validation failed"
  end.

(** The best-effort loop: every entry in a transaction of its own, inside a
    try/catch that records the failure. *)
Fixpoint best_effort_loop (env : Env) (userId : Z)
    (todo : list MarkAsWatchedInput) (results : list BatchEntryResult)
  : Tx (list BatchEntryResult) :=
  match todo with
  | [] => ret results
  | entry :: rest =>
      fun s =>
        match transaction (handleMarkAsWatched env entry userId) s with
        | (Ok result, s') =>
            best_effort_loop env userId rest
              (results ++ [mkEntryResult (mw_tmdb_id entry) (success result)
                                         (message result)]) s'
        | (Throw error, s') =>
            best_effort_loop env userId rest
              (results ++ [mkEntryResult (mw_tmdb_id entry) false
                                         (caught_message error)]) s'
        end
  end.

(** The loop of the transactional path: every entry on the one client. *)
Fixpoint transactional_loop (env : Env) (userId : Z)
    (todo : list MarkAsWatchedInput) (batchResults : list BatchEntryResult)
  : Tx (list BatchEntryResult) :=
  match todo with
  | [] => ret batchResults
  | entry :: rest =>
      result <- handleMarkAsWatched env entry userId ;;
      transactional_loop env userId rest
        (batchResults ++ [mkEntryResult (mw_tmdb_id entry) (success result)
                                        (message result)])
  end.

(** [markAsWatchedBatch] is a plain function: what it throws reaches its
    caller. *)
Definition markAsWatchedBatch (env : Env) (input : MarkAsWatchedBatchInput)
    (userId : Z) : Tx BatchReport :=
  match MarkAsWatchedBatchSchema input with
  | Throw e => throw e
  | Ok (validatedEntries, false) =>
      results <- best_effort_loop env userId validatedEntries [] ;;
      ret {| rp_success := forallb br_success results; rp_results := results |}
  | Ok (validatedEntries, true) =>
      results <- transaction (transactional_loop env userId validatedEntries []) ;;
      ret {| rp_success := true; rp_results := results |}
  end.

(** *** addToWatchlist, removeFromWatchlist *)

Definition handleAddToWatchlist (env : Env) (input : AddToWatchlistInput)
    (userId : Z) : Tx SimpleResult :=
  movieId <- ensureMovieExists env (aw_tmdb_id input) ;;
  present <- isInWatchlist userId movieId ;;
  if (present : bool) then
    ret {| success := false; message := "Movie is already in your watchlist" |}
  else
    insert_watchlist (users env) (now env) userId movieId
                     (notes_or_null (aw_notes input)) ;;;
    ret {| success := true; message := "Movie added to watchlist successfully" |}.

Definition addToWatchlist (env : Env) :=
  withToolHandler AddToWatchlistSchema
    (fun validatedInput userId =>
       transaction (handleAddToWatchlist env validatedInput userId)).

Definition removeFromWatchlist :=
  withToolHandler RemoveFromWatchlistSchema
    (fun tmdb_id userId =>
       movieResult <- query (select_movie tmdb_id) ;;
       match movieResult with
       | [] => throw (Error "Movie not found in database")
       | row :: _ =>
           let movieId := m_id row in
           let movieTitle := m_title row in
           deleted <- query (delete_watchlist userId movieId) ;;
           if deleted =? 0 then
             ret {| success := false;
                    message := dq +++ movieTitle +++ dq
                                  +++ " was not in your watchlist." |}
           else
             ret {| success := true;
                    message := "Removed " +++ dq +++ movieTitle +++ dq
                                          +++ " from your watchlist." |}
       end).

(** *** Sequences of calls

    A call as [callTool] of server/tool-registry.ts dispatches it: a request
    without a user id is refused before the tool runs. *)
Inductive call : Type :=
| AddToWatchlist (userId : Z) (input : AddToWatchlistInput)
| RemoveFromWatchlist (userId : Z) (tmdb_id : Z)
| MarkAsWatched (userId : Z) (input : MarkAsWatchedInput).

Definition userOf (c : call) : Z :=
  match c with
  | AddToWatchlist u _ | RemoveFromWatchlist u _ | MarkAsWatched u _ => u
  end.

Definition callTool (env : Env) (c : call) (s : Db.t)
  : MCPToolResponse SimpleResult * Db.t :=
  if userOf c =? 0 then (ErrorReply "Authentication required", s)
  else
    match c with
    | AddToWatchlist u input => addToWatchlist env input u s
    | RemoveFromWatchlist u tmdb_id => removeFromWatchlist tmdb_id u s
    | MarkAsWatched u input => markAsWatched env input u s
    end.

(** The store after a sequence of calls, each under the environment it ran
    in. *)
Fixpoint run (calls : list (Env * call)) (s : Db.t) : Db.t :=
  match calls with
  | [] => s
  | (env, c) :: rest => run rest (snd (callTool env c s))
  end.

(** A WatchlistEntry, a WatchedEntry exists for the pair. *)
Definition inWatchlist (s : Db.t) (userId movieId : Z) : bool :=
  existsb (wl_match userId movieId) (watchlist s).
Definition inWatched (s : Db.t) (userId movieId : Z) : bool :=
  existsb (wd_match userId movieId) (watched s).

(** The id of the MediaRecord of an external identifier, if there is one. *)
Definition movieIdOf (s : Db.t) (tmdb_id : Z) : option Z :=
  match filter (fun r => m_tmdb_id r =? tmdb_id) (movies s) with
  | row :: _ => Some (m_id row)
  | [] => None
  end.

End Watch.

(* ================================================================== *)
(** ** The cache (cache/redis.ts) *)

Module Cache.

(** A cache of values of type [V]: whether REDIS_URL is configured, and the
    entries with the instant (in milliseconds) at which each expires.  A
    cache that is configured answers; one that is not is the no-op cache. *)
Record t (V : Type) : Type := mk {
  enabled : bool;
  entries : list (string * (V * Z))
}.
Arguments mk {V} enabled entries.
Arguments enabled {V}.
Arguments entries {V}.

Section Operations.
Context {V : Type}.

Fixpoint find_key (key : string) (l : list (string * (V * Z))) : option (V * Z) :=
  match l with
  | [] => None
  | (k, e) :: rest => if String.eqb key k then Some e else find_key key rest
  end.

Definition remove_key (key : string) (l : list (string * (V * Z)))
  : list (string * (V * Z)) :=
  filter (fun e => negb (String.eqb key (fst e))) l.

(** [getCached(key)] at instant [at_]. *)
Definition getCached (at_ : Z) (key : string) (c : t V) : option V :=
  if enabled c then
    match find_key key (entries c) with
    | Some (value, expires) => if at_ <? expires then Some value else None
    | None => None
    end
  else None.

(** [setCached(key, value, ttlSeconds)] at instant [at_]. *)
Definition setCached (at_ : Z) (key : string) (value : V) (ttlSeconds : Z)
    (c : t V) : t V :=
  if enabled c then
    mk true ((key, (value, at_ + ttlSeconds * 1000)) :: remove_key key (entries c))
  else c.

(** [deleteCached(key)]. *)
Definition deleteCached (key : string) (c : t V) : t V :=
  if enabled c then mk true (remove_key key (entries c)) else c.

End Operations.
End Cache.

(* ================================================================== *)
(** ** Preference tools (tools/preferences.ts, utils/person-enrichment.ts) *)

Module Prefs.
Import Db Sql.

(** *** Person names *)

Definition normalizePersonName (item : Json) : res string :=
  match item with
  | JStr s => Ok s
  | _ =>
      match name_in item with
      | Some name =>
          let nameValue := match name_in name with
                           | Some inner => inner
                           | None => name
                           end in
          js_String nameValue
      | None => js_String item
      end
  end.

Definition normalizePersonNames (people : list Json) : res (list string) :=
  mapM normalizePersonName people.

(** An enriched person [{ name, profile_url, id }]. *)
Definition enriched (name : string) (profile_url : option string) (id : Z) : Json :=
  JObj [("name", JStr name);
        ("profile_url", match profile_url with Some u => JStr u | None => JNull end);
        ("id", JNum id)].

Definition enrichPersonNames (env : Env) (names : list string) : list Json :=
  map (fun name =>
         match searchPeople env name with
         | Ok (person :: _) =>
             enriched name (person_profile_url person) (person_id person)
         | _ => enriched name None 0
         end) names.

(** *** Statements on [preferences] *)

Definition p_match (userId : Z) (key : string) (r : PrefRow) : bool :=
  (p_user_id r =? userId) && String.eqb (p_key r) key.

(** [SELECT value FROM preferences WHERE user_id = $1 AND key = $2]; the
    key is a text parameter, refused when it holds the character U+0000. *)
Definition select_pref (userId : Z) (key : string) : Tx (list PrefRow) :=
  fun s =>
    if has_nul key then (Throw invalid_byte_sequence, s)
    else (Ok (filter (p_match userId key) (preferences s)), s).

Definition with_preferences (s : Db.t) (rows : list PrefRow) : Db.t :=
  {| movies := movies s; movies_id_seq := movies_id_seq s;
     watchlist := watchlist s; watched := watched s; preferences := rows |}.

(** [INSERT INTO preferences (user_id, key, value, updated_at)
     VALUES ($1, $2, $3::jsonb, NOW()) ON CONFLICT (user_id, key)
     DO UPDATE SET value = $3::jsonb, updated_at = NOW()], sent with
    [JSON.stringify(value)].  The parameters are read first, the key as
    text and the value as JSONB; then the row of the pair is updated, or,
    when there is none, a row is inserted, which [user_id INTEGER NOT NULL
    REFERENCES users(id)] refuses for a user without a row in [users]. *)
Definition upsert_pref (users : list Z) (at_ userId : Z) (key : string)
    (value : Json) : Tx unit :=
  fun s =>
    if has_nul key then (Throw invalid_byte_sequence, s)
    else
      match jsonb_in value with
      | Throw e => (Throw e, s)
      | Ok held =>
          if existsb (p_match userId key) (preferences s) then
            (Ok tt,
             with_preferences s
               (map (fun r => if p_match userId key r
                              then mkPref userId key held at_ else r)
                    (preferences s)))
          else if negb (registered users userId) then
            (Throw (foreign_key_violation "preferences" "preferences_user_id_fkey"),
             s)
          else
            (Ok tt,
             with_preferences s (preferences s ++ [mkPref userId key held at_]))
      end.

(** [UPDATE preferences SET value = $1::jsonb, updated_at = NOW()
     WHERE user_id = $2 AND key = $3], sent by [handleRemovePreferenceItem]
    with elements of the array it has just read under that key: the column
    holds them already, so the parameters are accepted and the elements are
    stored as they are. *)
Definition update_pref (at_ userId : Z) (key : string) (value : Json) : Tx unit :=
  fun s =>
    (Ok tt,
     with_preferences s
       (map (fun r => if p_match userId key r
                      then mkPref userId key value at_ else r)
            (preferences s))).

(** [DELETE FROM preferences WHERE user_id = $1 AND key = $2] *)
Definition delete_pref (userId : Z) (key : string) : Tx unit :=
  fun s =>
    (Ok tt,
     with_preferences s
       (filter (fun r => negb (p_match userId key r)) (preferences s))).

(** [SELECT key, value, updated_at FROM preferences WHERE user_id = $1
     ORDER BY updated_at DESC]: latest first.  SQL leaves the order of rows
    with equal dates open; this is one such order. *)
Fixpoint insert_desc (r : PrefRow) (sorted : list PrefRow) : list PrefRow :=
  match sorted with
  | [] => [r]
  | x :: rest =>
      if p_updated_at x <=? p_updated_at r then r :: sorted
      else x :: insert_desc r rest
  end.

Definition order_by_updated_at_desc (rows : list PrefRow) : list PrefRow :=
  fold_right insert_desc [] rows.

Definition select_user_prefs (userId : Z) (s : Db.t) : list PrefRow :=
  order_by_updated_at_desc
    (filter (fun r => p_user_id r =? userId) (preferences s)).

(** *** getPreferences *)

(** The [structuredContent] of a response of [getPreferences] that was
    computed from the store; the response's text and widget metadata are
    renderings of it.  The cache holds such responses. *)
Record PreferencesContent : Type := mkContent {
  pc_success : bool;
  pc_preferences : list (string * Json);
  pc_count : nat;
  pc_message : string
}.

(** What [getPreferences] returns: a response, computed or cached, or the
    [{ success: false, error }] of its [catch]. *)
Inductive PreferencesResponse : Type :=
| Loaded (structuredContent : PreferencesContent)
| LoadFailed (error : string).

(** The state of the preference tools: the store and the cache of
    responses. *)
Definition World : Type := Db.t * Cache.t PreferencesContent.

Definition cacheKey (userId : Z) : string :=
  "user:" +++ string_of_Z userId +++ ":preferences".

Definition isPersonKey (key : string) : bool :=
  String.eqb key "favorite_actors" || String.eqb key "favorite_directors".

(** The callback of [result.rows.map]: the value is what node-postgres hands
    over, and the names of a people preference are normalized, which may
    throw, before they are enriched. *)
Definition enrichRow (env : Env) (row : PrefRow) : res (string * Json) :=
  let key := p_key row in
  match pg_read (p_value row) with
  | JArr value =>
      if isPersonKey key then
        match normalizePersonNames value with
        | Throw e => Throw e
        | Ok names => Ok (key, JArr (enrichPersonNames env names))
        end
      else Ok (key, JArr value)
  | value => Ok (key, value)
  end.

(** [p.name]: reading a property of [null] throws; a value without that
    property gives [undefined]. *)
Definition property_name (p : Json) : res (option Json) :=
  match p with
  | JNull => Throw (Error "Cannot read properties of null (reading 'name')")
  | JObj fields => Ok (lookup_field "name" fields)
  | _ => Ok None
  end.

(** What [join] makes of one name: nothing of [undefined] and [null], the
    string of anything else. *)
Definition joined_name (name : option Json) : res string :=
  match name with
  | None | Some JNull => Ok EmptyString
  | Some v => js_String v
  end.

(** The callback that builds a line of [summaryLines].  The line is text of
    the response, which the embedding does not keep; building it throws
    when the value is an array that starts with an object, an array or
    [null] and reading or joining the names of its elements throws. *)
Definition summary_line (pref : string * Json) : res unit :=
  match snd pref with
  | JArr (first :: rest) =>
      if typeof_object first then
        match mapM property_name (first :: rest) with
        | Throw e => Throw e
        | Ok names =>
            match mapM joined_name names with
            | Throw e => Throw e
            | Ok _ => Ok tt
            end
        end
      else Ok tt
  | _ => Ok tt
  end.

(** The response computed from the rows of the user. *)
Definition loadPreferences (env : Env) (rows : list PrefRow)
  : res PreferencesContent :=
  match mapM (enrichRow env) rows with
  | Throw e => Throw e
  | Ok enrichedPreferences =>
      match mapM summary_line enrichedPreferences with
      | Throw e => Throw e
      | Ok _ =>
          let count := List.length enrichedPreferences in
          let summaryMessage :=
            if (0 <? count)%nat
            then "Retrieved " +++ string_of_Z (Z.of_nat count) +++ " preference(s)."
            else "No preferences saved yet. Use set_preference to add some." in
          Ok {| pc_success := true;
                pc_preferences := enrichedPreferences;
                pc_count := count;
                pc_message := summaryMessage |}
      end
  end.

(** [getPreferences] never throws: what its body throws is answered as
    [LoadFailed], and nothing is cached then. *)
Definition getPreferences (env : Env) (userId : Z) (w : World)
  : PreferencesResponse * World :=
  let (db, cache) := w in
  match Cache.getCached (now env) (cacheKey userId) cache with
  | Some cached => (Loaded cached, w)
  | None =>
      match loadPreferences env (select_user_prefs userId db) with
      | Throw e => (LoadFailed (errorMessage e), w)
      | Ok response =>
          (Loaded response,
           (db, Cache.setCached (now env) (cacheKey userId) response 300 cache))
      end
  end.

(** *** setPreferences *)

(** The [preferences] of the input; every pair carries a value. *)
Definition SetPreferencesInput : Type := list (string * Json).

(** [preferences: z.array(z.object({ key: z.string().min(1), value: z.any() }))
     .min(1)] *)
Definition SetPreferencesSchema (i : SetPreferencesInput) : res SetPreferencesInput :=
  match i with
  | [] => Throw ZodError
  | _ :: _ =>
      if forallb (fun pref => negb (String.eqb (fst pref) EmptyString)) i
      then Ok i else Throw ZodError
  end.

Definition isArrayPreference (key : string) : bool :=
  String.eqb key "favorite_actors" || String.eqb key "favorite_directors"
  || String.eqb key "favorite_genres".

(** [existingNames.includes(x)], [existingSet.has(x)] *)
Definition includes (l : list string) (x : string) : bool :=
  existsb (String.eqb x) l.

(** The loop that builds [merged] for a people preference. *)
Definition merge_names (existingNames newNames : list string) : list string :=
  fold_left
    (fun merged newName =>
       if includes existingNames newName then merged else merged ++ [newName])
    newNames existingNames.

(** [existingResult.rows.length > 0 ? rows[0].value : []], then
    [Array.isArray(existingValue) ? existingValue : []].  The elements are
    taken as the column holds them: what the handlers do with an element
    they have read (its string, its name, whether it is the item, writing
    it back) does not depend on the order in which node-postgres hands over
    the properties of an object. *)
Definition existingArrayOf (rows : list PrefRow) : list Json :=
  match rows with
  | row :: _ => match p_value row with JArr l => l | _ => [] end
  | [] => []
  end.

(** [pref.value.filter((item) => !existingSet.has(String(item)))] *)
Fixpoint filter_new (existingSet : list string) (incoming : list Json)
  : res (list Json) :=
  match incoming with
  | [] => Ok []
  | item :: rest =>
      match js_String item with
      | Throw e => Throw e
      | Ok text =>
          match filter_new existingSet rest with
          | Throw e => Throw e
          | Ok kept =>
              if includes existingSet text then Ok kept else Ok (item :: kept)
          end
      end
  end.

(** [normalizedValue] for [key], given the value sent and the rows read;
    normalizing a name or taking the string of an element may throw. *)
Definition normalizedValueOf (key : string) (value : Json) (rows : list PrefRow)
  : res Json :=
  match value with
  | JArr incoming =>
      if isArrayPreference key then
        let existingArray := existingArrayOf rows in
        if isPersonKey key then
          match normalizePersonNames existingArray with
          | Throw e => Throw e
          | Ok existingNames =>
              match normalizePersonNames incoming with
              | Throw e => Throw e
              | Ok newNames => Ok (JArr (map JStr (merge_names existingNames newNames)))
              end
          end
        else
          match mapM js_String existingArray with
          | Throw e => Throw e
          | Ok existingSet =>
              match filter_new existingSet incoming with
              | Throw e => Throw e
              | Ok newValues => Ok (JArr (existingArray ++ newValues))
              end
          end
      else Ok value
  | _ => Ok value
  end.

(** The body of the loop of [handleSetPreferences] for one preference; the
    existing row is read only on the merge path. *)
Definition set_one (env : Env) (userId : Z) (pref : string * Json) : Tx unit :=
  let (key, value) := pref in
  existingResult <- (if isArrayPreference key && isArray value
                     then select_pref userId key else ret []) ;;
  match normalizedValueOf key value existingResult with
  | Throw e => throw e
  | Ok normalizedValue =>
      upsert_pref (users env) (now env) userId key normalizedValue
  end.

Fixpoint set_loop (env : Env) (userId : Z) (prefs : SetPreferencesInput) : Tx unit :=
  match prefs with
  | [] => ret tt
  | pref :: rest => set_one env userId pref ;;; set_loop env userId rest
  end.

Record PrefsResult : Type := mkPrefsResult {
  pr_message : string;
  pr_structuredContent : PreferencesResponse
}.

Definition handleSetPreferences (env : Env) (validatedInput : SetPreferencesInput)
    (userId : Z) (w : World) : res PrefsResult * World :=
  if userId =? 0 then (Throw (Error "User ID is required"), w)
  else
    let (db, cache) := w in
    match transaction (set_loop env userId validatedInput) db with
    | (Throw e, db') => (Throw e, (db', cache))
    | (Ok _, db') =>
        let cache' := Cache.deleteCached (cacheKey userId) cache in
        let count := List.length validatedInput in
        let successMessage :=
          "Successfully set " +++ string_of_Z (Z.of_nat count) +++ " preference"
            +++ (if Nat.eqb count 1 then EmptyString else "s") in
        let (preferencesResult, w') := getPreferences env userId (db', cache') in
        (Ok {| pr_message := successMessage;
               pr_structuredContent := preferencesResult |}, w')
    end.

Definition setPreferences (env : Env) :=
  withToolHandler SetPreferencesSchema (handleSetPreferences env).

(** *** removePreferenceItem *)

(** [item: z.union([z.string(), z.number()])] *)
Inductive Item : Type :=
| ItemStr (s : string)
| ItemNum (n : Z).

Definition item_text (item : Item) : string :=
  match item with
  | ItemStr s => s
  | ItemNum n => string_of_Z n
  end.

Record RemovePreferenceItemInput : Type := mkRemove {
  rm_key : string;
  rm_item : Item
}.

Definition RemovePreferenceItemSchema (i : RemovePreferenceItemInput)
  : res RemovePreferenceItemInput :=
  if String.eqb (rm_key i) EmptyString then Throw ZodError else Ok i.

(** [v === item] for a value read from the store: only a string or a number
    can be identical to the item. *)
Definition strict_eq (v : Json) (item : Item) : bool :=
  match v, item with
  | JStr s, ItemStr t => String.eqb s t
  | JNum n, ItemNum m => n =? m
  | _, _ => false
  end.

(** [currentValue.filter(item => item.name !== validatedInput.item)]: reading
    [.name] of [null] throws a TypeError; of a value without that property
    it gives [undefined]. *)
Fixpoint filter_by_name (item : Item) (l : list Json) : res (list Json) :=
  match l with
  | [] => Ok []
  | JNull :: _ => Throw (Error "Cannot read properties of null (reading 'name')")
  | x :: rest =>
      match filter_by_name item rest with
      | Throw e => Throw e
      | Ok kept =>
          match name_in x with
          | Some name => if strict_eq name item then Ok kept else Ok (x :: kept)
          | None => Ok (x :: kept)
          end
      end
  end.

(** [currentValue.filter(item => item !== validatedInput.item)] *)
Definition filter_by_value (item : Item) (l : list Json) : list Json :=
  filter (fun x => negb (strict_eq x item)) l.

(** The callback of the transaction of [handleRemovePreferenceItem]. *)
Definition remove_item (env : Env) (validatedInput : RemovePreferenceItemInput)
    (userId : Z) : Tx string :=
  let key := rm_key validatedInput in
  let item := rm_item validatedInput in
  result <- select_pref userId key ;;
  match result with
  | [] => throw (Error ("Preference " +++ dq +++ key +++ dq +++ " not found"))
  | row :: _ =>
      match p_value row with
      | JArr currentValue =>
          updatedValue <-
            (match currentValue with
             | first :: _ =>
                 match name_in first with
                 | Some _ =>
                     match filter_by_name item currentValue with
                     | Ok kept => ret kept
                     | Throw e => throw e
                     end
                 | None => ret (filter_by_value item currentValue)
                 end
             | [] => ret (filter_by_value item currentValue)
             end) ;;
          match updatedValue with
          | [] =>
              delete_pref userId key ;;;
              ret ("Removed " +++ dq +++ item_text item +++ dq +++ " from " +++ key
                     +++ ". Preference deleted because it's now empty.")
          | _ :: _ =>
              update_pref (now env) userId key (JArr updatedValue) ;;;
              ret ("Removed " +++ dq +++ item_text item +++ dq +++ " from " +++ key)
          end
      | _ => throw (Error ("Preference " +++ dq +++ key +++ dq +++ " is not an array"))
      end
  end.

Definition handleRemovePreferenceItem (env : Env)
    (validatedInput : RemovePreferenceItemInput) (userId : Z) (w : World)
  : res PrefsResult * World :=
  if userId =? 0 then (Throw (Error "User ID is required"), w)
  else
    let (db, cache) := w in
    match transaction (remove_item env validatedInput userId) db with
    | (Throw e, db') => (Throw e, (db', cache))
    | (Ok successMessage, db') =>
        let cache' := Cache.deleteCached (cacheKey userId) cache in
        let (preferencesResult, w') := getPreferences env userId (db', cache') in
        (Ok {| pr_message := successMessage;
               pr_structuredContent := preferencesResult |}, w')
    end.

Definition removePreferenceItem (env : Env) :=
  withToolHandler RemovePreferenceItemSchema (handleRemovePreferenceItem env).

(** *** Sequences of calls *)

Inductive call : Type :=
| SetPreferences (userId : Z) (input : SetPreferencesInput)
| RemovePreferenceItem (userId : Z) (input : RemovePreferenceItemInput)
| GetPreferences (userId : Z).

Definition callTool (env : Env) (c : call) (w : World) : World :=
  match c with
  | SetPreferences u input =>
      if u =? 0 then w else snd (setPreferences env input u w)
  | RemovePreferenceItem u input =>
      if u =? 0 then w else snd (removePreferenceItem env input u w)
  | GetPreferences u =>
      if u =? 0 then w else snd (getPreferences env u w)
  end.

Fixpoint run (calls : list (Env * call)) (w : World) : World :=
  match calls with
  | [] => w
  | (env, c) :: rest => run rest (callTool env c w)
  end.

(** The value of the PreferenceEntry of [(userId, key)], if the row exists. *)
Definition stored (s : Db.t) (userId : Z) (key : string) : option Json :=
  match filter (p_match userId key) (preferences s) with
  | row :: _ => Some (p_value row)
  | [] => None
  end.

End Prefs.

(* ================================================================== *)
(** ** Vocabulary of the properties of the watchlist / watched tools *)

Module WatchSpec.
Import Db Sql Watch.

(** The effect on [watchlist] and [watched] of a [handleMarkAsWatched] that
    returns, for the media record [m] it resolved. *)
Definition mark_effect (env : Env) (input : MarkAsWatchedInput) (u m : Z)
    (s s' : Db.t) : Prop :=
  let row := mkWatched u m (mw_rating input) (notes_or_null (mw_notes input))
                       (now env) in
  (inWatched s u m = true /\
   watchlist s' = watchlist s /\
   watched s' = map (fun r => if wd_match u m r then row else r) (watched s))
  \/
  (inWatched s u m = false /\
   watchlist s' = filter (fun r => negb (wl_match u m r)) (watchlist s) /\
   watched s' = watched s ++ [row]).

(** How a handler resolved the media record of [tmdb_id]: it was there, or
    it was inserted under the next id of the sequence. *)
Definition resolved (tmdb_id m : Z) (s s' : Db.t) : Prop :=
  (movieIdOf s tmdb_id = Some m /\ movies s' = movies s /\
   movies_id_seq s' = movies_id_seq s)
  \/
  (movieIdOf s tmdb_id = None /\ m = movies_id_seq s /\
   movies_id_seq s' = movies_id_seq s + 1 /\
   exists row, m_id row = m /\ movies s' = movies s ++ [row]).






(** The record the batch collects for an entry from the outcome of its
    [markAsWatched]. *)
Definition entry_report (entry : MarkAsWatchedInput) (outcome : res SimpleResult)
  : BatchEntryResult :=
  match outcome with
  | Ok result => mkEntryResult (mw_tmdb_id entry) (success result) (message result)
  | Throw error => mkEntryResult (mw_tmdb_id entry) false (caught_message error)
  end.

(** Best-effort batch, in the words of the specification: each entry's
    [markAsWatched] in its own independent transaction, one record per entry
    whatever its outcome. *)
Fixpoint independent_transactions (env : Env) (userId : Z)
    (todo : list MarkAsWatchedInput) (s : Db.t)
  : list BatchEntryResult * Db.t :=
  match todo with
  | [] => ([], s)
  | entry :: rest =>
      let (outcome, s1) := transaction (handleMarkAsWatched env entry userId) s in
      let (reports, s2) := independent_transactions env userId rest s1 in
      (entry_report entry outcome :: reports, s2)
  end.

(** The entries processed in order on one client, up to the first one that
    throws. *)
Fixpoint process_in_order (env : Env) (userId : Z)
    (todo : list MarkAsWatchedInput) (s : Db.t) : res unit * Db.t :=
  match todo with
  | [] => (Ok tt, s)
  | entry :: rest =>
      match handleMarkAsWatched env entry userId s with
      | (Ok _, s1) => process_in_order env userId rest s1
      | (Throw e, s1) => (Throw e, s1)
      end
  end.

(** A provider that knows every film as released, except film 2, which is
    to be released at instant 5000; the clock reads 1000 and users 1, 2 and
    3 are registered. *)
Definition demo_env : Env :=
  {| getMovieDetails := fun id =>
       if id =? 2 then Ok (mkDetails id "Dune: Part Three"
                                     (Some (5000, "December 18, 2026")))
       else Ok (mkDetails id "Fight Club" None);
     searchPeople := fun _ => Ok [];
     now := 1000;
     users := [1; 2; 3] |}.

(** A film is marked as watched, then added to the watchlist. *)
Definition watched_then_added : list (Env * call) :=
  [(demo_env, MarkAsWatched 1 (mkMark 550 5 None));
   (demo_env, AddToWatchlist 1 (mkAdd 550 None))].

(** A film goes through the watchlist, is watched, rated again, and a
    removal is attempted. *)
Definition watchlist_then_watched : list (Env * call) :=
  [(demo_env, AddToWatchlist 1 (mkAdd 550 (Some "tonight")));
   (demo_env, MarkAsWatched 1 (mkMark 550 4 None));
   (demo_env, MarkAsWatched 1 (mkMark 550 5 (Some "even better")));
   (demo_env, RemoveFromWatchlist 1 550);
   (demo_env, AddToWatchlist 2 (mkAdd 550 None))].

(** Three entries, the second for a film that is not released yet. *)
Definition batch_unreleased_second (transactional : option bool)
  : MarkAsWatchedBatchInput :=
  mkBatch [mkMark 1 5 None; mkMark 2 3 None; mkMark 3 4 None] transactional.

(** Three entries, the second with rating 0. *)
Definition batch_rating_zero (transactional : option bool)
  : MarkAsWatchedBatchInput :=
  mkBatch [mkMark 11 5 None; mkMark 12 0 None; mkMark 13 4 None] transactional.

End WatchSpec.

(* ================================================================== *)
(** ** Read tools and lookups (tools/watched.ts, tools/watchlist.ts,
       db/utilities.ts) *)

Module Reads.
Import Db Sql Watch.

(** [ORDER BY key DESC].  SQL leaves the order of rows with equal keys open;
    this is one such order (rows with equal keys as the scan meets them).
    What is proved of the read tools is stated of the rows listed and of
    their keys descending, never of the place of a row among its equals, and
    so holds whichever order the server picks. *)
Fixpoint insert_by {A} (key : A -> Z) (x : A) (sorted : list A) : list A :=
  match sorted with
  | [] => [x]
  | y :: rest =>
      if key y <=? key x then x :: sorted else y :: insert_by key x rest
  end.

Definition order_by_desc {A} (key : A -> Z) (rows : list A) : list A :=
  fold_right (insert_by key) [] rows.

(** [getMovieIdByTMDBId] *)
Definition getMovieIdByTMDBId (tmdb_id : Z) : Tx (option Z) :=
  result <- select_movie tmdb_id ;;
  ret (match result with row :: _ => Some (m_id row) | [] => None end).

(** [bulkCheckWatchlist]: the ids, among [movieIds], of the films in the
    user's watchlist.  The [Set] is the list of its members. *)
Definition bulkCheckWatchlist (userId : Z) (movieIds : list Z) : Tx (list Z) :=
  match movieIds with
  | [] => ret []
  | _ :: _ =>
      fun s =>
        (Ok (map wl_movie_id
               (filter (fun r => (wl_user_id r =? userId)
                                 && existsb (Z.eqb (wl_movie_id r)) movieIds)
                       (watchlist s))), s)
  end.

(** [Map.set]: a later binding of a key replaces the earlier one. *)
Definition map_set {V} (k : Z) (v : V) (m : list (Z * V)) : list (Z * V) :=
  (k, v) :: filter (fun e => negb (fst e =? k)) m.

Fixpoint map_get {V} (k : Z) (m : list (Z * V)) : option V :=
  match m with
  | [] => None
  | (k', v) :: rest => if k' =? k then Some v else map_get k rest
  end.

(** [bulkCheckWatched]: for the films among [movieIds] the user has watched,
    the rating and the notes. *)
Definition bulkCheckWatched (userId : Z) (movieIds : list Z)
  : Tx (list (Z * (Z * option string))) :=
  match movieIds with
  | [] => ret []
  | _ :: _ =>
      fun s =>
        (Ok (fold_left
               (fun watchedMap row =>
                  map_set (wd_movie_id row) (wd_rating row, wd_notes row) watchedMap)
               (filter (fun r => (wd_user_id r =? userId)
                                 && existsb (Z.eqb (wd_movie_id r)) movieIds)
                       (watched s))
               []), s)
  end.

(** *** getWatchedMovies *)

(** [min_rating: z.number().int().min(1).max(5).optional()] *)
Definition GetWatchedMoviesSchema (min_rating : option Z) : res (option Z) :=
  match min_rating with
  | None => Ok None
  | Some r => if (1 <=? r) && (r <=? 5) then Ok (Some r) else Throw ZodError
  end.

(** A film of the watch history.  As for [MovieRow], the columns [year],
    [overview], [poster_url] and [rating] of the film are passed on as they
    are stored and are not part of the record. *)
Record WatchedMovie : Type := mkWatchedMovie {
  wm_tmdb_id : Z;
  wm_title : string;
  wm_userRating : Z;
  wm_notes : option string;
  wm_watched_at : Z
}.

Record WatchedMoviesResult : Type := mkWatchedResult {
  gw_message : string;
  gw_watched : list WatchedMovie;
  gw_count : nat
}.

(** [FROM watched w JOIN movies m ON w.movie_id = m.id WHERE w.user_id = $1]
    and, when a minimum rating is given, [AND w.rating >= $2]. *)
Definition watched_join (userId : Z) (min_rating : option Z) (s : Db.t)
  : list (WatchedRow * MovieRow) :=
  flat_map
    (fun w => map (fun m => (w, m))
                  (filter (fun m => m_id m =? wd_movie_id w) (movies s)))
    (filter (fun w => (wd_user_id w =? userId)
                      && match min_rating with
                         | Some r => r <=? wd_rating w
                         | None => true
                         end)
            (watched s)).

Definition handleGetWatchedMovies (validatedInput : option Z) (userId : Z)
  : Tx WatchedMoviesResult :=
  if userId =? 0 then throw (Error "User ID is required")
  else
    fun s =>
      let rows := order_by_desc (fun wm => wd_watched_at (fst wm))
                    (watched_join userId validatedInput s) in
      let watchedMovies :=
        map (fun wm => mkWatchedMovie (m_tmdb_id (snd wm)) (m_title (snd wm))
                                      (wd_rating (fst wm)) (wd_notes (fst wm))
                                      (wd_watched_at (fst wm))) rows in
      let n := string_of_Z (Z.of_nat (List.length watchedMovies)) in
      let summaryMessage :=
        match validatedInput with
        | Some min_rating =>
            "Found " +++ n +++ " movie(s) with rating >= "
                     +++ string_of_Z min_rating +++ "."
        | None => "Found " +++ n +++ " watched movie(s)."
        end in
      (Ok {| gw_message := summaryMessage;
             gw_watched := watchedMovies;
             gw_count := List.length watchedMovies |}, s).

Definition getWatchedMovies :=
  withToolHandler GetWatchedMoviesSchema
    (fun validatedInput userId => query (handleGetWatchedMovies validatedInput userId)).

(** *** getWatchlist *)

Record WatchlistItem : Type := mkItem {
  wi_tmdb_id : Z;
  wi_title : string;
  wi_notes : option string;
  wi_added_at : Z
}.

(** The [structuredContent] of the response of [getWatchlist]. *)
Record WatchlistContent : Type := mkWatchlistContent {
  gl_success : bool;
  gl_watchlist : list WatchlistItem;
  gl_count : nat;
  gl_message : string
}.

(** [FROM watchlist w JOIN movies m ON w.movie_id = m.id
     WHERE w.user_id = $1 ORDER BY w.added_at DESC] *)
Definition getWatchlist (userId : Z) (s : Db.t) : WatchlistContent :=
  let rows :=
    order_by_desc (fun wm => wl_added_at (fst wm))
      (flat_map
         (fun w => map (fun m => (w, m))
                       (filter (fun m => m_id m =? wl_movie_id w) (movies s)))
         (filter (fun w => wl_user_id w =? userId) (watchlist s))) in
  let watchlistItems :=
    map (fun wm => mkItem (m_tmdb_id (snd wm)) (m_title (snd wm))
                          (wl_notes (fst wm)) (wl_added_at (fst wm))) rows in
  {| gl_success := true;
     gl_watchlist := watchlistItems;
     gl_count := List.length watchlistItems;
     gl_message := "Found " +++ string_of_Z (Z.of_nat (List.length watchlistItems))
                            +++ " movie(s) in your watchlist." |}.

End Reads.

(* ================================================================== *)
(** ** Further vocabulary *)

Module MoreSpec.
Import Db Sql Watch.

(** The provider answers a request for a film with the record of that
    film. *)
Definition faithful (env : Env) (tmdb_id : Z) : Prop :=
  forall d, getMovieDetails env tmdb_id = Ok d -> md_tmdb_id d = tmdb_id.

(** The rows of a user. *)
Definition watchlist_of (s : Db.t) (userId : Z) : list WatchlistRow :=
  filter (fun r => wl_user_id r =? userId) (watchlist s).
Definition watched_of (s : Db.t) (userId : Z) : list WatchedRow :=
  filter (fun r => wd_user_id r =? userId) (watched s).

(** Every rating of the watch history is between 1 and 5. *)
Definition ratings_in_range (s : Db.t) : Prop :=
  forall r, In r (watched s) -> 1 <= wd_rating r <= 5.

(** A provider with two films: 550, released, and 2, to be released at
    instant 5000; the clock reads 1000 and users 1, 2 and 3 are registered. *)
Definition two_films : Env :=
  {| getMovieDetails := fun id =>
       if id =? 2 then Ok (mkDetails 2 "Dune: Part Three"
                                     (Some (5000, "December 18, 2026")))
       else if id =? 550 then Ok (mkDetails 550 "Fight Club" (Some (10, "October 15, 1999")))
       else Throw (Error "TMDB request failed: 404");
     searchPeople := fun _ => Throw (Error "TMDB request failed: 500");
     now := 1000;
     users := [1; 2; 3] |}.

(** The same provider, two seconds later. *)
Definition two_films_later : Env :=
  {| getMovieDetails := getMovieDetails two_films;
     searchPeople := searchPeople two_films;
     now := 3000;
     users := users two_films |}.

(** [WatchSpec.demo_env], one second later. *)
Definition demo_env_later : Env :=
  {| getMovieDetails := getMovieDetails WatchSpec.demo_env;
     searchPeople := searchPeople WatchSpec.demo_env;
     now := 2000;
     users := users WatchSpec.demo_env |}.

(** Notes the store accepts: they do not hold the character U+0000. *)
Definition storable (notes : option string) : Prop :=
  text_refused notes = false.

(** The user has a row in [users] (and is not the missing user). *)
Definition is_registered (env : Env) (userId : Z) : Prop :=
  userId <> 0 /\ In userId (users env).

(** What a call may do to the MediaRecords: nothing, or insert one under
    the next id of the sequence, for an external identifier not yet there. *)
Definition movies_step (s s' : Db.t) : Prop :=
  movies_id_seq s <= movies_id_seq s' /\
  (movies s' = movies s \/
   exists d,
     existsb (fun r => m_tmdb_id r =? md_tmdb_id d) (movies s) = false /\
     movies_id_seq s' = movies_id_seq s + 1 /\
     movies s' = movies s ++ [mkMovie (movies_id_seq s) (md_tmdb_id d) (md_title d)]).

(** What a call of user [u] may do to the entries when [users] are the
    registered users: nothing; add a WatchlistEntry of [u] for a pair that
    had none; delete the WatchlistEntry of a pair of [u]; replace the
    WatchedEntry of a pair of [u] by one with a rating between 1 and 5; or
    insert such a WatchedEntry for a pair that had none and delete the
    pair's WatchlistEntry.  An entry is added for a registered user only. *)
Inductive entries_step (users : list Z) (u : Z) (s s' : Db.t) : Prop :=
| step_nothing :
    watchlist s' = watchlist s -> watched s' = watched s ->
    entries_step users u s s'
| step_added (m : Z) (notes : option string) (at_ : Z) :
    u <> 0 -> registered users u = true ->
    inWatchlist s u m = false ->
    watchlist s' = watchlist s ++ [mkWatchlist u m notes at_] ->
    watched s' = watched s ->
    entries_step users u s s'
| step_removed (m : Z) :
    watchlist s' = filter (fun r => negb (wl_match u m r)) (watchlist s) ->
    watched s' = watched s ->
    entries_step users u s s'
| step_rerated (m rating : Z) (notes : option string) (at_ : Z) :
    1 <= rating <= 5 ->
    watchlist s' = watchlist s ->
    watched s' = map (fun r => if wd_match u m r
                               then mkWatched u m rating notes at_ else r)
                     (watched s) ->
    entries_step users u s s'
| step_watched (m rating : Z) (notes : option string) (at_ : Z) :
    u <> 0 -> registered users u = true ->
    1 <= rating <= 5 ->
    inWatched s u m = false ->
    watchlist s' = filter (fun r => negb (wl_match u m r)) (watchlist s) ->
    watched s' = watched s ++ [mkWatched u m rating notes at_] ->
    entries_step users u s s'.

(** A list is in descending order of [key]. *)
Fixpoint descending {A} (key : A -> Z) (l : list A) : Prop :=
  match l with
  | [] => True
  | x :: rest => Forall (fun y => key y <= key x) rest /\ descending key rest
  end.

(** The store with one table replaced. *)
Definition with_watchlist (s : Db.t) (rows : list WatchlistRow) : Db.t :=
  {| movies := movies s; movies_id_seq := movies_id_seq s;
     watchlist := rows; watched := watched s; preferences := preferences s |}.

Definition with_watched (s : Db.t) (rows : list WatchedRow) : Db.t :=
  {| movies := movies s; movies_id_seq := movies_id_seq s;
     watchlist := watchlist s; watched := rows; preferences := preferences s |}.

(** The store after the sequence handed out an id that no row uses. *)
Definition seq_advanced (s : Db.t) : Db.t :=
  {| movies := movies s; movies_id_seq := movies_id_seq s + 1;
     watchlist := watchlist s; watched := watched s;
     preferences := preferences s |}.

(** The store with the MediaRecord of [d] inserted under the next id. *)
Definition with_new_movie (s : Db.t) (d : MovieDetails) : Db.t :=
  {| movies := movies s ++ [mkMovie (movies_id_seq s) (md_tmdb_id d) (md_title d)];
     movies_id_seq := movies_id_seq s + 1;
     watchlist := watchlist s; watched := watched s;
     preferences := preferences s |}.

(** What an insert refuses for the user: nothing for a registered user. *)
Definition refused_user (relation : string) (env : Env) (userId : Z) : option exn :=
  if userId =? 0 then Some (not_null_violation "user_id" relation)
  else if registered (users env) userId then None
  else Some (foreign_key_violation relation (relation +++ "_user_id_fkey")).

(** What [handleAddToWatchlist] does once the MediaRecord [m] is known. *)
Definition add_for (env : Env) (input : AddToWatchlistInput) (u m : Z)
    (s : Db.t) : res SimpleResult * Db.t :=
  if inWatchlist s u m then
    (Ok {| success := false; message := "Movie is already in your watchlist" |}, s)
  else if text_refused (notes_or_null (aw_notes input)) then
    (Throw invalid_byte_sequence, s)
  else
    match refused_user "watchlist" env u with
    | Some e => (Throw e, s)
    | None =>
        (Ok {| success := true; message := "Movie added to watchlist successfully" |},
         with_watchlist s
           (watchlist s
            ++ [mkWatchlist u m (notes_or_null (aw_notes input)) (now env)]))
    end.

(** What [handleMarkAsWatched] does once the MediaRecord [m] is known. *)
Definition mark_for (env : Env) (input : MarkAsWatchedInput) (u m : Z)
    (s : Db.t) : res SimpleResult * Db.t :=
  let row := mkWatched u m (mw_rating input) (notes_or_null (mw_notes input))
                       (now env) in
  if text_refused (notes_or_null (mw_notes input)) then
    (Throw invalid_byte_sequence, s)
  else if inWatched s u m then
    if negb (rating_check (mw_rating input)) then
      (Throw (check_violation "watched" "watched_rating_check"), s)
    else
      (Ok {| success := true; message := "Updated watch record with new rating." |},
       with_watched s (map (fun r => if wd_match u m r then row else r) (watched s)))
  else if u =? 0 then
    (Throw (not_null_violation "user_id" "watched"), s)
  else if negb (rating_check (mw_rating input)) then
    (Throw (check_violation "watched" "watched_rating_check"), s)
  else
    match refused_user "watched" env u with
    | Some e => (Throw e, s)
    | None =>
        (Ok {| success := true;
               message := if inWatchlist s u m
                          then "Movie marked as watched and removed from watchlist."
                          else "Movie marked as watched." |},
         with_watchlist (with_watched s (watched s ++ [row]))
           (filter (fun r => negb (wl_match u m r)) (watchlist s)))
    end.

End MoreSpec.

(* ================================================================== *)
(** ** Vocabulary of the properties of the preference tools *)

Module PrefsSpec.
Import Db Prefs.

(** The list a merge starts from: the stored array of [(userId, key)], or
    the empty list when there is no row or its value is not an array. *)
Definition existing_list (s : Db.t) (userId : Z) (key : string) : list Json :=
  existingArrayOf (filter (p_match userId key) (preferences s)).

(** The existing elements in their order, then the incoming elements, in
    their order, whose canonical form does not occur among the existing
    ones. *)
Definition append_absent {A} (canon : A -> string) (existing incoming : list A)
  : list A :=
  existing ++
  filter (fun x => negb (includes (map canon existing) (canon x))) incoming.

(** The merge in the words of the specification: the existing elements in
    their order, then each incoming element, in order, that has not been
    seen so far. *)
Fixpoint append_unseen {A} (canon : A -> string) (result incoming : list A)
  : list A :=
  match incoming with
  | [] => result
  | x :: rest =>
      if includes (map canon result) (canon x)
      then append_unseen canon result rest
      else append_unseen canon (result ++ [x]) rest
  end.

(** The three representations of the person named [X]. *)
Inductive person_shaped (X : string) : Json -> Prop :=
| bare_string : person_shaped X (JStr X)
| name_field : person_shaped X (JObj [("name", JStr X)])
| nested_name : person_shaped X (JObj [("name", JObj [("name", JStr X)])]).

(** None of the names holds the character U+0000. *)
Definition nul_free (names : list string) : Prop :=
  forallb (fun name => negb (has_nul name)) names = true.

(** No row of a list-valued key holds the empty list. *)
Definition no_empty_list (s : Db.t) : Prop :=
  forall r, In r (preferences s) ->
            isArrayPreference (p_key r) = true -> p_value r <> JArr [].

Definition is_empty_array (v : Json) : bool :=
  match v with JArr [] => true | _ => false end.

(** A call that does not set a list-valued key to the empty array. *)
Definition sets_no_empty_array (c : call) : bool :=
  match c with
  | SetPreferences _ input =>
      forallb (fun pref => negb (isArrayPreference (fst pref)
                                 && is_empty_array (snd pref))) input
  | _ => true
  end.

(** The user a preference call is made for. *)
Definition caller (c : Prefs.call) : Z :=
  match c with
  | SetPreferences u _ | RemovePreferenceItem u _ | GetPreferences u => u
  end.

(** The preference rows of one user, in table order. *)
Definition rows_of (userId : Z) (s : Db.t) : list PrefRow :=
  filter (fun r => p_user_id r =? userId) (preferences s).



(** The tables a preference statement leaves alone. *)
Definition frame (s s' : Db.t) : Prop :=
  movies s' = movies s /\ movies_id_seq s' = movies_id_seq s /\
  watchlist s' = watchlist s /\ watched s' = watched s.

(** The rows a single-pair [setPreferences] reads before it writes. *)
Definition rows_read (u : Z) (key : string) (value : Json) (db : Db.t)
  : list PrefRow :=
  if isArrayPreference key && isArray value
  then filter (p_match u key) (preferences db) else [].


(** The array [removePreferenceItem] keeps: filtered by name when the first
    element is an object with a name, by value otherwise. *)
Definition kept_after_remove (item : Item) (currentValue : list Json)
  : res (list Json) :=
  match currentValue with
  | first :: _ =>
      match name_in first with
      | Some _ => filter_by_name item currentValue
      | None => Ok (filter_by_value item currentValue)
      end
  | [] => Ok (filter_by_value item currentValue)
  end.

(** An element stays when removing by name: it has no name, or a name other
    than the item. *)
Definition other_name (item : Item) (x : Json) : bool :=
  match name_in x with
  | Some name => negb (strict_eq name item)
  | None => true
  end.

(** A person search that finds nobody; the clock reads 1000 and users 1
    and 2 have a row in [users]. *)
Definition quiet_env : Env :=
  {| getMovieDetails := fun _ => Throw (Error "TMDB_API_KEY not configured");
     searchPeople := fun _ => Ok [];
     now := 1000;
     users := [1; 2] |}.


(** The empty store with a configured, empty cache. *)
Definition fresh_world : World := (Db.empty, Cache.mk true []).

Definition genres (names : list string) : string * Json :=
  ("favorite_genres", JArr (map JStr names)).

(** The world after ["Action", "Comedy"] was set as favorite genres; its
    cache holds the response that shows them. *)
Definition action_comedy_world : World :=
  run [(quiet_env, SetPreferences 1 [genres ["Action"; "Comedy"]])] fresh_world.

(** Genres and an actor are set, then removed one by one. *)
Definition set_then_remove_all : list (Env * call) :=
  [(quiet_env, SetPreferences 1 [genres ["Action"; "Comedy"];
                                 ("favorite_actors", JArr [JObj [("name", JStr "Tom Hanks")]])]);
   (quiet_env, GetPreferences 1);
   (quiet_env, RemovePreferenceItem 1 (mkRemove "favorite_genres" (ItemStr "Action")));
   (quiet_env, RemovePreferenceItem 1 (mkRemove "favorite_actors" (ItemStr "Tom Hanks")))].

(** The empty array is set as favorite genres. *)
Definition set_empty_genres : list (Env * call) :=
  [(quiet_env, SetPreferences 1 [("favorite_genres", JArr [])])].

(** A name that holds the character U+0000. *)
Definition nul_name : string := "Tom" +++ String Ascii.zero "Hanks".

(** A studio list set under a key that is not one of the three list keys:
    an object with a name, then [null]. *)
Definition studios : string * Json :=
  ("favorite_studios", JArr [JObj [("name", JStr "A24")]; JNull]).

Definition studios_world : World :=
  run [(quiet_env, SetPreferences 1 [studios])] fresh_world.

(** Two directors stored as objects under a key outside the list keys. *)
Definition crew_world : World :=
  run [(quiet_env, SetPreferences 1
          [("crew", JArr [JObj [("name", JStr "Greta Gerwig")];
                          JObj [("name", JStr "Bong Joon-ho")]])])] fresh_world.

(** Users 1 and 2 both have favorite genres. *)
Definition two_users_world : World :=
  run [(quiet_env, SetPreferences 2 [genres ["Horror"]])] action_comedy_world.

(** User 1 sets, removes and reads preferences. *)
Definition user_one_calls : list (Env * call) :=
  [(quiet_env, SetPreferences 1 [genres ["Horror"; "Drama"]]);
   (quiet_env, RemovePreferenceItem 1 (mkRemove "favorite_genres" (ItemStr "Horror")));
   (quiet_env, GetPreferences 1)].

End PrefsSpec.

(* ================================================================== *)
(** * Properties *)

(** ** Lists and the store *)

Lemma existsb_snoc {A} (f : A -> bool) (l : list A) (x : A) :
  existsb f (l ++ [x]) = existsb f l || f x.
Proof. rewrite existsb_app; simpl; now rewrite orb_false_r. Qed.

Lemma existsb_false_filter {A} (f : A -> bool) (l : list A) :
  existsb f l = false -> filter f l = [].
Proof.
  induction l as [|x l IH]; simpl; [reflexivity|].
  intros H; apply orb_false_iff in H as [Hx Hl]; rewrite Hx; auto.
Qed.

Lemma filter_nil_existsb {A} (f : A -> bool) (l : list A) :
  filter f l = [] -> existsb f l = false.
Proof.
  induction l as [|x l IH]; simpl; [reflexivity|].
  destruct (f x); [discriminate | auto].
Qed.

Lemma filter_cons_existsb {A} (f : A -> bool) (l : list A) x rest :
  filter f l = x :: rest -> existsb f l = true.
Proof.
  intros H; destruct (existsb f l) eqn:E; [reflexivity|].
  rewrite (existsb_false_filter _ _ E) in H; discriminate.
Qed.

Lemma filter_head_In {A} (f : A -> bool) (l : list A) x rest :
  filter f l = x :: rest -> In x l /\ f x = true.
Proof.
  intros H; apply filter_In; rewrite H; now left.
Qed.

Lemma same_rows_refl (s : Db.t) : Db.same_rows s s.
Proof. now repeat split. Qed.

Lemma same_rows_rollback (s s' : Db.t) : Db.same_rows s (Db.rollback s s').
Proof. now repeat split. Qed.

(** A transaction that throws leaves every table as it was. *)
Lemma transaction_throw_same_rows {A} (f : Db.Tx A) (s s' : Db.t) (e : exn) :
  Db.transaction f s = (Throw e, s') -> Db.same_rows s s'.
Proof.
  unfold Db.transaction; destruct (f s) as [[a|e'] s1]; intros H;
    inversion H; subst; apply same_rows_rollback.
Qed.

(** A transaction that throws without having drawn from the sequence of
    [movies] leaves the store as it was. *)
Lemma rollback_same_seq (s s' : Db.t) :
  Db.movies_id_seq s' = Db.movies_id_seq s -> Db.rollback s s' = s.
Proof. intros H; destruct s; unfold Db.rollback; cbn in *; now rewrite H. Qed.

Lemma rollback_id (s : Db.t) : Db.rollback s s = s.
Proof. now destruct s. Qed.

(* ------------------------------------------------------------------ *)
(** ** The watchlist / watched state machine *)

Module WatchFacts.
Import Db Sql Watch WatchSpec.

Lemma wl_match_iff u m r :
  wl_match u m r = true <-> wl_user_id r = u /\ wl_movie_id r = m.
Proof. unfold wl_match; rewrite andb_true_iff, !Z.eqb_eq; tauto. Qed.

Lemma wd_match_iff u m r :
  wd_match u m r = true <-> wd_user_id r = u /\ wd_movie_id r = m.
Proof. unfold wd_match; rewrite andb_true_iff, !Z.eqb_eq; tauto. Qed.

Lemma inWatchlist_iff s u m :
  inWatchlist s u m = true <->
  exists r, In r (watchlist s) /\ wl_user_id r = u /\ wl_movie_id r = m.
Proof.
  unfold inWatchlist; rewrite existsb_exists.
  split; intros [r [Hin H]]; exists r; split; auto; now apply wl_match_iff.
Qed.

Lemma inWatched_iff s u m :
  inWatched s u m = true <->
  exists r, In r (watched s) /\ wd_user_id r = u /\ wd_movie_id r = m.
Proof.
  unfold inWatched; rewrite existsb_exists.
  split; intros [r [Hin H]]; exists r; split; auto; now apply wd_match_iff.
Qed.

Lemma movieIdOf_Some s tmdb_id m :
  movieIdOf s tmdb_id = Some m ->
  exists row, In row (movies s) /\ m_id row = m /\ m_tmdb_id row = tmdb_id.
Proof.
  unfold movieIdOf.
  destruct (filter _ (movies s)) as [|row rest] eqn:E; [discriminate|].
  intros H; inversion H; subst.
  apply filter_head_In in E as [Hin Hm]; apply Z.eqb_eq in Hm; eauto.
Qed.

(** The rows of [watched] after the UPDATE keep their keys. *)
Lemma existsb_wd_update u m u' m' (row : WatchedRow) l :
  wd_user_id row = u -> wd_movie_id row = m ->
  existsb (wd_match u' m') (map (fun r => if wd_match u m r then row else r) l)
  = existsb (wd_match u' m') l.
Proof.
  intros Hu Hm; induction l as [|x l IH]; simpl; [reflexivity|].
  rewrite IH; f_equal.
  destruct (wd_match u m x) eqn:E; [|reflexivity].
  apply wd_match_iff in E as [E1 E2].
  unfold wd_match; now rewrite Hu, Hm, E1, E2.
Qed.

(** *** What the handlers do to the store *)

Ltac tx := unfold bind, ret, throw, Db.query in *.

Lemma handleMarkAsWatched_Ok env input u s r s' :
  handleMarkAsWatched env input u s = (Ok r, s') ->
  exists m, resolved (mw_tmdb_id input) m s s' /\ mark_effect env input u m s s'
            /\ preferences s' = preferences s.
Proof.
  unfold handleMarkAsWatched.
  destruct (getMovieDetails env (mw_tmdb_id input)) as [d|e]; [|discriminate].
  destruct (not_released_yet env d); [discriminate|].
  tx; unfold select_movie, select_watched.
  destruct (filter _ (movies s)) as [|row rest] eqn:Emov.
  - (* the media record is inserted *)
    unfold insert_movie.
    destruct (existsb _ (movies s)); [discriminate|]; cbn [watched].
    set (m := movies_id_seq s).
    destruct (filter (wd_match u m) (watched s)) as [|w ws] eqn:Ew.
    + unfold insert_watched; cbn [watched].
      destruct (text_refused _); [discriminate|].
      destruct (u =? 0); [discriminate|].
      destruct (negb (rating_check _)); [discriminate|].
      destruct (existsb _ (watched s)) eqn:Ex; [discriminate|].
      destruct (negb (registered _ _)); [discriminate|].
      unfold delete_watchlist; cbn. intros H; inversion H; subst; clear H.
      exists m; cbn; repeat split.
      * right; unfold movieIdOf; rewrite Emov; cbn.
        split; [reflexivity|]; split; [reflexivity|]; split; [reflexivity|].
        eexists; split; [|reflexivity]; reflexivity.
      * right; repeat split; auto.
    + unfold update_watched; cbn [watched].
      destruct (text_refused _); [discriminate|].
      destruct (_ && _); [discriminate|].
      intros H; inversion H; subst; clear H.
      exists m; cbn; repeat split.
      * right; unfold movieIdOf; rewrite Emov; cbn.
        split; [reflexivity|]; split; [reflexivity|]; split; [reflexivity|].
        eexists; split; [|reflexivity]; reflexivity.
      * left; repeat split; auto.
        unfold inWatched; eapply filter_cons_existsb; eauto.
  - (* the media record exists *)
    set (m := m_id row).
    destruct (filter (wd_match u m) (watched s)) as [|w ws] eqn:Ew.
    + unfold insert_watched.
      destruct (text_refused _); [discriminate|].
      destruct (u =? 0); [discriminate|].
      destruct (negb (rating_check _)); [discriminate|].
      destruct (existsb _ (watched s)) eqn:Ex; [discriminate|].
      destruct (negb (registered _ _)); [discriminate|].
      unfold delete_watchlist; cbn. intros H; inversion H; subst; clear H.
      exists m; cbn; repeat split.
      * left; unfold movieIdOf; rewrite Emov; repeat split; eauto.
      * right; repeat split; auto.
    + unfold update_watched.
      destruct (text_refused _); [discriminate|].
      destruct (_ && _); [discriminate|].
      intros H; inversion H; subst; clear H.
      exists m; cbn; repeat split.
      * left; unfold movieIdOf; rewrite Emov; repeat split; eauto.
      * left; repeat split; auto.
        unfold inWatched; eapply filter_cons_existsb; eauto.
Qed.







(** *** The invariant of the state machine *)













(** *** markAsWatched and the watchlist *)

(** A [markAsWatched] that inserts the WatchedEntry deletes the
    WatchlistEntry of the pair; one that updates it leaves the watchlist as
    it is. *)
Lemma handleMarkAsWatched_watchlist env input u s r s' :
  handleMarkAsWatched env input u s = (Ok r, s') ->
  exists m, resolved (mw_tmdb_id input) m s s' /\
            inWatched s' u m = true /\
            (inWatched s u m = false -> inWatchlist s' u m = false) /\
            (inWatched s u m = true -> watchlist s' = watchlist s).
Proof.
  intros H; apply handleMarkAsWatched_Ok in H as [m [Hres [Heff _]]].
  exists m; split; [exact Hres|].
  destruct Heff as [[Hwas [Hwl Hwd]] | [Hwas [Hwl Hwd]]].
  - split; [|split; [congruence | auto]].
    unfold inWatched in *; rewrite Hwd.
    now rewrite existsb_wd_update.
  - split; [|split; [|congruence]].
    + unfold inWatched; rewrite Hwd, existsb_snoc.
      apply orb_true_iff; right; apply wd_match_iff; auto.
    + intros _; unfold inWatchlist; rewrite Hwl.
      destruct (existsb _ _) eqn:E; [|reflexivity].
      apply existsb_exists in E as [x [Hin Hx]].
      apply filter_In in Hin as [_ Hneg]; rewrite Hx in Hneg; discriminate.
Qed.

(** C3: the code at the failing input.  In the store reached by marking film
    550 as watched and then adding it to the watchlist, [markAsWatched]
    returns successfully through its update branch and the WatchlistEntry of
    the pair is still there. *)
Theorem rerating_leaves_watchlist_entry :
  exists r s',
    markAsWatched demo_env (mkMark 550 4 None) 1 (run watched_then_added Db.empty)
    = (Reply r, s') /\
    success r = true /\
    message r = "Updated watch record with new rating." /\
    inWatchlist s' 1 1 = true /\ inWatched s' 1 1 = true.
Proof. do 2 eexists; repeat split; reflexivity. Qed.

(** *** removeFromWatchlist *)

Lemma count_zero_existsb {A} (f : A -> bool) (l : list A) :
  (Z.of_nat (List.length (filter f l)) =? 0) = negb (existsb f l).
Proof.
  induction l as [|x l IH]; cbn; [reflexivity|].
  destruct (f x); cbn; [reflexivity | exact IH].
Qed.

(** C8, as amended.  For a valid external identifier, [removeFromWatchlist]
    returns an error, "Movie not found in database", when no MediaRecord
    exists for it, and changes nothing; when the MediaRecord exists it
    returns a non-error result whose [success] tells whether a
    WatchlistEntry was present, and afterwards the pair has none, the other
    rows being untouched. *)
Theorem removeFromWatchlist_outcome (s : Db.t) (u tmdb_id : Z) :
  0 < tmdb_id ->
  match movieIdOf s tmdb_id with
  | None =>
      removeFromWatchlist tmdb_id u s
      = (ErrorReply "Movie not found in database", s)
  | Some m =>
      exists r s',
        removeFromWatchlist tmdb_id u s = (Reply r, s') /\
        success r = inWatchlist s u m /\
        inWatchlist s' u m = false /\
        watchlist s' = filter (fun w => negb (wl_match u m w)) (watchlist s) /\
        movies s' = movies s /\ watched s' = watched s /\
        preferences s' = preferences s
  end.
Proof.
  intros Hpos.
  unfold removeFromWatchlist, withToolHandler, RemoveFromWatchlistSchema, movieIdOf.
  apply Z.ltb_lt in Hpos; rewrite Hpos.
  tx; unfold select_movie.
  destruct (filter _ (movies s)) as [|row rest]; [reflexivity|].
  unfold delete_watchlist; cbn.
  rewrite count_zero_existsb.
  assert (Hgone : existsb (wl_match u (m_id row))
                    (filter (fun w => negb (wl_match u (m_id row) w)) (watchlist s))
                  = false).
  { destruct (existsb _ _) eqn:E; [|reflexivity].
    apply existsb_exists in E as [x [Hin Hx]].
    apply filter_In in Hin as [_ Hneg]; rewrite Hx in Hneg; discriminate. }
  unfold inWatchlist.
  destruct (existsb (wl_match u (m_id row)) (watchlist s)); cbn;
    do 2 eexists; (split; [reflexivity|]); cbn; repeat split; auto.
Qed.

Lemma removeFromWatchlist_outcome_witness :
  0 < 550 /\
  removeFromWatchlist 550 1 Db.empty
  = (ErrorReply "Movie not found in database", Db.empty).
Proof.
  split; [lia|].
  exact (removeFromWatchlist_outcome Db.empty 1 550 ltac:(lia)).
Defined.

(** C8, as stated, fails: removing a film that was never referenced, for
    which no MediaRecord exists, is answered with an error. *)
Lemma remove_unknown_movie_is_error :
  movieIdOf Db.empty 550 = None /\
  isError (fst (removeFromWatchlist 550 1 Db.empty)) = true.
Proof. split; reflexivity. Qed.

(** *** Batches *)

Lemma best_effort_loop_independent env u todo : forall results s,
  best_effort_loop env u todo results s
  = (Ok (results ++ fst (independent_transactions env u todo s)),
     snd (independent_transactions env u todo s)).
Proof.
  induction todo as [|entry rest IH]; intros results s; cbn.
  - unfold ret; now rewrite app_nil_r.
  - destruct (transaction (handleMarkAsWatched env entry u) s) as [[r|e] s1];
      rewrite IH;
      destruct (independent_transactions env u rest s1) as [reports s2];
      cbn; now rewrite <- app_assoc.
Qed.

Lemma independent_transactions_ids env u todo : forall s,
  map br_tmdb_id (fst (independent_transactions env u todo s))
  = map mw_tmdb_id todo.
Proof.
  induction todo as [|entry rest IH]; intros s; cbn; [reflexivity|].
  destruct (transaction (handleMarkAsWatched env entry u) s) as [outcome s1].
  specialize (IH s1).
  destruct (independent_transactions env u rest s1) as [reports s2]; cbn in *.
  rewrite IH; f_equal; now destruct outcome.
Qed.

(** C2, as amended.  For an input that passes validation (at least one
    entry, every rating between 1 and 5, every identifier positive) and asks
    for [transaction = false], the batch call returns and never throws: each
    entry's markAsWatched runs in its own transaction, in the order given;
    the report has one record per entry, in that order, whatever the outcome
    of the entry; and [success] tells whether every record succeeded. *)
Theorem best_effort_batch (env : Env) (input : MarkAsWatchedBatchInput)
    (u : Z) (s : Db.t) :
  transaction_flag input = Some false ->
  entries input <> [] ->
  forallb MarkAsWatchedValid (entries input) = true ->
  exists report s',
    markAsWatchedBatch env input u s = (Ok report, s') /\
    (rp_results report, s') = independent_transactions env u (entries input) s /\
    map br_tmdb_id (rp_results report) = map mw_tmdb_id (entries input) /\
    rp_success report = forallb br_success (rp_results report).
Proof.
  intros Hflag Hne Hvalid.
  unfold markAsWatchedBatch, MarkAsWatchedBatchSchema.
  rewrite Hflag, Hvalid.
  destruct (entries input) as [|e0 rest] eqn:E; [congruence|].
  tx; rewrite best_effort_loop_independent; cbn [app].
  pose proof (independent_transactions_ids env u (e0 :: rest) s) as Hids.
  destruct (independent_transactions env u (e0 :: rest) s) as [reports s2].
  do 2 eexists; split; [reflexivity|]; cbn; auto.
Qed.

Lemma best_effort_batch_witness :
  forallb MarkAsWatchedValid (entries (batch_unreleased_second (Some false))) = true /\
  exists report s',
    markAsWatchedBatch demo_env (batch_unreleased_second (Some false)) 1 Db.empty
    = (Ok report, s') /\
    (rp_results report, s')
    = independent_transactions demo_env 1
        (entries (batch_unreleased_second (Some false))) Db.empty /\
    map br_tmdb_id (rp_results report) = [1; 2; 3] /\
    rp_success report = forallb br_success (rp_results report).
Proof.
  split; [reflexivity|].
  apply (best_effort_batch demo_env (batch_unreleased_second (Some false)) 1 Db.empty);
    [reflexivity | discriminate | reflexivity].
Defined.

(** The example of the specification with a per-item failure the handler
    itself raises: the second film is not released, the first and the third
    are recorded and the second is reported as failed. *)
Example best_effort_unreleased_second :
  exists report s',
    markAsWatchedBatch demo_env (batch_unreleased_second (Some false)) 1 Db.empty
    = (Ok report, s') /\
    map br_success (rp_results report) = [true; false; true] /\
    rp_success report = false /\
    map wd_movie_id (watched s') = [1; 2] /\
    map m_tmdb_id (movies s') = [1; 3].
Proof. do 2 eexists; repeat split; reflexivity. Qed.

(** C2, as stated, fails: with a rating of 0 in the second entry the whole
    best-effort batch is rejected by the validation of its input; the call
    throws, no entry is processed and no WatchedEntry is created. *)
Lemma best_effort_rating_zero_rejected :
  markAsWatchedBatch demo_env (batch_rating_zero (Some false)) 1 Db.empty
  = (Throw ZodError, Db.empty) /\
  inWatched (snd (markAsWatchedBatch demo_env (batch_rating_zero (Some false)) 1
                    Db.empty)) 1 1 = false.
Proof. split; reflexivity. Qed.

Lemma transactional_loop_in_order env u todo : forall batchResults s,
  match process_in_order env u todo s with
  | (Ok _, s1) =>
      exists results,
        transactional_loop env u todo batchResults s = (Ok results, s1) /\
        map br_tmdb_id results
        = map br_tmdb_id batchResults ++ map mw_tmdb_id todo
  | (Throw e, s1) =>
      transactional_loop env u todo batchResults s = (Throw e, s1)
  end.
Proof.
  induction todo as [|entry rest IH]; intros batchResults s; cbn.
  - exists batchResults; unfold ret; now rewrite app_nil_r.
  - tx. destruct (handleMarkAsWatched env entry u s) as [[r|e] s1]; [|reflexivity].
    specialize (IH (batchResults ++ [mkEntryResult (mw_tmdb_id entry) (success r)
                                                   (message r)]) s1).
    destruct (process_in_order env u rest s1) as [[[]|e] s2]; [|exact IH].
    destruct IH as [results [Hloop Hids]]; exists results; split; [exact Hloop|].
    rewrite Hids, map_app, <- app_assoc; reflexivity.
Qed.

(** C4.  In a batch that is transactional (the flag is [true] or left to its
    default), if the input does not pass validation (for instance an entry
    has rating 0) or processing some entry throws, the call throws a single
    failure and every table is as it was before the call: no WatchedEntry of
    the batch and no watchlist deletion of the batch is committed. *)
Theorem transactional_batch_atomic (env : Env) (input : MarkAsWatchedBatchInput)
    (u : Z) (s : Db.t) :
  transaction_flag input <> Some false ->
  entries input = [] \/
  forallb MarkAsWatchedValid (entries input) = false \/
  is_ok (fst (process_in_order env u (entries input) s)) = false ->
  exists e s',
    markAsWatchedBatch env input u s = (Throw e, s') /\ same_rows s s'.
Proof.
  intros Hflag Hfail.
  unfold markAsWatchedBatch, MarkAsWatchedBatchSchema.
  destruct (entries input) as [|e0 rest] eqn:E.
  { exists ZodError, s; split; [reflexivity | apply same_rows_refl]. }
  destruct (forallb MarkAsWatchedValid (e0 :: rest)) eqn:Hvalid.
  2:{ exists ZodError, s; split; [reflexivity | apply same_rows_refl]. }
  destruct Hfail as [Hnil | [Hinv | Hthrow]]; [discriminate | discriminate |].
  assert (Hdef : match transaction_flag input with Some b => b | None => true end
                 = true).
  { destruct (transaction_flag input) as [[|]|]; congruence. }
  rewrite Hdef; tx; unfold transaction.
  pose proof (transactional_loop_in_order env u (e0 :: rest) [] s) as Hloop.
  destruct (process_in_order env u (e0 :: rest) s) as [[[]|e] s1];
    [discriminate|].
  rewrite Hloop.
  exists e, (rollback s s1); split; [reflexivity | apply same_rows_rollback].
Qed.

Lemma transactional_batch_atomic_witness :
  (entries (batch_rating_zero None) = [] \/
   forallb MarkAsWatchedValid (entries (batch_rating_zero None)) = false \/
   is_ok (fst (process_in_order demo_env 1 (entries (batch_rating_zero None))
                 Db.empty)) = false) /\
  exists e s',
    markAsWatchedBatch demo_env (batch_rating_zero None) 1 Db.empty = (Throw e, s') /\
    same_rows Db.empty s'.
Proof.
  assert (H : entries (batch_rating_zero None) = [] \/
              forallb MarkAsWatchedValid (entries (batch_rating_zero None)) = false \/
              is_ok (fst (process_in_order demo_env 1
                            (entries (batch_rating_zero None)) Db.empty)) = false)
    by (right; left; reflexivity).
  split; [exact H|].
  apply (transactional_batch_atomic demo_env (batch_rating_zero None) 1 Db.empty);
    [discriminate | exact H].
Defined.

(** A failure inside the shared transaction: the first entry is processed,
    the second is not released, and nothing of the batch remains. *)
Example transactional_unreleased_second :
  exists e s',
    markAsWatchedBatch demo_env (batch_unreleased_second (Some true)) 1 Db.empty
    = (Throw e, s') /\
    watched s' = [] /\ movies s' = [] /\ watchlist s' = [].
Proof. do 2 eexists; repeat split; reflexivity. Qed.

(** When nothing throws, the transactional batch commits every entry and
    reports one successful record per entry. *)
Lemma transactional_batch_commits env input u s s1 :
  transaction_flag input <> Some false ->
  entries input <> [] ->
  forallb MarkAsWatchedValid (entries input) = true ->
  process_in_order env u (entries input) s = (Ok tt, s1) ->
  exists report,
    markAsWatchedBatch env input u s = (Ok report, s1) /\
    rp_success report = true /\
    map br_tmdb_id (rp_results report) = map mw_tmdb_id (entries input).
Proof.
  intros Hflag Hne Hvalid Hrun.
  unfold markAsWatchedBatch, MarkAsWatchedBatchSchema.
  rewrite Hvalid.
  destruct (entries input) as [|e0 rest] eqn:E; [congruence|].
  assert (Hdef : match transaction_flag input with Some b => b | None => true end
                 = true).
  { destruct (transaction_flag input) as [[|]|]; congruence. }
  rewrite Hdef; tx; unfold transaction.
  pose proof (transactional_loop_in_order env u (e0 :: rest) [] s) as Hloop.
  rewrite Hrun in Hloop; destruct Hloop as [results [Hloop Hids]].
  rewrite Hloop; eexists; split; [reflexivity|]; cbn; auto.
Qed.

End WatchFacts.

(* ------------------------------------------------------------------ *)
(** ** The preference merge engine and its cache *)

Module PrefsFacts.
Import Db Sql Prefs PrefsSpec MoreSpec.

Ltac tx := unfold bind, ret, throw, Db.query in *.

Lemma p_match_iff u k r :
  p_match u k r = true <-> p_user_id r = u /\ p_key r = k.
Proof. unfold p_match; rewrite andb_true_iff, Z.eqb_eq, String.eqb_eq; tauto. Qed.

Lemma p_match_new u k v t : p_match u k (mkPref u k v t) = true.
Proof. now apply p_match_iff. Qed.

(** *** Computations that may throw *)

Lemma mapM_Ok {A B} (f : A -> res B) (g : A -> B) (l : list A) :
  (forall x, In x l -> f x = Ok (g x)) -> mapM f l = Ok (map g l).
Proof.
  induction l as [|x l IH]; intros H; cbn; [reflexivity|].
  rewrite (H x) by now left.
  rewrite IH by (intros y Hy; apply H; now right); reflexivity.
Qed.



Lemma normalizePersonNames_strings names :
  normalizePersonNames (map JStr names) = Ok names.
Proof.
  unfold normalizePersonNames.
  rewrite (mapM_Ok _ (fun v => match v with JStr s => s | _ => EmptyString end)).
  - rewrite map_map; cbn; now rewrite map_id.
  - intros x Hx; apply in_map_iff in Hx as [n [<- _]]; reflexivity.
Qed.

Lemma js_String_strings names : mapM js_String (map JStr names) = Ok names.
Proof.
  rewrite (mapM_Ok _ (fun v => match v with JStr s => s | _ => EmptyString end)).
  - rewrite map_map; cbn; now rewrite map_id.
  - intros x Hx; apply in_map_iff in Hx as [n [<- _]]; reflexivity.
Qed.

Lemma filter_new_strings existingSet names :
  filter_new existingSet (map JStr names)
  = Ok (map JStr (filter (fun n => negb (includes existingSet n)) names)).
Proof.
  induction names as [|n rest IH]; cbn; [reflexivity|].
  rewrite IH; destruct (includes existingSet n); reflexivity.
Qed.

(** *** The merge *)

Lemma merge_loop existingNames newNames : forall merged,
  fold_left
    (fun merged newName =>
       if includes existingNames newName then merged else merged ++ [newName])
    newNames merged
  = merged ++ filter (fun x => negb (includes existingNames x)) newNames.
Proof.
  induction newNames as [|n rest IH]; intros merged; cbn.
  - now rewrite app_nil_r.
  - rewrite IH; destruct (includes existingNames n); cbn; [reflexivity|].
    now rewrite <- app_assoc.
Qed.

Lemma merge_names_append_absent existingNames newNames :
  merge_names existingNames newNames
  = append_absent (fun n => n) existingNames newNames.
Proof.
  unfold merge_names, append_absent; rewrite map_id; apply merge_loop.
Qed.

Lemma includes_In l x : includes l x = true <-> In x l.
Proof.
  unfold includes; rewrite existsb_exists; split.
  - intros [y [Hin Heq]]; apply String.eqb_eq in Heq; now subst.
  - intros Hin; exists x; split; [exact Hin | apply String.eqb_refl].
Qed.

(** *** What the column holds for a list of names *)

Lemma holds_nul_names names :
  holds_nul (JArr (map JStr names)) = negb (forallb (fun n => negb (has_nul n)) names).
Proof.
  cbn; induction names as [|n rest IH]; cbn; [reflexivity|].
  rewrite IH; destruct (has_nul n); reflexivity.
Qed.

Lemma jsonb_names names : jsonb (JArr (map JStr names)) = JArr (map JStr names).
Proof. cbn; rewrite map_map; reflexivity. Qed.

Lemma nul_free_app l l' : nul_free l -> nul_free l' -> nul_free (l ++ l').
Proof. unfold nul_free; intros H H'; rewrite forallb_app, H, H'; reflexivity. Qed.

Lemma nul_free_filter (f : string -> bool) l : nul_free l -> nul_free (filter f l).
Proof.
  unfold nul_free; rewrite !forallb_forall; intros H x Hx.
  apply filter_In in Hx as [Hx _]; auto.
Qed.

Lemma nul_free_append_absent existing incoming :
  nul_free existing -> nul_free incoming ->
  nul_free (append_absent (fun n => n) existing incoming).
Proof.
  intros He Hi; unfold append_absent.
  apply nul_free_app; [exact He | now apply nul_free_filter].
Qed.

(** *** The store after an upsert *)

Lemma frame_refl s : frame s s.
Proof. now repeat split. Qed.

Lemma frame_trans s s1 s2 : frame s s1 -> frame s1 s2 -> frame s s2.
Proof. unfold frame; intuition congruence. Qed.

Lemma filter_map_replace u k (row : PrefRow) l :
  p_match u k row = true ->
  filter (p_match u k) (map (fun r => if p_match u k r then row else r) l)
  = map (fun _ => row) (filter (p_match u k) l).
Proof.
  intros Hrow; induction l as [|x l IH]; cbn; [reflexivity|].
  destruct (p_match u k x) eqn:E; [rewrite Hrow | rewrite E]; cbn; now rewrite IH.
Qed.




(** What an upsert does: it is refused for a key or a value with the
    character U+0000 and for a new row of a user without a row in [users];
    otherwise the pair holds the value as the column keeps it. *)
Lemma upsert_pref_stored us at_ u k v s :
  has_nul k = false -> holds_nul v = false ->
  registered us u = true \/ existsb (p_match u k) (preferences s) = true ->
  exists s',
    upsert_pref us at_ u k v s = (Ok tt, s') /\ stored s' u k = Some (jsonb v).
Proof.
  intros Hk Hv Hrow; unfold upsert_pref, jsonb_in; rewrite Hk, Hv.
  destruct (existsb (p_match u k) (preferences s)) eqn:E.
  - eexists; split; [reflexivity|].
    unfold stored; cbn.
    rewrite filter_map_replace by apply p_match_new.
    destruct (filter (p_match u k) (preferences s)) eqn:F; [|reflexivity].
    apply filter_nil_existsb in F; congruence.
  - destruct Hrow as [Hreg | ?]; [|discriminate].
    rewrite Hreg; cbn [negb].
    eexists; split; [reflexivity|].
    unfold stored; cbn.
    rewrite filter_app, (existsb_false_filter _ _ E); cbn.
    now rewrite p_match_new.
Qed.


Lemma upsert_pref_frame us at_ u k v s :
  frame s (snd (upsert_pref us at_ u k v s)).
Proof.
  unfold upsert_pref.
  destruct (has_nul k); [apply frame_refl|].
  destruct (jsonb_in v); [|apply frame_refl].
  destruct (existsb _ _); [now repeat split|].
  destruct (negb _); [apply frame_refl | now repeat split].
Qed.

Lemma isArrayPreference_cases key :
  isArrayPreference key = true ->
  key = "favorite_actors" \/ key = "favorite_directors" \/ key = "favorite_genres".
Proof.
  unfold isArrayPreference; intros H.
  apply orb_true_iff in H as [H | H]; [apply orb_true_iff in H as [H | H]|];
    apply String.eqb_eq in H; auto.
Qed.

Lemma isArrayPreference_nonempty key :
  isArrayPreference key = true -> String.eqb key EmptyString = false.
Proof. destruct key; [discriminate | reflexivity]. Qed.

Lemma isArrayPreference_text key :
  isArrayPreference key = true -> has_nul key = false.
Proof.
  intros H; destruct (isArrayPreference_cases key H) as [-> | [-> | ->]];
    reflexivity.
Qed.

(** *** setPreferences and the store *)

Lemma set_one_frame env u pref s : frame s (snd (set_one env u pref s)).
Proof.
  destruct pref as [key value]; unfold set_one, select_pref; tx.
  destruct (isArrayPreference key && isArray value).
  - destruct (has_nul key); [apply frame_refl|].
    destruct (normalizedValueOf _ _ _); [apply upsert_pref_frame | apply frame_refl].
  - destruct (normalizedValueOf _ _ _); [apply upsert_pref_frame | apply frame_refl].
Qed.

Lemma set_loop_frame env u prefs : forall s,
  frame s (snd (set_loop env u prefs s)).
Proof.
  induction prefs as [|pref rest IH]; intros s; cbn; [apply frame_refl|].
  tx; pose proof (set_one_frame env u pref s) as H1.
  destruct (set_one env u pref s) as [[[]|e] s1]; cbn in *; [|exact H1].
  eapply frame_trans; [exact H1 | apply IH].
Qed.

Lemma getPreferences_db env u db cache :
  fst (snd (getPreferences env u (db, cache))) = db.
Proof.
  unfold getPreferences.
  destruct (Cache.getCached _ _ _); [reflexivity|].
  destruct (loadPreferences _ _); reflexivity.
Qed.

(** A valid [setPreferences] whose loop returns replies; the store is what
    the loop left, and the response it carries is the one of the
    [getPreferences] made after the cache entry was deleted. *)
Lemma setPreferences_returns env input u db cache db1 :
  u <> 0 -> SetPreferencesSchema input = Ok input ->
  set_loop env u input db = (Ok tt, db1) ->
  exists r cache',
    setPreferences env input u (db, cache) = (Reply r, (db1, cache')) /\
    getPreferences env u (db1, Cache.deleteCached (cacheKey u) cache)
    = (pr_structuredContent r, (db1, cache')).
Proof.
  intros Hu Hvalid Hloop.
  unfold setPreferences, withToolHandler, handleSetPreferences.
  rewrite Hvalid.
  apply Z.eqb_neq in Hu; rewrite Hu.
  unfold transaction; rewrite Hloop.
  pose proof (getPreferences_db env u db1
                (Cache.deleteCached (cacheKey u) cache)) as Hdb.
  destruct (getPreferences env u (db1, Cache.deleteCached (cacheKey u) cache))
    as [resp [db2 cache2]]; cbn in Hdb; subst db2.
  do 2 eexists; split; reflexivity.
Qed.

(** A valid [setPreferences] whose loop throws answers with the error and
    leaves the store and the cache as they were. *)
Lemma setPreferences_throws env input u db cache e db1 :
  u <> 0 -> SetPreferencesSchema input = Ok input ->
  set_loop env u input db = (Throw e, db1) ->
  setPreferences env input u (db, cache) = (ErrorReply (errorMessage e), (db, cache)).
Proof.
  intros Hu Hvalid Hloop.
  unfold setPreferences, withToolHandler, handleSetPreferences.
  rewrite Hvalid.
  apply Z.eqb_neq in Hu; rewrite Hu.
  unfold transaction; rewrite Hloop.
  pose proof (set_loop_frame env u input db) as [_ [Hseq _]].
  rewrite Hloop in Hseq; cbn in Hseq.
  now rewrite (rollback_same_seq _ _ Hseq).
Qed.

Lemma single_valid key (value : Json) :
  String.eqb key EmptyString = false ->
  SetPreferencesSchema [(key, value)] = Ok [(key, value)].
Proof. intros H; unfold SetPreferencesSchema; cbn; now rewrite H. Qed.

Lemma set_one_eval env u key value s :
  has_nul key = false ->
  set_one env u (key, value) s
  = match normalizedValueOf key value (rows_read u key value s) with
    | Throw e => (Throw e, s)
    | Ok normalizedValue => upsert_pref (users env) (now env) u key normalizedValue s
    end.
Proof.
  intros Hk; unfold set_one, rows_read, select_pref; tx; rewrite Hk.
  destruct (isArrayPreference key && isArray value);
    destruct (normalizedValueOf _ _ _); reflexivity.
Qed.

(** The value a single-pair [setPreferences] leaves under its key. *)
Lemma setPreferences_single env u key value held db cache :
  is_registered env u ->
  String.eqb key EmptyString = false -> has_nul key = false ->
  normalizedValueOf key value (rows_read u key value db) = Ok held ->
  holds_nul held = false ->
  exists r w',
    setPreferences env [(key, value)] u (db, cache) = (Reply r, w') /\
    stored (fst w') u key = Some (jsonb held).
Proof.
  intros [Hu Hreg] Hkey Hk Hnorm Hheld.
  assert (Hr : registered (users env) u = true).
  { apply existsb_exists; exists u; split; [exact Hreg | apply Z.eqb_refl]. }
  destruct (upsert_pref_stored (users env) (now env) u key held db Hk Hheld
              (or_introl Hr)) as [db1 [Hup Hst]].
  assert (Hloop : set_loop env u [(key, value)] db = (Ok tt, db1)).
  { cbn [set_loop]; tx; rewrite (set_one_eval _ _ _ _ _ Hk), Hnorm, Hup.
    reflexivity. }
  destruct (setPreferences_returns env _ u db cache db1 Hu
              (single_valid key value Hkey) Hloop) as [r [cache' [H _]]].
  exists r, (db1, cache'); split; [exact H | exact Hst].
Qed.

(** A single-pair [setPreferences] whose value the column refuses. *)
Lemma setPreferences_single_refused env u key value held db cache :
  u <> 0 -> String.eqb key EmptyString = false -> has_nul key = false ->
  normalizedValueOf key value (rows_read u key value db) = Ok held ->
  holds_nul held = true ->
  setPreferences env [(key, value)] u (db, cache)
  = (ErrorReply "unsupported Unicode escape sequence", (db, cache)).
Proof.
  intros Hu Hkey Hk Hnorm Hheld.
  assert (Hloop : set_loop env u [(key, value)] db = (Throw unsupported_escape, db)).
  { cbn [set_loop]; tx; rewrite (set_one_eval _ _ _ _ _ Hk), Hnorm.
    unfold upsert_pref, jsonb_in; now rewrite Hk, Hheld. }
  exact (setPreferences_throws env _ u db cache _ _ Hu
           (single_valid key value Hkey) Hloop).
Qed.

(** *** Merging into a list-valued key *)

(** What a single-pair [setPreferences] with an array of names leaves under
    a list-valued key that holds a list of names, or nothing. *)
Lemma set_names_stored env u key existing incoming db cache :
  is_registered env u -> isArrayPreference key = true ->
  existing_list db u key = map JStr existing ->
  nul_free existing -> nul_free incoming ->
  exists r w',
    setPreferences env [(key, JArr (map JStr incoming))] u (db, cache)
    = (Reply r, w') /\
    stored (fst w') u key
    = Some (JArr (map JStr (append_absent (fun name => name) existing incoming))).
Proof.
  intros Hreg Hkey Hex He Hi.
  set (merged := append_absent (fun name => name) existing incoming).
  assert (Hnorm : normalizedValueOf key (JArr (map JStr incoming))
                    (rows_read u key (JArr (map JStr incoming)) db)
                  = Ok (JArr (map JStr merged))).
  { unfold normalizedValueOf, rows_read; rewrite Hkey; cbn [isArray andb].
    fold (existing_list db u key); rewrite Hex.
    destruct (isPersonKey key).
    - rewrite !normalizePersonNames_strings.
      now rewrite merge_names_append_absent.
    - rewrite js_String_strings, filter_new_strings.
      unfold merged, append_absent; now rewrite map_app, map_id. }
  destruct (setPreferences_single env u key _ _ db cache Hreg
              (isArrayPreference_nonempty key Hkey)
              (isArrayPreference_text key Hkey) Hnorm) as [r [w' [Hset Hst]]].
  { rewrite holds_nul_names; unfold merged.
    now rewrite (nul_free_append_absent _ _ He Hi). }
  exists r, w'; split; [exact Hset|].
  now rewrite Hst, jsonb_names.
Qed.

(** The example of the specification: from no favorite genres, setting
    ["Action", "Comedy"] and then ["Comedy", "Drama"] yields
    ["Action", "Comedy", "Drama"]. *)
Example merge_action_comedy_drama :
  stored (fst (run [(quiet_env, SetPreferences 1 [genres ["Action"; "Comedy"]]);
                    (quiet_env, SetPreferences 1 [genres ["Comedy"; "Drama"]])]
                 fresh_world)) 1 "favorite_genres"
  = Some (JArr [JStr "Action"; JStr "Comedy"; JStr "Drama"]).
Proof. reflexivity. Qed.

(** C5, on the input where the code leaves it.  setPreferences(
    favorite_genres, ["Action", "Action"]) for a user without favorite
    genres stores ["Action", "Action"]: the second "Action" is appended
    although its canonical string is present by then, where the union of
    the specification, which appends the incoming elements not seen so far,
    is ["Action"].  The people keys do the same with two representations of
    one name. *)
Theorem merge_keeps_repeated_incoming :
  stored (fst (run [(quiet_env, SetPreferences 1 [genres ["Action"; "Action"]])]
                 fresh_world)) 1 "favorite_genres"
  = Some (JArr [JStr "Action"; JStr "Action"]) /\
  stored (fst (run [(quiet_env,
                     SetPreferences 1
                       [("favorite_actors",
                         JArr [JStr "Tom Hanks"; JObj [("name", JStr "Tom Hanks")]])])]
                 fresh_world)) 1 "favorite_actors"
  = Some (JArr [JStr "Tom Hanks"; JStr "Tom Hanks"]) /\
  map JStr (append_unseen (fun name => name) [] ["Action"; "Action"])
  = [JStr "Action"].
Proof. repeat split; reflexivity. Qed.

(** *** A value that is not an array, sent for a list-valued key *)

Lemma jsonb_scalar value :
  isArray value = false -> (forall fields, value <> JObj fields) ->
  jsonb value = value.
Proof.
  intros Harr Hobj; destruct value; try reflexivity; [discriminate|].
  now destruct (Hobj fields).
Qed.

(** C10, as amended.  For a list-valued key and an incoming value that is
    not an array, the merge path is not taken: the value to store is the
    incoming value whatever rows exist.  For a user who has a row in users:
    when the value holds no character U+0000 the call succeeds and the row
    of the key then holds the incoming value in place of what was stored
    before, as the column keeps it (an object with its keys in the order of
    the column, anything else as it was sent); when it holds one, the call
    is answered with an error and neither the store nor the cache
    changes. *)
Theorem non_array_write_replaces (env : Env) (u : Z) (key : string)
    (value : Json) (db : Db.t) (cache : Cache.t PreferencesContent) :
  is_registered env u -> isArrayPreference key = true -> isArray value = false ->
  (forall rows, normalizedValueOf key value rows = Ok value) /\
  (holds_nul value = false ->
   exists r w',
     setPreferences env [(key, value)] u (db, cache) = (Reply r, w') /\
     stored (fst w') u key = Some (jsonb value) /\
     ((forall fields, value <> JObj fields) -> jsonb value = value)) /\
  (holds_nul value = true ->
   setPreferences env [(key, value)] u (db, cache)
   = (ErrorReply "unsupported Unicode escape sequence", (db, cache))).
Proof.
  intros Hreg Hkey Hval.
  assert (Hnorm : forall rows, normalizedValueOf key value rows = Ok value)
    by (intros rows; destruct value; try reflexivity; discriminate).
  split; [exact Hnorm|]; split; intros Hnul.
  - destruct (setPreferences_single env u key value value db cache Hreg
                (isArrayPreference_nonempty key Hkey)
                (isArrayPreference_text key Hkey) (Hnorm _) Hnul)
      as [r [w' [Hset Hst]]].
    exists r, w'; split; [exact Hset|]; split; [exact Hst|].
    now apply jsonb_scalar.
  - exact (setPreferences_single_refused env u key value value db cache
             (proj1 Hreg) (isArrayPreference_nonempty key Hkey)
             (isArrayPreference_text key Hkey) (Hnorm _) Hnul).
Qed.

Lemma non_array_write_replaces_witness :
  stored (fst action_comedy_world) 1 "favorite_genres"
  = Some (JArr [JStr "Action"; JStr "Comedy"]) /\
  exists r w',
    setPreferences quiet_env [("favorite_genres", JStr "Horror")] 1
      (fst action_comedy_world, snd action_comedy_world) = (Reply r, w') /\
    stored (fst w') 1 "favorite_genres" = Some (JStr "Horror").
Proof.
  split; [reflexivity|].
  assert (Hreg : is_registered quiet_env 1) by (split; [discriminate | now left]).
  destruct (non_array_write_replaces quiet_env 1 "favorite_genres" (JStr "Horror")
              (fst action_comedy_world) (snd action_comedy_world)
              Hreg eq_refl eq_refl) as [_ [Hok _]].
  destruct (Hok eq_refl) as [r [w' [Hset [Hst _]]]].
  exists r, w'; split; [exact Hset | exact Hst].
Defined.

(** C10, as stated, fails: a string that holds the character U+0000, sent
    for favorite_genres, is not stored; the call is answered with an error
    and the list stored before stays. *)
Lemma nul_value_is_not_stored :
  isArrayPreference "favorite_genres" = true /\
  isArray (JStr nul_name) = false /\
  setPreferences quiet_env [("favorite_genres", JStr nul_name)] 1 action_comedy_world
  = (ErrorReply "unsupported Unicode escape sequence", action_comedy_world) /\
  stored (fst action_comedy_world) 1 "favorite_genres"
  = Some (JArr [JStr "Action"; JStr "Comedy"]).
Proof. repeat split; reflexivity. Qed.

(** *** Person names *)

Lemma normalizePersonName_shaped X repr :
  person_shaped X repr -> normalizePersonName repr = Ok X.
Proof. intros []; reflexivity. Qed.

Lemma filter_negb_none {A} (f : A -> bool) (l : list A) :
  filter f (filter (fun x => negb (f x)) l) = [].
Proof.
  induction l as [|x l IH]; cbn; [reflexivity|].
  destruct (f x) eqn:E; cbn; [exact IH | now rewrite E].
Qed.

Lemma remove_item_frame env input u s :
  frame s (snd (remove_item env input u s)).
Proof.
  unfold remove_item, select_pref; tx.
  destruct (has_nul (rm_key input)); [apply frame_refl|].
  destruct (filter _ (preferences s)) as [|row rest]; [apply frame_refl|].
  destruct (p_value row) as [| | | |currentValue|]; try apply frame_refl.
  assert (Hfinish : forall (updatedValue : list Json) (m m' : string),
    frame s
      (snd (match updatedValue with
            | [] => delete_pref u (rm_key input) ;;; ret m
            | _ :: _ =>
                update_pref (now env) u (rm_key input) (JArr updatedValue) ;;; ret m'
            end s))).
  { intros [|x kept] m m'; tx; cbn; now repeat split. }
  destruct currentValue as [|first others];
    [apply (Hfinish [] _ EmptyString)|].
  destruct (name_in first).
  - destruct (filter_by_name (rm_item input) (first :: others)) as [kept|e];
      [apply Hfinish | apply frame_refl].
  - apply Hfinish.
Qed.

(** A valid [removePreferenceItem] whose transaction returns replies, and
    leaves in the store what the transaction wrote. *)
Lemma removePreferenceItem_store env input u db cache msg db1 :
  u <> 0 -> String.eqb (rm_key input) EmptyString = false ->
  remove_item env input u db = (Ok msg, db1) ->
  exists r cache',
    removePreferenceItem env input u (db, cache) = (Reply r, (db1, cache')) /\
    pr_message r = msg.
Proof.
  intros Hu Hkey Hrm.
  unfold removePreferenceItem, withToolHandler, RemovePreferenceItemSchema,
    handleRemovePreferenceItem.
  rewrite Hkey; apply Z.eqb_neq in Hu; rewrite Hu.
  unfold transaction; rewrite Hrm.
  pose proof (getPreferences_db env u db1
                (Cache.deleteCached (cacheKey u) cache)) as Hdb.
  destruct (getPreferences env u (db1, Cache.deleteCached (cacheKey u) cache))
    as [resp [db2 cache2]]; cbn in Hdb; subst db2.
  do 2 eexists; split; reflexivity.
Qed.

(** A valid [removePreferenceItem] whose transaction throws answers with
    the error and leaves the store and the cache as they were. *)
Lemma removePreferenceItem_throws env input u db cache e db1 :
  u <> 0 -> String.eqb (rm_key input) EmptyString = false ->
  remove_item env input u db = (Throw e, db1) ->
  removePreferenceItem env input u (db, cache)
  = (ErrorReply (errorMessage e), (db, cache)).
Proof.
  intros Hu Hkey Hrm.
  unfold removePreferenceItem, withToolHandler, RemovePreferenceItemSchema,
    handleRemovePreferenceItem.
  rewrite Hkey; apply Z.eqb_neq in Hu; rewrite Hu.
  unfold transaction; rewrite Hrm.
  pose proof (remove_item_frame env input u db) as [_ [Hseq _]].
  rewrite Hrm in Hseq; cbn in Hseq.
  now rewrite (rollback_same_seq _ _ Hseq).
Qed.

(** What the transaction of [removePreferenceItem] does, given the rows of
    the pair. *)
Lemma remove_item_eval env input u db :
  has_nul (rm_key input) = false ->
  remove_item env input u db
  = match filter (p_match u (rm_key input)) (preferences db) with
    | [] => (Throw (Error ("Preference " +++ dq +++ rm_key input +++ dq
                             +++ " not found")), db)
    | row :: _ =>
        match p_value row with
        | JArr currentValue =>
            match kept_after_remove (rm_item input) currentValue with
            | Throw e => (Throw e, db)
            | Ok [] =>
                (Ok ("Removed " +++ dq +++ item_text (rm_item input) +++ dq
                       +++ " from " +++ rm_key input
                       +++ ". Preference deleted because it's now empty."),
                 snd (delete_pref u (rm_key input) db))
            | Ok (x :: kept) =>
                (Ok ("Removed " +++ dq +++ item_text (rm_item input) +++ dq
                       +++ " from " +++ rm_key input),
                 snd (update_pref (now env) u (rm_key input) (JArr (x :: kept)) db))
            end
        | _ => (Throw (Error ("Preference " +++ dq +++ rm_key input +++ dq
                                +++ " is not an array")), db)
        end
    end.
Proof.
  intros Hk; unfold remove_item, select_pref, kept_after_remove; tx; rewrite Hk.
  destruct (filter _ (preferences db)) as [|row rest]; [reflexivity|].
  destruct (p_value row) as [| | | |currentValue|]; try reflexivity.
  destruct currentValue as [|first others]; [reflexivity|].
  destruct (name_in first).
  - destruct (filter_by_name _ _) as [[|x kept]|e]; reflexivity.
  - destruct (filter_by_value _ _) as [|x kept]; reflexivity.
Qed.

Lemma stored_rows s u k v :
  stored s u k = Some v ->
  exists row rest,
    filter (p_match u k) (preferences s) = row :: rest /\ p_value row = v.
Proof.
  unfold stored; destruct (filter _ _) as [|row rest]; [discriminate|].
  intros H; inversion H; eauto.
Qed.

Lemma stored_update at_ u k v s old :
  stored s u k = Some old ->
  stored (snd (update_pref at_ u k v s)) u k = Some v.
Proof.
  unfold stored, update_pref; cbn; intros Hold.
  rewrite filter_map_replace by apply p_match_new.
  destruct (filter (p_match u k) (preferences s)); [discriminate | reflexivity].
Qed.

Lemma stored_delete u k s : stored (snd (delete_pref u k s)) u k = None.
Proof. unfold stored, delete_pref; cbn; now rewrite filter_negb_none. Qed.

(** A removal that keeps [kept] of the stored array: the call succeeds and
    the pair holds [kept], or has no row when nothing is kept. *)
Lemma removePreferenceItem_keeps env u key item db cache currentValue kept :
  u <> 0 -> String.eqb key EmptyString = false -> has_nul key = false ->
  stored db u key = Some (JArr currentValue) ->
  kept_after_remove item currentValue = Ok kept ->
  exists r w',
    removePreferenceItem env (mkRemove key item) u (db, cache) = (Reply r, w') /\
    pr_message r
    = match kept with
      | [] => "Removed " +++ dq +++ item_text item +++ dq +++ " from " +++ key
                +++ ". Preference deleted because it's now empty."
      | _ :: _ => "Removed " +++ dq +++ item_text item +++ dq +++ " from " +++ key
      end /\
    stored (fst w') u key
    = match kept with
      | [] => None
      | _ :: _ => Some (JArr kept)
      end.
Proof.
  intros Hu Hkey Hk Hst Hkept.
  destruct (stored_rows _ _ _ _ Hst) as [row [rest [Hrows Hval]]].
  pose proof (remove_item_eval env (mkRemove key item) u db Hk) as Hrm.
  cbn [rm_key rm_item] in Hrm; rewrite Hrows, Hval, Hkept in Hrm.
  destruct kept as [|x kept].
  - destruct (removePreferenceItem_store env (mkRemove key item) u db cache _ _
                Hu Hkey Hrm) as [r [cache' [H Hmsg]]].
    exists r; eexists; split; [exact H|]; split; [exact Hmsg|].
    apply stored_delete.
  - destruct (removePreferenceItem_store env (mkRemove key item) u db cache _ _
                Hu Hkey Hrm) as [r [cache' [H Hmsg]]].
    exists r; eexists; split; [exact H|]; split; [exact Hmsg|].
    cbn [fst]; exact (stored_update _ _ _ _ _ _ Hst).
Qed.

Lemma filter_by_value_names X names :
  filter_by_value (ItemStr X) (map JStr names)
  = map JStr (filter (fun n => negb (String.eqb n X)) names).
Proof.
  unfold filter_by_value; induction names as [|n rest IH]; cbn; [reflexivity|].
  destruct (String.eqb n X); cbn; now rewrite IH.
Qed.

(** Removing a name from a stored list of names: the names equal to it go,
    and the row goes with them when none is left. *)
Lemma remove_from_names env u key X names db cache :
  u <> 0 -> String.eqb key EmptyString = false -> has_nul key = false ->
  stored db u key = Some (JArr (map JStr names)) ->
  exists r w',
    removePreferenceItem env (mkRemove key (ItemStr X)) u (db, cache)
    = (Reply r, w') /\
    stored (fst w') u key
    = match filter (fun n => negb (String.eqb n X)) names with
      | [] => None
      | kept => Some (JArr (map JStr kept))
      end.
Proof.
  intros Hu Hkey Hk Hst.
  assert (Hkept : kept_after_remove (ItemStr X) (map JStr names)
                  = Ok (map JStr (filter (fun n => negb (String.eqb n X)) names))).
  { unfold kept_after_remove; rewrite filter_by_value_names.
    destruct names; reflexivity. }
  destruct (removePreferenceItem_keeps env u key (ItemStr X) db cache _ _
              Hu Hkey Hk Hst Hkept) as [r [w' [Hcall [_ Hstored]]]].
  exists r, w'; split; [exact Hcall|].
  rewrite Hstored; now destruct (filter _ names).
Qed.

(** C6, as amended.  For a user who has a row in users, a name X without
    the character U+0000 and any of its three representations (the bare
    string X, {name: X}, {name: {name: X}}), when favorite_actors holds a
    list of plain names or nothing: setPreferences(favorite_actors, [repr])
    stores a list of plain names that contains X, and
    removePreferenceItem(favorite_actors, X) then succeeds and removes it: no
    entry X is left, and when the list has become empty (as it does when the
    user had no favorite actors before) the favorite_actors row is deleted
    entirely, never left with an empty list. *)
Theorem person_name_set_then_remove (env env' : Env) (u : Z) (X : string)
    (repr : Json) (names : list string) (db : Db.t)
    (cache : Cache.t PreferencesContent) :
  is_registered env u -> person_shaped X repr -> has_nul X = false ->
  existing_list db u "favorite_actors" = map JStr names -> nul_free names ->
  exists r1 w1 r2 w2,
    setPreferences env [("favorite_actors", JArr [repr])] u (db, cache)
    = (Reply r1, w1) /\
    (exists held, stored (fst w1) u "favorite_actors" = Some (JArr (map JStr held))
                  /\ In X held) /\
    removePreferenceItem env' (mkRemove "favorite_actors" (ItemStr X)) u w1
    = (Reply r2, w2) /\
    (forall l, stored (fst w2) u "favorite_actors" = Some (JArr l) ->
               ~ In (JStr X) l /\ l <> []) /\
    (names = [] -> stored (fst w2) u "favorite_actors" = None).
Proof.
  intros Hreg Hshape HX Hex Hnames.
  set (held := append_absent (fun name => name) names [X]).
  assert (Hnorm : normalizedValueOf "favorite_actors" (JArr [repr])
                    (rows_read u "favorite_actors" (JArr [repr]) db)
                  = Ok (JArr (map JStr held))).
  { unfold normalizedValueOf, rows_read; cbn [isArrayPreference isPersonKey
      String.eqb Ascii.eqb Bool.eqb orb andb isArray].
    fold (existing_list db u "favorite_actors"); rewrite Hex.
    rewrite normalizePersonNames_strings.
    unfold normalizePersonNames; cbn [mapM].
    rewrite (normalizePersonName_shaped X repr Hshape).
    now rewrite merge_names_append_absent. }
  assert (Hheld : nul_free held).
  { apply nul_free_append_absent; [exact Hnames|].
    unfold nul_free; cbn; now rewrite HX. }
  destruct (setPreferences_single env u "favorite_actors" _ _ db cache Hreg
              eq_refl eq_refl Hnorm) as [r1 [[db1 cache1] [Hset Hst]]].
  { now rewrite holds_nul_names, Hheld. }
  rewrite jsonb_names in Hst; cbn [fst] in Hst.
  destruct (remove_from_names env' u "favorite_actors" X held db1 cache1
              (proj1 Hreg) eq_refl eq_refl Hst) as [r2 [w2 [Hrm Hafter]]].
  exists r1, (db1, cache1), r2, w2.
  split; [exact Hset|]; split; [|split; [exact Hrm|split]].
  - exists held; split; [exact Hst|].
    unfold held, append_absent; rewrite map_id; cbn.
    destruct (includes names X) eqn:E; cbn.
    + rewrite app_nil_r; now apply includes_In.
    + apply in_or_app; right; now left.
  - intros l Hl; rewrite Hafter in Hl.
    destruct (filter (fun n => negb (String.eqb n X)) held) as [|n rest] eqn:F;
      [discriminate|].
    inversion Hl; subst l; split; [|discriminate].
    change (~ In (JStr X) (map JStr (n :: rest))); rewrite <- F.
    intros Hin; apply in_map_iff in Hin as [y [Hy Hin]].
    inversion Hy; subst y.
    apply filter_In in Hin as [_ Hneq]; now rewrite String.eqb_refl in Hneq.
  - intros Hnone; rewrite Hafter.
    unfold held; rewrite Hnone; cbn.
    now rewrite String.eqb_refl.
Qed.

Lemma person_name_set_then_remove_witness :
  existing_list (fst action_comedy_world) 1 "favorite_actors" = [] /\
  exists r1 w1 r2 w2,
    setPreferences quiet_env
      [("favorite_actors", JArr [JObj [("name", JObj [("name", JStr "Tom Hanks")])]])]
      1 (fst action_comedy_world, snd action_comedy_world) = (Reply r1, w1) /\
    (exists held, stored (fst w1) 1 "favorite_actors" = Some (JArr (map JStr held))
                  /\ In "Tom Hanks" held) /\
    removePreferenceItem quiet_env (mkRemove "favorite_actors" (ItemStr "Tom Hanks"))
      1 w1 = (Reply r2, w2) /\
    stored (fst w2) 1 "favorite_actors" = None.
Proof.
  split; [reflexivity|].
  assert (Hreg : is_registered quiet_env 1) by (split; [discriminate | now left]).
  destruct (person_name_set_then_remove quiet_env quiet_env 1 "Tom Hanks"
              (JObj [("name", JObj [("name", JStr "Tom Hanks")])]) []
              (fst action_comedy_world) (snd action_comedy_world)
              Hreg (nested_name _) eq_refl eq_refl eq_refl)
    as [r1 [w1 [r2 [w2 [Hset [Hheld [Hrm [_ Hnone]]]]]]]].
  exists r1, w1, r2, w2; repeat split; auto.
Defined.

(** The three representations of the specification, on a user without
    favorite actors: each is stored as ["Tom Hanks"], and removing
    "Tom Hanks" deletes the row. *)
Example tom_hanks_three_shapes :
  forall repr,
    In repr [JStr "Tom Hanks"; JObj [("name", JStr "Tom Hanks")];
             JObj [("name", JObj [("name", JStr "Tom Hanks")])]] ->
    stored (fst (run [(quiet_env, SetPreferences 1 [("favorite_actors", JArr [repr])])]
                   fresh_world)) 1 "favorite_actors"
    = Some (JArr [JStr "Tom Hanks"]) /\
    stored (fst (run [(quiet_env, SetPreferences 1 [("favorite_actors", JArr [repr])]);
                      (quiet_env, RemovePreferenceItem 1
                                    (mkRemove "favorite_actors" (ItemStr "Tom Hanks")))]
                   fresh_world)) 1 "favorite_actors"
    = None.
Proof.
  intros repr [<- | [<- | [<- | []]]]; split; reflexivity.
Qed.

(** C6, as stated, fails: for a name that holds the character U+0000, sent
    as {name: X}, setPreferences is answered with an error and stores
    nothing, and removePreferenceItem then finds no preference to remove
    from and is answered with an error too. *)
Lemma nul_name_is_not_stored :
  person_shaped nul_name (JObj [("name", JStr nul_name)]) /\
  setPreferences quiet_env
    [("favorite_actors", JArr [JObj [("name", JStr nul_name)]])] 1 fresh_world
  = (ErrorReply "unsupported Unicode escape sequence", fresh_world) /\
  removePreferenceItem quiet_env (mkRemove "favorite_actors" (ItemStr nul_name)) 1
    fresh_world
  = (ErrorReply ("Preference " +++ dq +++ "favorite_actors" +++ dq +++ " not found"),
     fresh_world).
Proof. split; [constructor|]; split; reflexivity. Qed.

(** *** The empty list *)

Lemma jsonb_nonempty v : v <> JArr [] -> jsonb v <> JArr [].
Proof.
  destruct v as [| | | |items|fields]; cbn; try discriminate.
  destruct items; [congruence | discriminate].
Qed.

Lemma mapM_nonempty {A B} (f : A -> res B) (l : list A) (ys : list B) :
  mapM f l = Ok ys -> l <> [] -> ys <> [].
Proof.
  destruct l as [|x l]; [congruence|]; cbn.
  destruct (f x); [|discriminate].
  destruct (mapM f l); [|discriminate].
  intros H _; inversion H; discriminate.
Qed.

Lemma filter_new_nil incoming kept :
  filter_new [] incoming = Ok kept -> kept = incoming.
Proof.
  revert kept; induction incoming as [|x rest IH]; intros kept; cbn.
  - now inversion 1.
  - destruct (js_String x); [|discriminate].
    destruct (filter_new [] rest) as [kept'|]; [|discriminate].
    intros H; inversion H; now rewrite (IH kept').
Qed.

Lemma normalizedValueOf_nonempty key value rows held :
  normalizedValueOf key value rows = Ok held ->
  isArrayPreference key = true -> is_empty_array value = false ->
  held <> JArr [].
Proof.
  intros Hnorm Hkey Hval; unfold normalizedValueOf in Hnorm.
  destruct value as [| | | |incoming|]; try (inversion Hnorm; discriminate).
  rewrite Hkey in Hnorm.
  assert (Hne : incoming <> []) by (destruct incoming; [discriminate | congruence]).
  destruct (isPersonKey key).
  - destruct (normalizePersonNames (existingArrayOf rows)) as [en|]; [|discriminate].
    destruct (normalizePersonNames incoming) as [nn|] eqn:Hnn; [|discriminate].
    inversion Hnorm; subst held; intros H; inversion H as [Hnil].
    apply map_eq_nil in Hnil; rewrite merge_names_append_absent in Hnil.
    unfold append_absent in Hnil; apply app_eq_nil in Hnil as [-> Hnil].
    pose proof (mapM_nonempty _ _ _ Hnn Hne) as Hnn'.
    destruct nn; [congruence | discriminate].
  - destruct (mapM js_String (existingArrayOf rows)) as [existingSet|] eqn:Hset;
      [|discriminate].
    destruct (filter_new existingSet incoming) as [newValues|] eqn:Hnew;
      [|discriminate].
    inversion Hnorm; subst held; intros H; inversion H as [Hnil].
    apply app_eq_nil in Hnil as [Hex ->].
    rewrite Hex in Hset; cbn in Hset; inversion Hset; subst existingSet.
    apply filter_new_nil in Hnew; congruence.
Qed.

Lemma no_empty_upsert us at_ u key v s :
  no_empty_list s -> (isArrayPreference key = true -> v <> JArr []) ->
  no_empty_list (snd (upsert_pref us at_ u key v s)).
Proof.
  intros Hinv Hv; unfold upsert_pref, jsonb_in.
  destruct (has_nul key); [exact Hinv|].
  destruct (holds_nul v); [exact Hinv|].
  destruct (existsb _ _); [|destruct (negb _); [exact Hinv|]];
    cbn; intros r Hin.
  - apply in_map_iff in Hin as [x [Hx Hin]].
    destruct (p_match u key x); subst r; cbn; auto.
    intros Hkey; apply jsonb_nonempty; auto.
  - apply in_app_or in Hin as [Hin | [<- | []]]; cbn; auto.
    intros Hkey; apply jsonb_nonempty; auto.
Qed.

Lemma no_empty_set_one env u key value s :
  negb (isArrayPreference key && is_empty_array value) = true ->
  no_empty_list s -> no_empty_list (snd (set_one env u (key, value) s)).
Proof.
  intros Hhead Hinv; unfold set_one, select_pref; tx.
  apply negb_true_iff in Hhead.
  assert (Hfinish : forall rows,
    no_empty_list
      (snd (match normalizedValueOf key value rows with
            | Ok normalizedValue =>
                upsert_pref (users env) (now env) u key normalizedValue
            | Throw e => fun s0 => (Throw e, s0)
            end s))).
  { intros rows; destruct (normalizedValueOf key value rows) as [held|e] eqn:Hn;
      [|exact Hinv].
    apply no_empty_upsert; [exact Hinv|]; intros Hkey.
    apply (normalizedValueOf_nonempty _ _ _ _ Hn Hkey).
    now rewrite Hkey in Hhead. }
  destruct (isArrayPreference key && isArray value).
  - destruct (has_nul key); [exact Hinv | apply Hfinish].
  - apply Hfinish.
Qed.

Lemma no_empty_set_loop env u prefs : forall s,
  forallb (fun pref => negb (isArrayPreference (fst pref)
                             && is_empty_array (snd pref))) prefs = true ->
  no_empty_list s -> no_empty_list (snd (set_loop env u prefs s)).
Proof.
  induction prefs as [|[key value] rest IH]; intros s Hg Hinv;
    [exact Hinv|].
  cbn [forallb fst snd] in Hg; apply andb_true_iff in Hg as [Hhead Hrest].
  pose proof (no_empty_set_one env u key value s Hhead Hinv) as H1.
  cbn [set_loop]; tx.
  destruct (set_one env u (key, value) s) as [[[]|e] s1]; cbn [snd] in *;
    [exact (IH s1 Hrest H1) | exact H1].
Qed.

Lemma no_empty_remove_item env input u s :
  no_empty_list s -> no_empty_list (snd (remove_item env input u s)).
Proof.
  intros Hinv; unfold remove_item, select_pref; tx.
  destruct (has_nul (rm_key input)); [exact Hinv|].
  destruct (filter _ (preferences s)) as [|row rest]; [exact Hinv|].
  destruct (p_value row) as [| | | |currentValue|]; try exact Hinv.
  assert (Hfinish : forall (updatedValue : list Json) (m m' : string),
    no_empty_list
      (snd (match updatedValue with
            | [] => delete_pref u (rm_key input) ;;; ret m
            | _ :: _ =>
                update_pref (now env) u (rm_key input) (JArr updatedValue) ;;; ret m'
            end s))).
  { intros [|x kept] m m'; tx; cbn; intros r Hin.
    - apply filter_In in Hin as [Hin _]; auto.
    - apply in_map_iff in Hin as [y [Hy Hin]].
      destruct (p_match u (rm_key input) y); subst r; cbn; auto; discriminate. }
  destruct currentValue as [|first others];
    [apply (Hfinish [] _ EmptyString)|].
  destruct (name_in first).
  - destruct (filter_by_name (rm_item input) (first :: others)) as [kept|e];
      [apply Hfinish | exact Hinv].
  - apply Hfinish.
Qed.

Lemma handleSetPreferences_db env input u db cache :
  fst (snd (handleSetPreferences env input u (db, cache)))
  = if u =? 0 then db else snd (transaction (set_loop env u input) db).
Proof.
  unfold handleSetPreferences.
  destruct (u =? 0); [reflexivity|].
  destruct (transaction (set_loop env u input) db) as [[[]|e] db1]; [|reflexivity].
  cbn [snd].
  pose proof (getPreferences_db env u db1
                (Cache.deleteCached (cacheKey u) cache)) as Hdb.
  destruct (getPreferences env u (db1, Cache.deleteCached (cacheKey u) cache))
    as [resp [db2 cache2]]; exact Hdb.
Qed.

Lemma handleRemovePreferenceItem_db env input u db cache :
  fst (snd (handleRemovePreferenceItem env input u (db, cache)))
  = if u =? 0 then db else snd (transaction (remove_item env input u) db).
Proof.
  unfold handleRemovePreferenceItem.
  destruct (u =? 0); [reflexivity|].
  destruct (transaction (remove_item env input u) db) as [[msg|e] db1];
    [|reflexivity].
  cbn [snd].
  pose proof (getPreferences_db env u db1
                (Cache.deleteCached (cacheKey u) cache)) as Hdb.
  destruct (getPreferences env u (db1, Cache.deleteCached (cacheKey u) cache))
    as [resp [db2 cache2]]; exact Hdb.
Qed.

Lemma no_empty_transaction {A} (f : Tx A) s :
  no_empty_list s -> no_empty_list (snd (f s)) ->
  no_empty_list (snd (transaction f s)).
Proof.
  intros Hs Hf; unfold transaction.
  destruct (f s) as [[a|e] s1]; [exact Hf | exact Hs].
Qed.

Lemma withToolHandler_snd {I V R W} (schema : I -> res V)
    (handler : V -> Z -> W -> res R * W) input u w :
  snd (withToolHandler schema handler input u w)
  = match schema input with
    | Ok v => snd (handler v u w)
    | Throw _ => w
    end.
Proof.
  unfold withToolHandler.
  destruct (schema input) as [v|e]; [|reflexivity].
  destruct (handler v u w) as [[r|e] w']; reflexivity.
Qed.

Lemma SetPreferencesSchema_Ok input v :
  SetPreferencesSchema input = Ok v -> v = input.
Proof.
  unfold SetPreferencesSchema; destruct input; [discriminate|].
  destruct (forallb _ _); congruence.
Qed.

Lemma RemovePreferenceItemSchema_Ok input v :
  RemovePreferenceItemSchema input = Ok v -> v = input.
Proof.
  unfold RemovePreferenceItemSchema; destruct (String.eqb _ _); congruence.
Qed.

Lemma no_empty_callTool env c w :
  sets_no_empty_array c = true ->
  no_empty_list (fst w) -> no_empty_list (fst (callTool env c w)).
Proof.
  destruct w as [db cache]; intros Hg Hinv.
  destruct c as [u input | u input | u]; cbn [callTool];
    (destruct (u =? 0) eqn:Hu; [exact Hinv|]).
  - unfold setPreferences; rewrite withToolHandler_snd.
    destruct (SetPreferencesSchema input) as [v|e] eqn:Ev; [|exact Hinv].
    apply SetPreferencesSchema_Ok in Ev; subst v.
    rewrite handleSetPreferences_db, Hu.
    apply no_empty_transaction; [exact Hinv|].
    now apply no_empty_set_loop.
  - unfold removePreferenceItem; rewrite withToolHandler_snd.
    destruct (RemovePreferenceItemSchema input) as [v|e] eqn:Ev; [|exact Hinv].
    apply RemovePreferenceItemSchema_Ok in Ev; subst v.
    rewrite handleRemovePreferenceItem_db, Hu.
    apply no_empty_transaction; [exact Hinv|].
    now apply no_empty_remove_item.
  - now rewrite getPreferences_db.
Qed.

(** C7, as amended.  In every state reached from the empty store by
    setPreferences, removePreferenceItem and getPreferences calls of which no
    setPreferences passes an empty array for a list-valued key, no
    PreferenceEntry row of a list-valued key (favorite_genres,
    favorite_actors, favorite_directors) holds an empty list. *)
Theorem list_rows_never_empty (calls : list (Env * call))
    (cache : Cache.t PreferencesContent) :
  forallb (fun ec => sets_no_empty_array (snd ec)) calls = true ->
  no_empty_list (fst (run calls (Db.empty, cache))).
Proof.
  assert (H : forall w, forallb (fun ec => sets_no_empty_array (snd ec)) calls = true ->
                        no_empty_list (fst w) -> no_empty_list (fst (run calls w))).
  { induction calls as [|[env c] rest IH]; intros w Hg Hinv; cbn in *; [exact Hinv|].
    apply andb_true_iff in Hg as [Hc Hrest].
    apply IH; [exact Hrest | now apply no_empty_callTool]. }
  intros Hg; apply H; [exact Hg | intros r []].
Qed.

Lemma list_rows_never_empty_witness :
  forallb (fun ec => sets_no_empty_array (snd ec)) set_then_remove_all = true /\
  stored (fst (run set_then_remove_all fresh_world)) 1 "favorite_genres"
  = Some (JArr [JStr "Comedy"]) /\
  stored (fst (run set_then_remove_all fresh_world)) 1 "favorite_actors" = None /\
  no_empty_list (fst (run set_then_remove_all (Db.empty, Cache.mk true []))).
Proof.
  split; [reflexivity|]; split; [reflexivity|]; split; [reflexivity|].
  apply (list_rows_never_empty set_then_remove_all (Cache.mk true [])); reflexivity.
Defined.

(** C7, as stated, fails: setPreferences with an empty array for
    favorite_genres, on a user without that preference, leaves a
    favorite_genres row that holds the empty list. *)
Lemma set_empty_array_stores_empty_list :
  stored (fst (run set_empty_genres fresh_world)) 1 "favorite_genres"
  = Some (JArr []) /\
  ~ no_empty_list (fst (run set_empty_genres fresh_world)).
Proof.
  split; [reflexivity|].
  intros H.
  apply (H (mkPref 1 "favorite_genres" (JArr []) 1000));
    [left; reflexivity | reflexivity | reflexivity].
Qed.

(** *** The cache *)

Lemma find_remove_key {V} key (l : list (string * (V * Z))) :
  Cache.find_key key (Cache.remove_key key l) = None.
Proof.
  induction l as [|[k e] l IH]; cbn; [reflexivity|].
  destruct (String.eqb key k) eqn:E; cbn; [exact IH | now rewrite E].
Qed.

Lemma getCached_deleted {V} at_ key (cache : Cache.t V) :
  Cache.getCached at_ key (Cache.deleteCached key cache) = None.
Proof.
  unfold Cache.getCached, Cache.deleteCached.
  destruct (Cache.enabled cache) eqn:E; cbn; [|now rewrite E].
  now rewrite find_remove_key.
Qed.

Lemma find_remove_other {V} key key' (l : list (string * (V * Z))) :
  key' <> key ->
  Cache.find_key key' (Cache.remove_key key l) = Cache.find_key key' l.
Proof.
  intros Hne; induction l as [|[k e] l IH]; cbn; [reflexivity|].
  destruct (String.eqb key k) eqn:Ek; cbn.
  - apply String.eqb_eq in Ek; subst k.
    apply String.eqb_neq in Hne; now rewrite Hne.
  - unfold Cache.remove_key in IH; now rewrite IH.
Qed.

Lemma getCached_set_other {V} at_ at' key key' (value : V) ttl (c : Cache.t V) :
  key' <> key ->
  Cache.getCached at' key' (Cache.setCached at_ key value ttl c)
  = Cache.getCached at' key' c.
Proof.
  intros Hne; unfold Cache.getCached, Cache.setCached.
  destruct (Cache.enabled c) eqn:En; cbn; [|now rewrite En].
  apply String.eqb_neq in Hne as Hne'; rewrite Hne'.
  now rewrite find_remove_other.
Qed.

Lemma getCached_delete_other {V} at' key key' (c : Cache.t V) :
  key' <> key ->
  Cache.getCached at' key' (Cache.deleteCached key c)
  = Cache.getCached at' key' c.
Proof.
  intros Hne; unfold Cache.getCached, Cache.deleteCached.
  destruct (Cache.enabled c) eqn:En; cbn; [|now rewrite En].
  now rewrite find_remove_other.
Qed.

Lemma getCached_set_same {V} at_ at' key (value : V) ttl (c : Cache.t V) :
  Cache.getCached at' key (Cache.setCached at_ key value ttl c)
  = if Cache.enabled c && (at' <? at_ + ttl * 1000) then Some value else None.
Proof.
  unfold Cache.getCached, Cache.setCached.
  destruct (Cache.enabled c) eqn:En; cbn; [|now rewrite En].
  now rewrite String.eqb_refl.
Qed.

(** *** The rows a response is computed from *)













(** *** What a setPreferences call that completes leaves in the store *)


















End PrefsFacts.
(* ------------------------------------------------------------------ *)
(** ** More on the watchlist / watched tools *)

Module WatchMore.
Import Db Sql Watch WatchSpec Reads MoreSpec WatchFacts.

Ltac tx := unfold bind, ret, throw, Db.query in *.

Lemma count_existsb {A} (f : A -> bool) (l : list A) :
  negb (Nat.eqb (List.length (filter f l)) 0) = existsb f l.
Proof.
  induction l as [|x l IH]; cbn; [reflexivity|].
  destruct (f x); cbn; [reflexivity | exact IH].
Qed.

Lemma count_pos_existsb {A} (f : A -> bool) (l : list A) :
  (0 <? Z.of_nat (List.length (filter f l))) = existsb f l.
Proof.
  induction l as [|x l IH]; cbn; [reflexivity|].
  destruct (f x); cbn; [reflexivity | exact IH].
Qed.

Lemma filter_nonempty_existsb {A} (f : A -> bool) (l : list A) :
  match filter f l with [] => false | _ :: _ => true end = existsb f l.
Proof.
  induction l as [|x l IH]; cbn; [reflexivity|].
  destruct (f x); cbn; [reflexivity | exact IH].
Qed.

(** *** What the handlers compute *)

Lemma handleAddToWatchlist_eval env input u s :
  handleAddToWatchlist env input u s
  = match movieIdOf s (aw_tmdb_id input) with
    | Some m => add_for env input u m s
    | None =>
        match getMovieDetails env (aw_tmdb_id input) with
        | Throw e => (Throw e, s)
        | Ok d =>
            if existsb (fun r => m_tmdb_id r =? md_tmdb_id d) (movies s)
            then (Throw (unique_violation "movies_tmdb_id_key"), seq_advanced s)
            else add_for env input u (movies_id_seq s) (with_new_movie s d)
        end
    end.
Proof.
  assert (Hat : forall m s1,
    (present <- isInWatchlist u m ;;
     if (present : bool) then
       ret {| success := false; message := "Movie is already in your watchlist" |}
     else
       insert_watchlist (users env) (now env) u m (notes_or_null (aw_notes input)) ;;;
       ret {| success := true; message := "Movie added to watchlist successfully" |})
      s1 = add_for env input u m s1).
  { intros m s1; unfold add_for, refused_user, inWatchlist, isInWatchlist; tx.
    unfold select_watchlist; rewrite count_existsb.
    destruct (existsb (wl_match u m) (watchlist s1)) eqn:E; [reflexivity|].
    unfold insert_watchlist; rewrite E.
    destruct (text_refused _); [reflexivity|].
    destruct (u =? 0); [reflexivity|].
    destruct (registered (users env) u); reflexivity. }
  unfold handleAddToWatchlist, ensureMovieExists, movieIdOf.
  tx; unfold select_movie.
  destruct (filter _ (movies s)) as [|row rest].
  - destruct (getMovieDetails env (aw_tmdb_id input)) as [d|e]; [|reflexivity].
    unfold insert_movie.
    destruct (existsb _ (movies s)); [reflexivity|].
    apply Hat.
  - apply Hat.
Qed.

Lemma handleMarkAsWatched_eval env input u s :
  handleMarkAsWatched env input u s
  = match getMovieDetails env (mw_tmdb_id input) with
    | Throw e => (Throw e, s)
    | Ok d =>
        match not_released_yet env d with
        | Some msg => (Throw (Error msg), s)
        | None =>
            match movieIdOf s (mw_tmdb_id input) with
            | Some m => mark_for env input u m s
            | None =>
                if existsb (fun r => m_tmdb_id r =? md_tmdb_id d) (movies s)
                then (Throw (unique_violation "movies_tmdb_id_key"), seq_advanced s)
                else mark_for env input u (movies_id_seq s) (with_new_movie s d)
            end
        end
    end.
Proof.
  unfold handleMarkAsWatched.
  destruct (getMovieDetails env (mw_tmdb_id input)) as [d|e]; [|reflexivity].
  destruct (not_released_yet env d); [reflexivity|].
  assert (Hat : forall m s1,
    (watchedCheck <- select_watched u m ;;
     match watchedCheck with
     | _ :: _ =>
         update_watched (now env) u m (mw_rating input)
                        (notes_or_null (mw_notes input)) ;;;
         ret {| success := true;
                message := "Updated watch record with new rating." |}
     | [] =>
         insert_watched (users env) (now env) u m (mw_rating input)
                        (notes_or_null (mw_notes input)) ;;;
         rowCount <- delete_watchlist u m ;;
         let removedFromWatchlist := 0 <? rowCount in
         ret {| success := true;
                message := if removedFromWatchlist
                           then "Movie marked as watched and removed from watchlist."
                           else "Movie marked as watched." |}
     end) s1 = mark_for env input u m s1).
  { intros m s1; unfold mark_for, refused_user, inWatched, inWatchlist; tx.
    unfold select_watched.
    pose proof (filter_nonempty_existsb (wd_match u m) (watched s1)) as Hex.
    destruct (filter (wd_match u m) (watched s1)) as [|w ws].
    - rewrite <- Hex.
      unfold insert_watched; rewrite <- Hex.
      destruct (text_refused _); [reflexivity|].
      destruct (u =? 0); [reflexivity|].
      destruct (negb (rating_check (mw_rating input))); [reflexivity|].
      destruct (registered (users env) u); [|reflexivity].
      unfold delete_watchlist; cbn.
      now rewrite count_pos_existsb.
    - rewrite <- Hex.
      unfold update_watched; rewrite <- Hex; cbn.
      destruct (text_refused _); [reflexivity|].
      destruct (negb (rating_check (mw_rating input))); reflexivity. }
  unfold movieIdOf; tx; unfold select_movie.
  destruct (filter _ (movies s)) as [|row rest].
  - unfold insert_movie.
    destruct (existsb _ (movies s)); [reflexivity|].
    apply Hat.
  - apply Hat.
Qed.

(** The tools, for an input that passes validation. *)
Lemma addToWatchlist_valid env input u s :
  0 < aw_tmdb_id input ->
  addToWatchlist env input u s
  = match handleAddToWatchlist env input u s with
    | (Ok r, s') => (Reply r, s')
    | (Throw e, s') => (ErrorReply (errorMessage e), rollback s s')
    end.
Proof.
  intros Hpos; unfold addToWatchlist, withToolHandler, AddToWatchlistSchema,
    transaction.
  apply Z.ltb_lt in Hpos; rewrite Hpos.
  destruct (handleAddToWatchlist env input u s) as [[r|e] s']; reflexivity.
Qed.

Lemma markAsWatched_valid env input u s :
  MarkAsWatchedValid input = true -> u <> 0 ->
  markAsWatched env input u s
  = match handleMarkAsWatched env input u s with
    | (Ok r, s') => (Reply r, s')
    | (Throw e, s') => (ErrorReply (errorMessage e), rollback s s')
    end.
Proof.
  intros Hvalid Hu; unfold markAsWatched, withToolHandler, MarkAsWatchedSchema,
    transaction.
  rewrite Hvalid; apply Z.eqb_neq in Hu; rewrite Hu.
  destruct (handleMarkAsWatched env input u s) as [[r|e] s']; reflexivity.
Qed.

Lemma movieIdOf_absent s tmdb_id :
  movieIdOf s tmdb_id = None ->
  filter (fun r => m_tmdb_id r =? tmdb_id) (movies s) = [].
Proof.
  unfold movieIdOf; destruct (filter _ (movies s)); [reflexivity | discriminate].
Qed.

Lemma movieIdOf_new_movie s d tmdb_id :
  movieIdOf s tmdb_id = None -> md_tmdb_id d = tmdb_id ->
  movieIdOf (with_new_movie s d) tmdb_id = Some (movies_id_seq s).
Proof.
  intros Hnone Hd; apply movieIdOf_absent in Hnone.
  unfold movieIdOf, with_new_movie; cbn [movies].
  rewrite filter_app, Hnone; cbn; now rewrite Hd, Z.eqb_refl.
Qed.

Lemma faithful_insertable env s tmdb_id d :
  faithful env tmdb_id -> getMovieDetails env tmdb_id = Ok d ->
  movieIdOf s tmdb_id = None ->
  md_tmdb_id d = tmdb_id /\
  existsb (fun r => m_tmdb_id r =? md_tmdb_id d) (movies s) = false.
Proof.
  intros Hf Hd Hnone; specialize (Hf d Hd); split; [exact Hf|].
  rewrite Hf; apply filter_nil_existsb; now apply movieIdOf_absent.
Qed.

Lemma filter_negb_all {A} (f : A -> bool) (l : list A) :
  existsb f l = false -> filter (fun x => negb (f x)) l = l.
Proof.
  induction l as [|x l IH]; cbn; [reflexivity|].
  intros H; apply orb_false_iff in H as [Hx Hl]; rewrite Hx; cbn; now rewrite IH.
Qed.

Lemma wl_match_refl u m notes at_ :
  wl_match u m (mkWatchlist u m notes at_) = true.
Proof. now apply wl_match_iff. Qed.

Lemma wd_match_refl u m rating notes at_ :
  wd_match u m (mkWatched u m rating notes at_) = true.
Proof. now apply wd_match_iff. Qed.

(** *** addToWatchlist *)

Lemma add_for_added env input u m s0 r s1 :
  add_for env input u m s0 = (Ok r, s1) -> success r = true ->
  inWatchlist s0 u m = false /\
  s1 = with_watchlist s0
         (watchlist s0 ++ [mkWatchlist u m (notes_or_null (aw_notes input)) (now env)]).
Proof.
  unfold add_for; destruct (inWatchlist s0 u m); intros H Hs.
  - inversion H; subst; discriminate.
  - destruct (text_refused _); [discriminate|].
    destruct (refused_user _ env u); inversion H; subst; auto.
Qed.

Lemma refused_user_registered relation env u :
  is_registered env u -> refused_user relation env u = None.
Proof.
  intros [Hu Hin]; unfold refused_user, registered.
  apply Z.eqb_neq in Hu; rewrite Hu.
  assert (existsb (Z.eqb u) (users env) = true) as ->; [|reflexivity].
  apply existsb_exists; exists u; split; [exact Hin | apply Z.eqb_refl].
Qed.

Lemma storable_notes_or_null notes :
  storable notes -> text_refused (notes_or_null notes) = false.
Proof. destruct notes as [[|c rest]|]; auto. Qed.

Lemma add_for_registered env input u m s0 :
  is_registered env u -> storable (aw_notes input) ->
  exists r s1, add_for env input u m s0 = (Ok r, s1).
Proof.
  intros Hreg Hnotes; unfold add_for; rewrite (refused_user_registered _ _ _ Hreg).
  rewrite (storable_notes_or_null _ Hnotes); destruct (inWatchlist s0 u m); eauto.
Qed.

Lemma add_for_again env env' input input' u m s0 t :
  movieIdOf s0 t = Some m -> inWatchlist s0 u m = false ->
  aw_tmdb_id input' = t ->
  let s1 := with_watchlist s0
              (watchlist s0
               ++ [mkWatchlist u m (notes_or_null (aw_notes input)) (now env)]) in
  List.length (filter (wl_match u m) (watchlist s1)) = 1%nat /\
  movieIdOf s1 t = Some m /\
  handleAddToWatchlist env' input' u s1
  = (Ok {| success := false; message := "Movie is already in your watchlist" |}, s1).
Proof.
  intros Hm Hnot Ht s1; split; [|split].
  - subst s1; cbn [watchlist with_watchlist].
    rewrite filter_app, (existsb_false_filter _ _ Hnot); cbn.
    now rewrite wl_match_refl.
  - exact Hm.
  - rewrite handleAddToWatchlist_eval, Ht.
    change (movieIdOf s1 t) with (movieIdOf s0 t); rewrite Hm.
    unfold add_for.
    assert (inWatchlist s1 u m = true) as ->; [|reflexivity].
    unfold inWatchlist, s1; cbn [watchlist with_watchlist].
    rewrite existsb_snoc, wl_match_refl; apply orb_true_r.
Qed.

(** Adding a film twice.  When the provider answers a request for the film
    with the record of that film: after an addToWatchlist that added the
    film, the pair has exactly one WatchlistEntry, and any further
    addToWatchlist for it, whatever its notes and whatever the provider does
    then, is answered without error by "Movie is already in your watchlist"
    and changes nothing. *)
Theorem addToWatchlist_idempotent (env : Env) (input : AddToWatchlistInput)
    (u : Z) (s s1 : Db.t) (r1 : SimpleResult) :
  0 < aw_tmdb_id input -> faithful env (aw_tmdb_id input) ->
  addToWatchlist env input u s = (Reply r1, s1) -> success r1 = true ->
  exists m,
    movieIdOf s1 (aw_tmdb_id input) = Some m /\
    List.length (filter (wl_match u m) (watchlist s1)) = 1%nat /\
    forall env' notes',
      addToWatchlist env' (mkAdd (aw_tmdb_id input) notes') u s1
      = (Reply {| success := false;
                  message := "Movie is already in your watchlist" |}, s1).
Proof.
  intros Hpos Hf H Hs.
  rewrite addToWatchlist_valid, handleAddToWatchlist_eval in H by exact Hpos.
  assert (Hgoal : forall m s0,
             movieIdOf s0 (aw_tmdb_id input) = Some m ->
             add_for env input u m s0 = (Ok r1, s1) ->
             exists m0,
               movieIdOf s1 (aw_tmdb_id input) = Some m0 /\
               List.length (filter (wl_match u m0) (watchlist s1)) = 1%nat /\
               forall env' notes',
                 addToWatchlist env' (mkAdd (aw_tmdb_id input) notes') u s1
                 = (Reply {| success := false;
                             message := "Movie is already in your watchlist" |}, s1)).
  { intros m s0 Hm Hadd.
    destruct (add_for_added _ _ _ _ _ _ _ Hadd Hs) as [Hnot ->].
    exists m.
    split; [exact Hm|]; split.
    - apply (add_for_again env env input input u m s0 _ Hm Hnot eq_refl).
    - intros env' notes'.
      rewrite addToWatchlist_valid by exact Hpos.
      destruct (add_for_again env env' input (mkAdd (aw_tmdb_id input) notes') u m
                  s0 _ Hm Hnot eq_refl) as [_ [_ ->]]; reflexivity. }
  destruct (movieIdOf s (aw_tmdb_id input)) as [m|] eqn:Hm.
  - destruct (add_for env input u m s) as [[r|e] s'] eqn:Hadd;
      inversion H; subst; eauto.
  - destruct (getMovieDetails env (aw_tmdb_id input)) as [d|e] eqn:Hd;
      [|discriminate].
    destruct (faithful_insertable env s _ d Hf Hd Hm) as [Hid Hfree].
    rewrite Hfree in H.
    destruct (add_for env input u (movies_id_seq s) (with_new_movie s d))
      as [[r|e] s'] eqn:Hadd; inversion H; subst.
    eapply Hgoal; [|exact Hadd].
    now apply movieIdOf_new_movie.
Qed.

Lemma addToWatchlist_idempotent_witness :
  exists r1 s1 m,
    addToWatchlist two_films (mkAdd 550 (Some "tonight")) 1 Db.empty = (Reply r1, s1) /\
    success r1 = true /\
    movieIdOf s1 550 = Some m /\
    List.length (filter (wl_match 1 m) (watchlist s1)) = 1%nat /\
    forall env' notes',
      addToWatchlist env' (mkAdd 550 notes') 1 s1
      = (Reply {| success := false;
                  message := "Movie is already in your watchlist" |}, s1).
Proof.
  do 2 eexists.
  assert (Hf : faithful two_films 550).
  { intros d Hd; vm_compute in Hd; inversion Hd; reflexivity. }
  destruct (addToWatchlist_idempotent two_films (mkAdd 550 (Some "tonight")) 1
              Db.empty _ _ ltac:(reflexivity) Hf eq_refl eq_refl) as [m H].
  exists m; split; [reflexivity|]; split; [reflexivity|]; exact H.
Defined.

(** When addToWatchlist fails: for a valid identifier, notes without the
    character U+0000, a user who has a row in users and a provider that
    answers a request for the film with the record of that film, the call is
    answered with an error exactly when no MediaRecord exists for the
    identifier and the provider throws; the store is then left as it was.
    In particular, for such a user and such notes it never fails on a film
    that is already in the watchlist or already watched. *)
Theorem addToWatchlist_fails_only_without_record (env : Env)
    (input : AddToWatchlistInput) (u : Z) (s : Db.t) :
  0 < aw_tmdb_id input -> faithful env (aw_tmdb_id input) ->
  is_registered env u -> storable (aw_notes input) ->
  isError (fst (addToWatchlist env input u s))
  = match movieIdOf s (aw_tmdb_id input) with
    | Some _ => false
    | None => negb (is_ok (getMovieDetails env (aw_tmdb_id input)))
    end /\
  (isError (fst (addToWatchlist env input u s)) = true ->
   snd (addToWatchlist env input u s) = s).
Proof.
  intros Hpos Hf Hreg Hnotes.
  rewrite addToWatchlist_valid, handleAddToWatchlist_eval by exact Hpos.
  pose proof (fun m s0 => add_for_registered env input u m s0 Hreg Hnotes) as Hadd.
  destruct (movieIdOf s (aw_tmdb_id input)) as [m|] eqn:Hm.
  - destruct (Hadd m s) as [r [s1 ->]]; cbn; split; [reflexivity | discriminate].
  - destruct (getMovieDetails env (aw_tmdb_id input)) as [d|e] eqn:Hd; cbn.
    + destruct (faithful_insertable env s _ d Hf Hd Hm) as [_ ->].
      destruct (Hadd (movies_id_seq s) (with_new_movie s d)) as [r [s1 ->]]; cbn.
      split; [reflexivity | discriminate].
    + split; [reflexivity | intros _; apply rollback_id].
Qed.

Lemma addToWatchlist_fails_only_without_record_witness :
  movieIdOf Db.empty 7 = None /\
  is_ok (getMovieDetails two_films 7) = false /\
  isError (fst (addToWatchlist two_films (mkAdd 7 None) 1 Db.empty)) = true /\
  snd (addToWatchlist two_films (mkAdd 7 None) 1 Db.empty) = Db.empty.
Proof.
  assert (Hf : faithful two_films 7) by (intros d Hd; discriminate).
  assert (Hreg : is_registered two_films 1)
    by (split; [discriminate | now left]).
  destruct (addToWatchlist_fails_only_without_record two_films (mkAdd 7 None) 1
              Db.empty ltac:(reflexivity) Hf Hreg eq_refl) as [Herr Hsame].
  split; [reflexivity|]; split; [reflexivity|]; split; [exact Herr|].
  apply Hsame; exact Herr.
Defined.

(** *** removeFromWatchlist *)

Lemma removeFromWatchlist_eval tmdb_id u s :
  0 < tmdb_id ->
  removeFromWatchlist tmdb_id u s
  = match filter (fun r => m_tmdb_id r =? tmdb_id) (movies s) with
    | [] => (ErrorReply "Movie not found in database", s)
    | row :: _ =>
        (Reply (if inWatchlist s u (m_id row)
                then {| success := true;
                        message := "Removed " +++ dq +++ m_title row +++ dq
                                              +++ " from your watchlist." |}
                else {| success := false;
                        message := dq +++ m_title row +++ dq
                                      +++ " was not in your watchlist." |}),
         with_watchlist s
           (filter (fun w => negb (wl_match u (m_id row) w)) (watchlist s)))
    end.
Proof.
  intros Hpos.
  unfold removeFromWatchlist, withToolHandler, RemoveFromWatchlistSchema.
  apply Z.ltb_lt in Hpos; rewrite Hpos.
  tx; unfold select_movie.
  destruct (filter _ (movies s)) as [|row rest]; [reflexivity|].
  unfold delete_watchlist; rewrite count_zero_existsb.
  unfold inWatchlist.
  destruct (existsb (wl_match u (m_id row)) (watchlist s)); reflexivity.
Qed.

(** Add then remove.  When the provider answers a request for the film with
    the record of that film: after an addToWatchlist that added the film, a
    removeFromWatchlist for it reports a removal and leaves the watchlist
    and the watch history as they were before the film was added; the
    MediaRecord created for the film stays. *)
Theorem add_then_remove_restores (env : Env) (input : AddToWatchlistInput)
    (u : Z) (s s1 : Db.t) (r1 : SimpleResult) :
  0 < aw_tmdb_id input -> faithful env (aw_tmdb_id input) ->
  addToWatchlist env input u s = (Reply r1, s1) -> success r1 = true ->
  exists r2 s2,
    removeFromWatchlist (aw_tmdb_id input) u s1 = (Reply r2, s2) /\
    success r2 = true /\
    watchlist s2 = watchlist s /\ watched s2 = watched s /\
    movies s2 = movies s1 /\ movieIdOf s2 (aw_tmdb_id input) <> None.
Proof.
  intros Hpos Hf H Hs.
  rewrite addToWatchlist_valid, handleAddToWatchlist_eval in H by exact Hpos.
  assert (Hgoal : forall m s0,
             movieIdOf s0 (aw_tmdb_id input) = Some m ->
             watchlist s0 = watchlist s -> watched s0 = watched s ->
             add_for env input u m s0 = (Ok r1, s1) ->
             exists r2 s2,
               removeFromWatchlist (aw_tmdb_id input) u s1 = (Reply r2, s2) /\
               success r2 = true /\
               watchlist s2 = watchlist s /\ watched s2 = watched s /\
               movies s2 = movies s1 /\ movieIdOf s2 (aw_tmdb_id input) <> None).
  { intros m s0 Hm Hwl Hwd Hadd.
    destruct (add_for_added _ _ _ _ _ _ _ Hadd Hs) as [Hnot ->].
    rewrite removeFromWatchlist_eval by exact Hpos.
    pose proof Hm as Hm'; unfold movieIdOf in Hm'.
    cbn [movies with_watchlist].
    destruct (filter _ (movies s0)) as [|row rest] eqn:F; [discriminate|].
    inversion Hm'; subst m.
    do 2 eexists; split; [reflexivity|].
    assert (Hin : inWatchlist
                    (with_watchlist s0
                       (watchlist s0
                        ++ [mkWatchlist u (m_id row) (notes_or_null (aw_notes input))
                                        (now env)])) u (m_id row) = true).
    { unfold inWatchlist; cbn [watchlist with_watchlist].
      rewrite existsb_snoc, wl_match_refl; apply orb_true_r. }
    rewrite Hin; cbn [success watchlist watched movies with_watchlist].
    split; [reflexivity|]; split; [|split; [exact Hwd|split; [reflexivity|]]].
    - rewrite filter_app, (filter_negb_all _ _ Hnot); cbn.
      rewrite wl_match_refl; cbn; now rewrite app_nil_r.
    - unfold movieIdOf; cbn [movies with_watchlist]; rewrite F; discriminate. }
  destruct (movieIdOf s (aw_tmdb_id input)) as [m|] eqn:Hm.
  - destruct (add_for env input u m s) as [[r|e] s'] eqn:Hadd;
      inversion H; subst; eauto.
  - destruct (getMovieDetails env (aw_tmdb_id input)) as [d|e] eqn:Hd;
      [|discriminate].
    destruct (faithful_insertable env s _ d Hf Hd Hm) as [Hid Hfree].
    rewrite Hfree in H.
    destruct (add_for env input u (movies_id_seq s) (with_new_movie s d))
      as [[r|e] s'] eqn:Hadd; inversion H; subst.
    eapply Hgoal; [| | |exact Hadd]; try reflexivity.
    now apply movieIdOf_new_movie.
Qed.

Lemma add_then_remove_restores_witness :
  exists r1 s1 r2 s2,
    addToWatchlist two_films (mkAdd 550 None) 1 Db.empty = (Reply r1, s1) /\
    success r1 = true /\
    removeFromWatchlist 550 1 s1 = (Reply r2, s2) /\
    success r2 = true /\
    watchlist s2 = [] /\ watched s2 = [] /\
    movies s2 = movies s1 /\ movieIdOf s2 550 <> None.
Proof.
  do 2 eexists.
  assert (Hf : faithful two_films 550).
  { intros d Hd; vm_compute in Hd; inversion Hd; reflexivity. }
  destruct (add_then_remove_restores two_films (mkAdd 550 None) 1 Db.empty _ _
              ltac:(reflexivity) Hf eq_refl eq_refl) as [r2 [s2 H]].
  exists r2, s2; split; [reflexivity|]; split; [reflexivity|]; exact H.
Defined.

(** *** ensureMovieExists and getMovieIdByTMDBId *)

Lemma ensureMovieExists_eval env tmdb_id s :
  ensureMovieExists env tmdb_id s
  = match movieIdOf s tmdb_id with
    | Some m => (Ok m, s)
    | None =>
        match getMovieDetails env tmdb_id with
        | Throw e => (Throw e, s)
        | Ok d =>
            if existsb (fun r => m_tmdb_id r =? md_tmdb_id d) (movies s)
            then (Throw (unique_violation "movies_tmdb_id_key"), seq_advanced s)
            else (Ok (movies_id_seq s), with_new_movie s d)
        end
    end.
Proof.
  unfold ensureMovieExists, movieIdOf; tx; unfold select_movie.
  destruct (filter _ (movies s)) as [|row rest]; [|reflexivity].
  destruct (getMovieDetails env tmdb_id) as [d|e]; [|reflexivity].
  unfold insert_movie; destruct (existsb _ (movies s)); reflexivity.
Qed.

(** Get-or-create.  When the provider answers a request for the film with
    the record of that film and [ensureMovieExists] returns an id, looking
    the identifier up gives that id, and ensuring the film again returns the
    same id whatever the provider does then, and without changing the
    store. *)
Theorem ensureMovieExists_then_found (env : Env) (tmdb_id m : Z) (s s1 : Db.t) :
  faithful env tmdb_id ->
  ensureMovieExists env tmdb_id s = (Ok m, s1) ->
  getMovieIdByTMDBId tmdb_id s1 = (Ok (Some m), s1) /\
  forall env', ensureMovieExists env' tmdb_id s1 = (Ok m, s1).
Proof.
  intros Hf H.
  assert (Hm1 : movieIdOf s1 tmdb_id = Some m).
  { rewrite ensureMovieExists_eval in H.
    destruct (movieIdOf s tmdb_id) as [m0|] eqn:Hm.
    - inversion H; subst; exact Hm.
    - destruct (getMovieDetails env tmdb_id) as [d|e] eqn:Hd; [|discriminate].
      destruct (faithful_insertable env s _ d Hf Hd Hm) as [Hid Hfree].
      rewrite Hfree in H; inversion H; subst.
      now apply movieIdOf_new_movie. }
  split.
  - unfold getMovieIdByTMDBId; tx; unfold select_movie.
    unfold movieIdOf in Hm1.
    destruct (filter _ (movies s1)); [discriminate | now inversion Hm1].
  - intros env'; now rewrite ensureMovieExists_eval, Hm1.
Qed.

Lemma ensureMovieExists_then_found_witness :
  exists m s1,
    ensureMovieExists two_films 550 Db.empty = (Ok m, s1) /\
    getMovieIdByTMDBId 550 s1 = (Ok (Some m), s1) /\
    forall env', ensureMovieExists env' 550 s1 = (Ok m, s1).
Proof.
  do 2 eexists; split; [reflexivity|].
  assert (Hf : faithful two_films 550).
  { intros d Hd; vm_compute in Hd; inversion Hd; reflexivity. }
  exact (ensureMovieExists_then_found two_films 550 _ Db.empty _ Hf eq_refl).
Defined.

(** *** markAsWatched *)

Lemma valid_rating_check input :
  MarkAsWatchedValid input = true -> rating_check (mw_rating input) = true.
Proof.
  unfold MarkAsWatchedValid, rating_check; intros H.
  apply andb_true_iff in H as [H H3]; apply andb_true_iff in H as [_ H2].
  now rewrite H2, H3.
Qed.



Lemma mark_for_valid env input u m s0 :
  MarkAsWatchedValid input = true -> is_registered env u ->
  storable (mw_notes input) ->
  exists r s1,
    mark_for env input u m s0 = (Ok r, s1) /\
    success r = true /\
    message r = (if inWatched s0 u m then "Updated watch record with new rating."
                 else if inWatchlist s0 u m
                      then "Movie marked as watched and removed from watchlist."
                      else "Movie marked as watched.") /\
    inWatched s1 u m = true /\
    movies s1 = movies s0 /\
    (inWatched s0 u m = false -> inWatchlist s1 u m = false) /\
    (inWatched s0 u m = true -> watchlist s1 = watchlist s0).
Proof.
  intros Hvalid Hreg Hnotes; unfold mark_for.
  rewrite (storable_notes_or_null _ Hnotes).
  rewrite (valid_rating_check _ Hvalid), (refused_user_registered _ _ _ Hreg).
  destruct Hreg as [Hu _]; apply Z.eqb_neq in Hu; rewrite Hu; cbn [negb].
  destruct (inWatched s0 u m) eqn:Hw; do 2 eexists;
    (split; [reflexivity|]); cbn [success message];
    (split; [reflexivity|]); (split; [reflexivity|]).
  - split; [|split; [reflexivity|split; [discriminate | reflexivity]]].
    unfold inWatched in *; cbn [watched with_watched].
    now rewrite existsb_wd_update.
  - split; [|split; [reflexivity|split; [|discriminate]]].
    + unfold inWatched; cbn [watched with_watched with_watchlist].
      rewrite existsb_snoc, wd_match_refl; apply orb_true_r.
    + intros _; unfold inWatchlist; cbn [watchlist with_watchlist].
      destruct (existsb _ _) eqn:E; [|reflexivity].
      apply existsb_exists in E as [x [Hin Hx]].
      apply filter_In in Hin as [_ Hneg]; rewrite Hx in Hneg; discriminate.
Qed.

(** When markAsWatched succeeds, and what it says: for a valid input whose
    notes do not hold the character U+0000, a user who has a row in users
    and a provider that answers with the record of the film asked for,
    released, the call succeeds; afterwards the pair has
    a WatchedEntry, and the message tells what happened: the record was
    updated (the pair was watched before), the film was taken off the
    watchlist, or it was simply recorded.  A first marking leaves no
    WatchlistEntry for the pair. *)
Theorem markAsWatched_succeeds (env : Env) (input : MarkAsWatchedInput)
    (u : Z) (s : Db.t) (d : MovieDetails) :
  MarkAsWatchedValid input = true -> is_registered env u ->
  storable (mw_notes input) ->
  getMovieDetails env (mw_tmdb_id input) = Ok d ->
  md_tmdb_id d = mw_tmdb_id input ->
  not_released_yet env d = None ->
  exists m r s',
    markAsWatched env input u s = (Reply r, s') /\
    success r = true /\
    movieIdOf s' (mw_tmdb_id input) = Some m /\
    inWatched s' u m = true /\
    message r = (if inWatched s u m then "Updated watch record with new rating."
                 else if inWatchlist s u m
                      then "Movie marked as watched and removed from watchlist."
                      else "Movie marked as watched.") /\
    (inWatched s u m = false -> inWatchlist s' u m = false).
Proof.
  intros Hvalid Hreg Hnotes Hd Hid Hrel; pose proof (proj1 Hreg) as Hu.
  rewrite markAsWatched_valid, handleMarkAsWatched_eval by assumption.
  rewrite Hd, Hrel.
  destruct (movieIdOf s (mw_tmdb_id input)) as [m|] eqn:Hm.
  - destruct (mark_for_valid env input u m s Hvalid Hreg Hnotes)
      as [r [s1 [-> [Hs [Hmsg [Hw [Hmov [Hclr _]]]]]]]].
    exists m, r, s1; repeat split; auto.
    unfold movieIdOf in *; now rewrite Hmov.
  - assert (Hfree : existsb (fun r => m_tmdb_id r =? md_tmdb_id d) (movies s) = false).
    { rewrite Hid; apply filter_nil_existsb; now apply movieIdOf_absent. }
    rewrite Hfree.
    destruct (mark_for_valid env input u (movies_id_seq s) (with_new_movie s d)
                Hvalid Hreg Hnotes)
      as [r [s1 [-> [Hs [Hmsg [Hw [Hmov [Hclr _]]]]]]]].
    exists (movies_id_seq s), r, s1; repeat split; auto.
    pose proof (movieIdOf_new_movie s d _ Hm Hid) as Hnew.
    unfold movieIdOf in *; now rewrite Hmov.
Qed.

Lemma markAsWatched_succeeds_witness :
  exists m r s',
    markAsWatched two_films (mkMark 550 4 None) 1
      (snd (addToWatchlist two_films (mkAdd 550 None) 1 Db.empty)) = (Reply r, s') /\
    success r = true /\
    movieIdOf s' 550 = Some m /\
    inWatched s' 1 m = true /\
    message r = (if inWatched (snd (addToWatchlist two_films (mkAdd 550 None) 1 Db.empty)) 1 m
                 then "Updated watch record with new rating."
                 else if inWatchlist (snd (addToWatchlist two_films (mkAdd 550 None) 1 Db.empty)) 1 m
                      then "Movie marked as watched and removed from watchlist."
                      else "Movie marked as watched.") /\
    (inWatched (snd (addToWatchlist two_films (mkAdd 550 None) 1 Db.empty)) 1 m = false ->
     inWatchlist s' 1 m = false).
Proof.
  assert (Hreg : is_registered two_films 1)
    by (split; [discriminate | now left]).
  exact (markAsWatched_succeeds two_films (mkMark 550 4 None) 1
           (snd (addToWatchlist two_films (mkAdd 550 None) 1 Db.empty))
           (mkDetails 550 "Fight Club" (Some (10, "October 15, 1999")))
           eq_refl Hreg eq_refl eq_refl eq_refl eq_refl).
Defined.

(** Rating again: marking a pair that already has a WatchedEntry, with
    notes that do not hold the character U+0000, replaces that entry, where
    it stands, by one with the rating, the notes and the date of the call,
    and adds none; every entry of another pair is kept as it is, in its
    place.  The notes are replaced even when the call gives
    none (or the empty string), which erases the earlier note.  The
    watchlist and the MediaRecords are left as they are. *)
Theorem markAsWatched_rerating (env : Env) (input : MarkAsWatchedInput)
    (u m : Z) (s : Db.t) (d : MovieDetails) :
  MarkAsWatchedValid input = true -> u <> 0 -> storable (mw_notes input) ->
  getMovieDetails env (mw_tmdb_id input) = Ok d ->
  not_released_yet env d = None ->
  movieIdOf s (mw_tmdb_id input) = Some m -> inWatched s u m = true ->
  exists s',
    markAsWatched env input u s
    = (Reply {| success := true;
                message := "Updated watch record with new rating." |}, s') /\
    watched s'
    = map (fun row => if wd_match u m row
                      then mkWatched u m (mw_rating input)
                             (notes_or_null (mw_notes input)) (now env)
                      else row) (watched s) /\
    filter (fun row => negb (wd_match u m row)) (watched s')
    = filter (fun row => negb (wd_match u m row)) (watched s) /\
    List.length (watched s') = List.length (watched s) /\
    watchlist s' = watchlist s /\ movies s' = movies s /\
    (mw_notes input = None \/ mw_notes input = Some EmptyString ->
     forall row, In row (watched s') -> wd_match u m row = true ->
                 wd_notes row = None).
Proof.
  intros Hvalid Hu Hstorable Hd Hrel Hm Hw.
  rewrite markAsWatched_valid, handleMarkAsWatched_eval by assumption.
  rewrite Hd, Hrel, Hm; unfold mark_for.
  rewrite (storable_notes_or_null _ Hstorable).
  rewrite (valid_rating_check _ Hvalid), Hw; cbn [negb].
  eexists; split; [reflexivity|]; cbn [watched watchlist movies with_watched].
  split; [reflexivity|]; split; [|split; [apply length_map|]].
  - induction (watched s) as [|x l IH]; cbn; [reflexivity|].
    destruct (wd_match u m x) eqn:E; cbn.
    + rewrite wd_match_refl; cbn; exact IH.
    + rewrite E; cbn; now rewrite IH.
  - split; [reflexivity|]; split; [reflexivity|].
    intros Hnotes row Hin Hrow; apply in_map_iff in Hin as [x [Hx Hin]].
    destruct (wd_match u m x) eqn:E; subst row; [|congruence].
    cbn; destruct Hnotes as [-> | ->]; reflexivity.
Qed.

Lemma markAsWatched_rerating_witness :
  exists s',
    markAsWatched two_films_later (mkMark 550 2 None) 1
      (snd (markAsWatched two_films (mkMark 550 5 (Some "a classic")) 1 Db.empty))
    = (Reply {| success := true;
                message := "Updated watch record with new rating." |}, s') /\
    map wd_notes (watched (snd (markAsWatched two_films
                                  (mkMark 550 5 (Some "a classic")) 1 Db.empty)))
    = [Some "a classic"] /\
    forall row, In row (watched s') -> wd_match 1 1 row = true ->
                wd_notes row = None.
Proof.
  destruct (markAsWatched_rerating two_films_later (mkMark 550 2 None) 1 1
              (snd (markAsWatched two_films (mkMark 550 5 (Some "a classic")) 1
                      Db.empty))
              (mkDetails 550 "Fight Club" (Some (10, "October 15, 1999")))
              eq_refl ltac:(discriminate) eq_refl eq_refl eq_refl eq_refl eq_refl)
    as [s' [Hcall [_ [_ [_ [_ [_ Hnotes]]]]]]].
  exists s'; split; [exact Hcall|]; split; [reflexivity|].
  apply Hnotes; now left.
Defined.

(** *** What one call can do *)

Lemma movies_step_refl s : movies_step s s.
Proof. split; [lia | now left]. Qed.

Lemma movies_step_rollback s sx :
  movies_id_seq s <= movies_id_seq sx -> movies_step s (rollback s sx).
Proof. intros H; split; [exact H | now left]. Qed.

Lemma rating_check_bounds rating :
  rating_check rating = true -> 1 <= rating <= 5.
Proof.
  unfold rating_check; intros H; apply andb_true_iff in H as [H1 H2].
  apply Z.leb_le in H1; apply Z.leb_le in H2; lia.
Qed.

Lemma refused_user_None relation env u :
  refused_user relation env u = None ->
  u <> 0 /\ registered (users env) u = true.
Proof.
  unfold refused_user; destruct (u =? 0) eqn:Hu; [discriminate|].
  apply Z.eqb_neq in Hu.
  destruct (registered (users env) u); [auto | discriminate].
Qed.

Lemma add_for_step env input u m s0 :
  (is_ok (fst (add_for env input u m s0)) = true ->
   entries_step (users env) u s0 (snd (add_for env input u m s0))) /\
  movies (snd (add_for env input u m s0)) = movies s0 /\
  movies_id_seq (snd (add_for env input u m s0)) = movies_id_seq s0 /\
  preferences (snd (add_for env input u m s0)) = preferences s0.
Proof.
  unfold add_for; destruct (inWatchlist s0 u m) eqn:E; cbn.
  - split; [intros _; now apply step_nothing | auto].
  - destruct (text_refused _); [cbn; split; [discriminate | auto]|].
    destruct (refused_user "watchlist" env u) eqn:Hr; cbn.
    + split; [discriminate | auto].
    + apply refused_user_None in Hr as [Hu Hreg].
      split; [intros _ | auto].
      eapply step_added; [exact Hu | exact Hreg | exact E | reflexivity | reflexivity].
Qed.

Lemma mark_for_step env input u m s0 :
  (is_ok (fst (mark_for env input u m s0)) = true ->
   entries_step (users env) u s0 (snd (mark_for env input u m s0))) /\
  movies (snd (mark_for env input u m s0)) = movies s0 /\
  movies_id_seq (snd (mark_for env input u m s0)) = movies_id_seq s0 /\
  preferences (snd (mark_for env input u m s0)) = preferences s0.
Proof.
  unfold mark_for.
  destruct (text_refused _); [cbn; split; [discriminate | auto]|].
  destruct (inWatched s0 u m) eqn:E.
  - destruct (rating_check (mw_rating input)) eqn:Hr; cbn [negb].
    2:{ cbn; split; [discriminate | auto]. }
    apply rating_check_bounds in Hr; cbn; split; [intros _ | auto].
    eapply step_rerated; [exact Hr | reflexivity | reflexivity].
  - destruct (u =? 0); [cbn; split; [discriminate | auto]|].
    destruct (rating_check (mw_rating input)) eqn:Hr; cbn [negb].
    2:{ cbn; split; [discriminate | auto]. }
    apply rating_check_bounds in Hr.
    destruct (refused_user "watched" env u) eqn:Hu; cbn.
    + split; [discriminate | auto].
    + apply refused_user_None in Hu as [Hu Hreg].
      split; [intros _ | auto].
      eapply step_watched;
        [exact Hu | exact Hreg | exact Hr | exact E | reflexivity | reflexivity].
Qed.

(** One call, seen from the store: it touches no preference, changes the
    MediaRecords by at most one insertion, and the entries in one of the
    five ways of [entries_step]; when it is answered with an error, every
    table is as before. *)
Lemma callTool_step env c s :
  movies_step s (snd (callTool env c s)) /\
  entries_step (users env) (userOf c) s (snd (callTool env c s)) /\
  preferences (snd (callTool env c s)) = preferences s /\
  (isError (fst (callTool env c s)) = true -> same_rows s (snd (callTool env c s))).
Proof.
  assert (Hsame : movies_step s s /\ entries_step (users env) (userOf c) s s /\
                  preferences s = preferences s /\ same_rows s s).
  { repeat split; try lia; [now left | now apply step_nothing]. }
  assert (Hroll : forall sx, movies_id_seq s <= movies_id_seq sx ->
             movies_step s (rollback s sx) /\
             entries_step (users env) (userOf c) s (rollback s sx) /\
             preferences (rollback s sx) = preferences s /\
             same_rows s (rollback s sx)).
  { intros sx Hle; repeat split; cbn; try lia; [now left | now apply step_nothing]. }
  assert (Hrest : forall u (s0 s1 : Db.t),
             entries_step (users env) u s0 s1 ->
             watchlist s0 = watchlist s -> watched s0 = watched s ->
             entries_step (users env) u s s1).
  { intros u s0 s1 Hstep Hwl0 Hwd0.
    destruct Hstep as [Hwl Hwd | m notes at_ Hu Hreg Hnot Hwl Hwd | m Hwl Hwd
                      | m rating notes at_ Hr Hwl Hwd
                      | m rating notes at_ Hu Hreg Hr Hnot Hwl Hwd];
      unfold inWatchlist, inWatched in *; rewrite ?Hwl0, ?Hwd0 in *.
    - now apply step_nothing.
    - eapply step_added; eauto.
    - eapply step_removed; eauto.
    - eapply step_rerated; eauto.
    - eapply step_watched; eauto. }
  unfold callTool.
  destruct (userOf c =? 0) eqn:Hu0; [cbn; tauto|].
  apply Z.eqb_neq in Hu0.
  destruct c as [u input | u tmdb_id | u input]; cbn [userOf] in *.
  - (* addToWatchlist *)
    destruct (0 <? aw_tmdb_id input) eqn:Hpos.
    2:{ unfold addToWatchlist, withToolHandler, AddToWatchlistSchema.
        rewrite Hpos; cbn; tauto. }
    apply Z.ltb_lt in Hpos.
    rewrite addToWatchlist_valid, handleAddToWatchlist_eval by exact Hpos.
    destruct (movieIdOf s (aw_tmdb_id input)) as [m|].
    + destruct (add_for_step env input u m s) as [He [Hm [Hs Hp]]].
      destruct (add_for env input u m s) as [[r|e] s1]; cbn in *.
      * split; [split; [lia | now left]|].
        split; [now apply He|]; split; [exact Hp | discriminate].
      * destruct (Hroll s1) as [H1 [H2 [H3 H4]]]; [lia | tauto].
    + destruct (getMovieDetails env (aw_tmdb_id input)) as [d|e].
      2:{ cbn; rewrite rollback_id; tauto. }
      destruct (existsb _ (movies s)) eqn:Hfree.
      { cbn; destruct (Hroll (seq_advanced s)) as [H1 [H2 [H3 H4]]];
          [cbn; lia | tauto]. }
      destruct (add_for_step env input u (movies_id_seq s) (with_new_movie s d))
        as [He [Hm [Hs Hp]]].
      destruct (add_for env input u (movies_id_seq s) (with_new_movie s d))
        as [[r|e] s1]; cbn in *.
      * split; [split; [cbn in *; lia | right; exists d; cbn in *; auto]|].
        split; [|split; [exact Hp | discriminate]].
        apply (Hrest u (with_new_movie s d) s1 (He eq_refl)); reflexivity.
      * destruct (Hroll s1) as [H1 [H2 [H3 H4]]]; [lia | tauto].
  - (* removeFromWatchlist *)
    destruct (0 <? tmdb_id) eqn:Hpos.
    2:{ unfold removeFromWatchlist, withToolHandler, RemoveFromWatchlistSchema.
        rewrite Hpos; cbn; tauto. }
    apply Z.ltb_lt in Hpos.
    rewrite removeFromWatchlist_eval by exact Hpos.
    destruct (filter _ (movies s)) as [|row rest]; [cbn; tauto|].
    cbn [fst snd]; split; [split; [cbn; lia | now left]|].
    split; [|split; [reflexivity | discriminate]].
    eapply step_removed; reflexivity.
  - (* markAsWatched *)
    destruct (MarkAsWatchedValid input) eqn:Hvalid.
    2:{ unfold markAsWatched, withToolHandler, MarkAsWatchedSchema.
        rewrite Hvalid; cbn; tauto. }
    rewrite markAsWatched_valid, handleMarkAsWatched_eval by assumption.
    destruct (getMovieDetails env (mw_tmdb_id input)) as [d|e].
    2:{ cbn; rewrite rollback_id; tauto. }
    destruct (not_released_yet env d).
    { cbn; rewrite rollback_id; tauto. }
    destruct (movieIdOf s (mw_tmdb_id input)) as [m|].
    + destruct (mark_for_step env input u m s) as [He [Hm [Hs Hp]]].
      destruct (mark_for env input u m s) as [[r|e] s1]; cbn in *.
      * split; [split; [cbn; lia | now left]|].
        split; [now apply He|]; split; [exact Hp | discriminate].
      * destruct (Hroll s1) as [H1 [H2 [H3 H4]]]; [lia | tauto].
    + destruct (existsb _ (movies s)) eqn:Hfree.
      { cbn; destruct (Hroll (seq_advanced s)) as [H1 [H2 [H3 H4]]];
          [cbn; lia | tauto]. }
      destruct (mark_for_step env input u (movies_id_seq s) (with_new_movie s d))
        as [He [Hm [Hs Hp]]].
      destruct (mark_for env input u (movies_id_seq s) (with_new_movie s d))
        as [[r|e] s1]; cbn in *.
      * split; [split; [cbn in *; lia | right; exists d; cbn in *; auto]|].
        split; [|split; [exact Hp | discriminate]].
        apply (Hrest u (with_new_movie s d) s1 (He eq_refl)); reflexivity.
      * destruct (Hroll s1) as [H1 [H2 [H3 H4]]]; [lia | tauto].
Qed.

(** A call that is answered with an error commits nothing: whatever the
    tool (addToWatchlist, removeFromWatchlist, markAsWatched) and the reason
    (validation, missing user, provider failure, unreleased film, unknown
    film), every table is as it was before the call. *)
Theorem error_commits_nothing (env : Env) (c : call) (s : Db.t) :
  isError (fst (callTool env c s)) = true ->
  same_rows s (snd (callTool env c s)).
Proof. apply callTool_step. Qed.

Lemma error_commits_nothing_witness :
  isError (fst (callTool two_films (MarkAsWatched 1 (mkMark 7 3 None))
                  (snd (callTool two_films (AddToWatchlist 1 (mkAdd 550 None))
                          Db.empty)))) = true /\
  same_rows (snd (callTool two_films (AddToWatchlist 1 (mkAdd 550 None)) Db.empty))
    (snd (callTool two_films (MarkAsWatched 1 (mkMark 7 3 None))
            (snd (callTool two_films (AddToWatchlist 1 (mkAdd 550 None))
                    Db.empty)))).
Proof.
  split; [reflexivity|].
  apply (error_commits_nothing two_films (MarkAsWatched 1 (mkMark 7 3 None))
           (snd (callTool two_films (AddToWatchlist 1 (mkAdd 550 None)) Db.empty)));
    reflexivity.
Defined.

(** *** What no sequence of calls does *)

(** MediaRecords are never deleted, changed or reordered: after any sequence
    of calls the table starts with the rows it had. *)
Theorem movies_never_deleted (calls : list (Env * call)) (s : Db.t) :
  exists added, movies (run calls s) = movies s ++ added.
Proof.
  revert s; induction calls as [|[env c] rest IH]; intros s; cbn.
  - exists []; now rewrite app_nil_r.
  - destruct (IH (snd (callTool env c s))) as [added Hrest].
    destruct (callTool_step env c s) as [[_ [Hsame | [d [_ [_ Hnew]]]]] _];
      rewrite Hrest.
    + rewrite Hsame; eauto.
    + rewrite Hnew, <- app_assoc; eauto.
Qed.

Lemma entries_step_watched_kept us u s s' u0 m0 :
  entries_step us u s s' -> inWatched s u0 m0 = true -> inWatched s' u0 m0 = true.
Proof.
  unfold inWatched.
  intros [Hwl Hwd | m notes at_ _ _ Hnot Hwl Hwd | m Hwl Hwd
         | m rating notes at_ Hr Hwl Hwd
         | m rating notes at_ _ _ Hr Hnot Hwl Hwd] H;
    rewrite Hwd; auto.
  - now rewrite existsb_wd_update.
  - now rewrite existsb_snoc, H.
Qed.

(** Watched is terminal: no sequence of addToWatchlist, removeFromWatchlist
    and markAsWatched calls, by any user, removes a WatchedEntry. *)
Theorem watched_is_terminal (calls : list (Env * call)) (s : Db.t) (u m : Z) :
  inWatched s u m = true -> inWatched (run calls s) u m = true.
Proof.
  revert s; induction calls as [|[env c] rest IH]; intros s H; cbn; [exact H|].
  apply IH.
  destruct (callTool_step env c s) as [_ [Hstep _]].
  eapply entries_step_watched_kept; eauto.
Qed.

Lemma watched_is_terminal_witness :
  inWatched (run watched_then_added Db.empty) 1 1 = true /\
  inWatched (run [(two_films, RemoveFromWatchlist 1 550);
                  (two_films, AddToWatchlist 1 (mkAdd 550 None));
                  (two_films, MarkAsWatched 2 (mkMark 550 1 None))]
               (run watched_then_added Db.empty)) 1 1 = true.
Proof.
  split; [reflexivity|].
  apply (watched_is_terminal _ (run watched_then_added Db.empty) 1 1); reflexivity.
Defined.

Lemma entries_step_ratings us u s s' :
  entries_step us u s s' -> ratings_in_range s -> ratings_in_range s'.
Proof.
  unfold ratings_in_range.
  intros [Hwl Hwd | m notes at_ _ _ Hnot Hwl Hwd | m Hwl Hwd
         | m rating notes at_ Hr Hwl Hwd
         | m rating notes at_ _ _ Hr Hnot Hwl Hwd] H r;
    rewrite Hwd; auto.
  - intros Hin; apply in_map_iff in Hin as [x [Hx Hin]].
    destruct (wd_match u m x); subst r; cbn; auto.
  - intros Hin; apply in_app_or in Hin as [Hin | [<- | []]]; cbn; auto.
Qed.

(** Every rating of the watch history is between 1 and 5, in every state
    reached from the empty store by the three tools. *)
Theorem ratings_stay_in_range (calls : list (Env * call)) :
  ratings_in_range (run calls Db.empty).
Proof.
  assert (H : forall s, ratings_in_range s -> ratings_in_range (run calls s)).
  { induction calls as [|[env c] rest IH]; intros s Hs; cbn; [exact Hs|].
    apply IH.
    destruct (callTool_step env c s) as [_ [Hstep _]].
    eapply entries_step_ratings; eauto. }
  apply H; intros r [].
Qed.

Lemma filter_filter_implied {A} (p q : A -> bool) (l : list A) :
  (forall x, p x = true -> q x = true) ->
  filter p (filter q l) = filter p l.
Proof.
  intros Himp; induction l as [|x l IH]; cbn; [reflexivity|].
  destruct (q x) eqn:Eq; cbn; rewrite IH; [reflexivity|].
  destruct (p x) eqn:Ep; [|reflexivity].
  rewrite (Himp x Ep) in Eq; discriminate.
Qed.

Lemma entries_step_other_user us u s s' u' :
  entries_step us u s s' -> u' <> u ->
  watchlist_of s' u' = watchlist_of s u' /\ watched_of s' u' = watched_of s u'.
Proof.
  unfold watchlist_of, watched_of; intros Hstep Hne.
  assert (Hu : (u =? u') = false) by (apply Z.eqb_neq; congruence).
  assert (Hdel : forall m l,
             filter (fun r => wl_user_id r =? u')
                    (filter (fun r => negb (wl_match u m r)) l)
             = filter (fun r => wl_user_id r =? u') l).
  { intros m l; apply filter_filter_implied; intros x Hx.
    apply Z.eqb_eq in Hx; unfold wl_match; rewrite Hx.
    assert ((u' =? u) = false) as -> by (apply Z.eqb_neq; congruence).
    reflexivity. }
  destruct Hstep as [Hwl Hwd | m notes at_ _ _ Hnot Hwl Hwd | m Hwl Hwd
                    | m rating notes at_ Hr Hwl Hwd
                    | m rating notes at_ _ _ Hr Hnot Hwl Hwd];
    rewrite Hwl, Hwd; try (split; reflexivity).
  - rewrite filter_app; cbn; rewrite Hu; now rewrite app_nil_r.
  - now rewrite Hdel.
  - split; [reflexivity|]; clear Hwl Hwd.
    induction (watched s) as [|x l IH]; cbn; [reflexivity|].
    destruct (wd_match u m x) eqn:E; cbn; [|now rewrite IH].
    apply wd_match_iff in E as [E _]; rewrite Hu, IH.
    assert ((wd_user_id x =? u') = false) as ->
      by (apply Z.eqb_neq; congruence).
    reflexivity.
  - rewrite Hdel, filter_app; cbn; rewrite Hu; now rewrite app_nil_r.
Qed.

(** Users are isolated: calls made by other users, whatever they are, leave
    the WatchlistEntry and WatchedEntry rows of a user exactly as they
    were. *)
Theorem users_are_isolated (calls : list (Env * call)) (s : Db.t) (u' : Z) :
  forallb (fun ec => negb (userOf (snd ec) =? u')) calls = true ->
  watchlist_of (run calls s) u' = watchlist_of s u' /\
  watched_of (run calls s) u' = watched_of s u'.
Proof.
  revert s; induction calls as [|[env c] rest IH]; intros s H; cbn in *; [auto|].
  apply andb_true_iff in H as [Hc Hrest].
  apply negb_true_iff, Z.eqb_neq in Hc.
  destruct (IH (snd (callTool env c s)) Hrest) as [H1 H2].
  destruct (callTool_step env c s) as [_ [Hstep _]].
  destruct (entries_step_other_user _ _ _ _ u' Hstep) as [H3 H4]; [congruence|].
  split; congruence.
Qed.

Lemma users_are_isolated_witness :
  watchlist_of (run watchlist_then_watched Db.empty) 2 <> [] /\
  watchlist_of (run [(two_films, RemoveFromWatchlist 1 550);
                     (two_films, MarkAsWatched 3 (mkMark 550 5 None))]
                  (run watchlist_then_watched Db.empty)) 2
  = watchlist_of (run watchlist_then_watched Db.empty) 2 /\
  watched_of (run [(two_films, RemoveFromWatchlist 1 550);
                   (two_films, MarkAsWatched 3 (mkMark 550 5 None))]
                (run watchlist_then_watched Db.empty)) 2
  = watched_of (run watchlist_then_watched Db.empty) 2.
Proof.
  split; [discriminate|].
  apply (users_are_isolated _ (run watchlist_then_watched Db.empty) 2); reflexivity.
Defined.

(** *** Users without a row in users *)

Lemma entries_step_unregistered us u s s' :
  entries_step us u s s' -> registered us u = false ->
  (List.length (watchlist s') <= List.length (watchlist s))%nat /\
  List.length (watched s') = List.length (watched s).
Proof.
  intros [Hwl Hwd | m notes at_ _ Hreg Hnot Hwl Hwd | m Hwl Hwd
         | m rating notes at_ Hr Hwl Hwd
         | m rating notes at_ _ Hreg Hr Hnot Hwl Hwd] Hno;
    try congruence; rewrite Hwl, Hwd.
  - split; [apply le_n | reflexivity].
  - split; [apply filter_length_le | reflexivity].
  - split; [apply le_n | apply length_map].
Qed.

(** A call made for a user id that has no row in users adds no entry: after
    addToWatchlist, removeFromWatchlist or markAsWatched for such a user the
    watchlist has no more rows than before and the watch history has as many
    as before.  When the call is an addToWatchlist for a film that is not in
    the user's watchlist, it is answered with an error. *)
Theorem unregistered_user_adds_nothing (env : Env) (c : call) (s : Db.t) :
  registered (users env) (userOf c) = false ->
  (List.length (watchlist (snd (callTool env c s)))
   <= List.length (watchlist s))%nat /\
  List.length (watched (snd (callTool env c s))) = List.length (watched s) /\
  forall input m,
    c = AddToWatchlist (userOf c) input ->
    movieIdOf s (aw_tmdb_id input) = Some m -> inWatchlist s (userOf c) m = false ->
    isError (fst (callTool env c s)) = true.
Proof.
  intros Hno.
  destruct (callTool_step env c s) as [_ [Hstep _]].
  destruct (entries_step_unregistered _ _ _ _ Hstep Hno) as [Hwl Hwd].
  split; [exact Hwl|]; split; [exact Hwd|].
  intros input m Hc Hm Hnot; rewrite Hc in *; cbn [userOf] in *.
  unfold callTool; cbn [userOf].
  destruct (userOf c =? 0) eqn:Hu; [reflexivity|].
  unfold addToWatchlist, withToolHandler.
  destruct (AddToWatchlistSchema input) as [v|e] eqn:Ev; [|reflexivity].
  assert (v = input) as ->
    by (unfold AddToWatchlistSchema in Ev; destruct (0 <? _); congruence).
  unfold transaction; rewrite handleAddToWatchlist_eval, Hm.
  unfold add_for, refused_user; rewrite Hnot, Hu, Hno.
  destruct (text_refused _); reflexivity.
Qed.

Lemma unregistered_user_adds_nothing_witness :
  registered (users two_films) 9 = false /\
  isError (fst (callTool two_films (AddToWatchlist 9 (mkAdd 550 None))
                  (run [(two_films, AddToWatchlist 1 (mkAdd 550 None))] Db.empty)))
  = true /\
  watchlist (snd (callTool two_films (AddToWatchlist 9 (mkAdd 550 None))
                    (run [(two_films, AddToWatchlist 1 (mkAdd 550 None))] Db.empty)))
  = watchlist (run [(two_films, AddToWatchlist 1 (mkAdd 550 None))] Db.empty).
Proof.
  split; [reflexivity|].
  destruct (unregistered_user_adds_nothing two_films
              (AddToWatchlist 9 (mkAdd 550 None))
              (run [(two_films, AddToWatchlist 1 (mkAdd 550 None))] Db.empty)
              eq_refl) as [_ [_ Herr]].
  split; [|reflexivity].
  apply (Herr (mkAdd 550 None) 1); reflexivity.
Defined.

(** *** Batches and single calls *)

Lemma markAsWatched_snd env entry u s :
  MarkAsWatchedValid entry = true -> u <> 0 ->
  snd (callTool env (MarkAsWatched u entry) s)
  = snd (transaction (handleMarkAsWatched env entry u) s).
Proof.
  intros Hvalid Hu; unfold callTool; cbn [userOf].
  apply Z.eqb_neq in Hu; rewrite Hu.
  unfold markAsWatched, withToolHandler, MarkAsWatchedSchema.
  rewrite Hvalid, Hu.
  destruct (transaction (handleMarkAsWatched env entry u) s) as [[r|e] s'];
    reflexivity.
Qed.

Lemma independent_transactions_run env u todo : forall s,
  forallb MarkAsWatchedValid todo = true -> u <> 0 ->
  snd (independent_transactions env u todo s)
  = run (map (fun entry => (env, MarkAsWatched u entry)) todo) s.
Proof.
  induction todo as [|entry rest IH]; intros s Hvalid Hu; cbn; [reflexivity|].
  cbn in Hvalid; apply andb_true_iff in Hvalid as [Hentry Hrest].
  rewrite (markAsWatched_snd env entry u s Hentry Hu).
  destruct (transaction (handleMarkAsWatched env entry u) s) as [outcome s1].
  specialize (IH s1 Hrest Hu).
  destruct (independent_transactions env u rest s1) as [reports s2]; cbn in *.
  exact IH.
Qed.

(** A best-effort batch is the sequence of its single calls: for a valid
    input and a user, the store after [markAsWatchedBatch] with
    [transaction = false] is the store after calling the markAsWatched tool
    on each entry in turn. *)
Theorem best_effort_batch_is_sequence (env : Env) (input : MarkAsWatchedBatchInput)
    (u : Z) (s : Db.t) :
  transaction_flag input = Some false -> u <> 0 ->
  entries input <> [] -> forallb MarkAsWatchedValid (entries input) = true ->
  snd (markAsWatchedBatch env input u s)
  = run (map (fun entry => (env, MarkAsWatched u entry)) (entries input)) s.
Proof.
  intros Hflag Hu Hne Hvalid.
  rewrite <- (independent_transactions_run env u (entries input) s Hvalid Hu).
  unfold markAsWatchedBatch, MarkAsWatchedBatchSchema.
  rewrite Hflag, Hvalid.
  destruct (entries input) as [|e0 rest] eqn:E; [congruence|].
  tx; rewrite best_effort_loop_independent; reflexivity.
Qed.

Lemma best_effort_batch_is_sequence_witness :
  snd (markAsWatchedBatch demo_env (batch_unreleased_second (Some false)) 1 Db.empty)
  = run [(demo_env, MarkAsWatched 1 (mkMark 1 5 None));
         (demo_env, MarkAsWatched 1 (mkMark 2 3 None));
         (demo_env, MarkAsWatched 1 (mkMark 3 4 None))] Db.empty.
Proof.
  apply (best_effort_batch_is_sequence demo_env
           (batch_unreleased_second (Some false)) 1 Db.empty);
    [reflexivity | discriminate | discriminate | reflexivity].
Defined.

(** *** Reading the watch history and the watchlist *)

Lemma insert_by_In {A} (key : A -> Z) (x y : A) (l : list A) :
  In y (insert_by key x l) <-> y = x \/ In y l.
Proof.
  induction l as [|z l IH]; cbn; [intuition congruence|].
  destruct (key z <=? key x); cbn; [intuition congruence|].
  rewrite IH; intuition congruence.
Qed.

Lemma order_by_desc_In {A} (key : A -> Z) (y : A) (l : list A) :
  In y (order_by_desc key l) <-> In y l.
Proof.
  induction l as [|x l IH]; cbn; [tauto|].
  rewrite insert_by_In, IH; intuition congruence.
Qed.

Lemma insert_by_descending {A} (key : A -> Z) (x : A) (l : list A) :
  descending key l -> descending key (insert_by key x l).
Proof.
  induction l as [|z l IH]; cbn; intros Hd; [split; [constructor | exact I]|].
  destruct Hd as [Hall Hd].
  destruct (key z <=? key x) eqn:E; cbn.
  - apply Z.leb_le in E; split; [|split; assumption].
    constructor; [exact E|].
    eapply Forall_impl; [|exact Hall]; cbn; intros a Ha; lia.
  - apply Z.leb_gt in E; split; [|auto].
    apply Forall_forall; intros a Ha; apply insert_by_In in Ha as [-> | Ha]; [lia|].
    rewrite Forall_forall in Hall; auto.
Qed.

Lemma order_by_desc_descending {A} (key : A -> Z) (l : list A) :
  descending key (order_by_desc key l).
Proof.
  induction l as [|x l IH]; cbn; [exact I | now apply insert_by_descending].
Qed.

Lemma filter_insert_by {A} (key : A -> Z) (p : A -> bool) (x : A) (l : list A) :
  descending key l ->
  filter p (insert_by key x l)
  = if p x then insert_by key x (filter p l) else filter p l.
Proof.
  induction l as [|z l IH]; cbn; intros Hd; [now destruct (p x)|].
  destruct Hd as [Hall Hd].
  destruct (key z <=? key x) eqn:E; cbn.
  - destruct (p x) eqn:Px; [|reflexivity].
    destruct (p z) eqn:Pz; cbn; [now rewrite E|].
    destruct (filter p l) as [|a rest] eqn:F; [reflexivity|]; cbn.
    assert (In a l) as Ha by (apply (filter_In p); rewrite F; now left).
    rewrite Forall_forall in Hall; specialize (Hall a Ha).
    apply Z.leb_le in E.
    assert ((key a <=? key x) = true) as -> by (apply Z.leb_le; lia).
    reflexivity.
  - rewrite (IH Hd).
    destruct (p z) eqn:Pz; destruct (p x) eqn:Px; cbn; try reflexivity.
    now rewrite E.
Qed.

Lemma filter_order_by_desc {A} (key : A -> Z) (p : A -> bool) (l : list A) :
  filter p (order_by_desc key l) = order_by_desc key (filter p l).
Proof.
  induction l as [|x l IH]; [reflexivity|].
  change (order_by_desc key (x :: l)) with (insert_by key x (order_by_desc key l)).
  rewrite filter_insert_by by apply order_by_desc_descending.
  cbn [filter]; destruct (p x); rewrite IH; reflexivity.
Qed.

Lemma filter_map_comm {A B} (g : A -> B) (p : B -> bool) (l : list A) :
  filter p (map g l) = map g (filter (fun a => p (g a)) l).
Proof.
  induction l as [|x l IH]; cbn; [reflexivity|].
  destruct (p (g x)); cbn; now rewrite IH.
Qed.

Lemma watched_join_min u r s :
  watched_join u (Some r) s
  = filter (fun wm => r <=? wd_rating (fst wm)) (watched_join u None s).
Proof.
  unfold watched_join.
  induction (watched s) as [|w l IH]; cbn; [reflexivity|].
  destruct (wd_user_id w =? u); cbn; [|exact IH].
  rewrite filter_app, <- IH, filter_map_comm; cbn [fst].
  destruct (r <=? wd_rating w) eqn:E; cbn [flat_map].
  - f_equal; f_equal; symmetry.
    induction (filter _ (movies s)) as [|x rest IHm]; cbn; [reflexivity|].
    now rewrite IHm.
  - replace (filter (fun _ : MovieRow => false) _) with (@nil MovieRow);
      [reflexivity|].
    induction (filter _ (movies s)) as [|x rest IHm]; cbn; auto.
Qed.

(** The watch history and its minimum-rating filter.  For a user,
    getWatchedMovies lists exactly the user's WatchedEntries, each with the
    MediaRecord it refers to, latest first; with a minimum rating between 1
    and 5 it lists, latest first, the films of the unfiltered list whose
    rating is at least the minimum, as many times as they occur there.  The
    place of a film among those watched at the same instant is left open.
    The call changes nothing. *)
Theorem getWatchedMovies_min_rating (u r : Z) (s : Db.t) :
  u <> 0 -> 1 <= r <= 5 ->
  exists every some,
    getWatchedMovies None u s = (Reply every, s) /\
    getWatchedMovies (Some r) u s = (Reply some, s) /\
    Permutation (gw_watched some)
      (filter (fun e => r <=? wm_userRating e) (gw_watched every)) /\
    gw_count some = List.length (gw_watched some) /\
    descending wm_watched_at (gw_watched every) /\
    descending wm_watched_at (gw_watched some) /\
    (forall e,
        In e (gw_watched every) <->
        exists w m,
          In w (watched s) /\ In m (movies s) /\
          wd_user_id w = u /\ m_id m = wd_movie_id w /\
          e = mkWatchedMovie (m_tmdb_id m) (m_title m) (wd_rating w) (wd_notes w)
                             (wd_watched_at w)).
Proof.
  intros Hu Hr.
  unfold getWatchedMovies, withToolHandler, GetWatchedMoviesSchema,
    handleGetWatchedMovies; tx.
  apply Z.eqb_neq in Hu; rewrite Hu.
  assert (((1 <=? r) && (r <=? 5)) = true) as ->.
  { apply andb_true_iff; split; apply Z.leb_le; lia. }
  do 2 eexists; split; [reflexivity|]; split; [reflexivity|].
  cbn [gw_watched gw_count].
  assert (Hdesc : forall rows,
             descending wm_watched_at
               (map (fun wm => mkWatchedMovie (m_tmdb_id (snd wm)) (m_title (snd wm))
                                 (wd_rating (fst wm)) (wd_notes (fst wm))
                                 (wd_watched_at (fst wm)))
                    (order_by_desc (fun wm : WatchedRow * MovieRow =>
                                      wd_watched_at (fst wm)) rows))).
  { intros rows.
    pose proof (order_by_desc_descending
                  (fun wm : WatchedRow * MovieRow => wd_watched_at (fst wm)) rows) as H.
    induction (order_by_desc _ rows) as [|x l IH]; cbn in *; [exact I|].
    destruct H as [Hall Hd]; split; [|auto].
    apply Forall_forall; intros e He; apply in_map_iff in He as [y [<- Hy]]; cbn.
    rewrite Forall_forall in Hall; auto. }
  split; [|split; [reflexivity | split; [apply Hdesc | split; [apply Hdesc|]]]].
  - rewrite watched_join_min, <- filter_order_by_desc, filter_map_comm.
    apply Permutation_refl.
  - intros e; rewrite in_map_iff; split.
    + intros [[w m] [He Hin]]; apply order_by_desc_In in Hin.
      unfold watched_join in Hin; apply in_flat_map in Hin as [w0 [Hw Hm]].
      apply filter_In in Hw as [Hw Hwu]; rewrite andb_true_r in Hwu.
      apply in_map_iff in Hm as [m0 [Hpair Hm]]; inversion Hpair; subst w0 m0.
      apply filter_In in Hm as [Hm Hid].
      apply Z.eqb_eq in Hwu, Hid; cbn [fst snd] in He.
      exists w, m; repeat split; auto.
    + intros [w [m [Hw [Hm [Hwu [Hid ->]]]]]].
      exists (w, m); split; [reflexivity|].
      apply order_by_desc_In; unfold watched_join.
      apply in_flat_map; exists w; split.
      * apply filter_In; split; [exact Hw|].
        rewrite andb_true_r; now apply Z.eqb_eq.
      * apply in_map, filter_In; split; [exact Hm | now apply Z.eqb_eq].
Qed.

Lemma getWatchedMovies_min_rating_witness :
  exists every some,
    getWatchedMovies None 1
      (run [(demo_env, MarkAsWatched 1 (mkMark 1 5 None));
            (demo_env_later, MarkAsWatched 1 (mkMark 3 4 None))] Db.empty)
    = (Reply every,
       run [(demo_env, MarkAsWatched 1 (mkMark 1 5 None));
            (demo_env_later, MarkAsWatched 1 (mkMark 3 4 None))] Db.empty) /\
    getWatchedMovies (Some 5) 1
      (run [(demo_env, MarkAsWatched 1 (mkMark 1 5 None));
            (demo_env_later, MarkAsWatched 1 (mkMark 3 4 None))] Db.empty)
    = (Reply some,
       run [(demo_env, MarkAsWatched 1 (mkMark 1 5 None));
            (demo_env_later, MarkAsWatched 1 (mkMark 3 4 None))] Db.empty) /\
    map wm_watched_at (gw_watched every) = [2000; 1000] /\
    map wm_userRating (gw_watched every) = [4; 5] /\
    map wm_userRating (gw_watched some) = [5].
Proof.
  destruct (getWatchedMovies_min_rating 1 5
              (run [(demo_env, MarkAsWatched 1 (mkMark 1 5 None));
                    (demo_env_later, MarkAsWatched 1 (mkMark 3 4 None))] Db.empty)
              ltac:(discriminate) ltac:(lia))
    as [every [some [H1 [H2 _]]]].
  exists every, some; split; [exact H1|]; split; [exact H2|].
  vm_compute in H1, H2; inversion H1; inversion H2; repeat split; reflexivity.
Defined.

Lemma mark_for_row env input u m s0 r s1 :
  mark_for env input u m s0 = (Ok r, s1) ->
  In (mkWatched u m (mw_rating input) (notes_or_null (mw_notes input)) (now env))
     (watched s1) /\ movies s1 = movies s0.
Proof.
  unfold mark_for.
  destruct (text_refused _); [discriminate|].
  destruct (inWatched s0 u m) eqn:E.
  - destruct (negb _); [discriminate|].
    intros H; inversion H; subst; clear H;
      cbn [watched movies with_watched with_watchlist]; (split; [|reflexivity]).
    apply inWatched_iff in E as [x [Hin [Hu Hm]]].
    apply in_map_iff; exists x; split; [|exact Hin].
    assert (wd_match u m x = true) as -> by (now apply wd_match_iff).
    reflexivity.
  - destruct (u =? 0); [discriminate|].
    destruct (negb _); [discriminate|].
    destruct (refused_user _ env u); [discriminate|].
    intros H; inversion H; subst; clear H;
      cbn [watched movies with_watched with_watchlist]; (split; [|reflexivity]).
    apply in_or_app; right; now left.
Qed.

Lemma movieIdOf_row s tmdb_id m :
  movieIdOf s tmdb_id = Some m ->
  exists row, In row (movies s) /\ m_id row = m /\ m_tmdb_id row = tmdb_id.
Proof. apply movieIdOf_Some. Qed.

(** A film marked as watched is in the watch history.  When the provider
    answers a request for the film with the record of that film: after a
    markAsWatched that succeeds, getWatchedMovies for the user lists the
    film with the rating, the notes and the date of the call. *)
Theorem marked_film_is_listed (env : Env) (input : MarkAsWatchedInput)
    (u : Z) (s s' : Db.t) (r : SimpleResult) :
  markAsWatched env input u s = (Reply r, s') ->
  faithful env (mw_tmdb_id input) ->
  exists history entry,
    getWatchedMovies None u s' = (Reply history, s') /\
    In entry (gw_watched history) /\
    wm_tmdb_id entry = mw_tmdb_id input /\
    wm_userRating entry = mw_rating input /\
    wm_notes entry = notes_or_null (mw_notes input) /\
    wm_watched_at entry = now env.
Proof.
  intros H Hf.
  assert (Hvalid : MarkAsWatchedValid input = true /\ u <> 0).
  { unfold markAsWatched, withToolHandler, MarkAsWatchedSchema in H.
    destruct (MarkAsWatchedValid input); [|discriminate].
    split; [reflexivity|]; intros ->; discriminate. }
  destruct Hvalid as [Hvalid Hu].
  rewrite markAsWatched_valid, handleMarkAsWatched_eval in H by assumption.
  assert (Hrow : exists m movie,
             In movie (movies s') /\ m_id movie = m /\
             m_tmdb_id movie = mw_tmdb_id input /\
             In (mkWatched u m (mw_rating input) (notes_or_null (mw_notes input))
                           (now env)) (watched s')).
  { destruct (getMovieDetails env (mw_tmdb_id input)) as [d|e] eqn:Hd;
      [|discriminate].
    destruct (not_released_yet env d); [discriminate|].
    destruct (movieIdOf s (mw_tmdb_id input)) as [m|] eqn:Hm.
    - destruct (mark_for env input u m s) as [[r0|e] s1] eqn:Hmark;
        inversion H; subst.
      destruct (mark_for_row _ _ _ _ _ _ _ Hmark) as [Hin Hmov].
      destruct (movieIdOf_row _ _ _ Hm) as [movie [Hmin [Hid Ht]]].
      exists m, movie; rewrite Hmov; auto.
    - destruct (faithful_insertable env s _ d Hf Hd Hm) as [Hid Hfree].
      rewrite Hfree in H.
      destruct (mark_for env input u (movies_id_seq s) (with_new_movie s d))
        as [[r0|e] s1] eqn:Hmark; inversion H; subst.
      destruct (mark_for_row _ _ _ _ _ _ _ Hmark) as [Hin Hmov].
      exists (movies_id_seq s), (mkMovie (movies_id_seq s) (md_tmdb_id d) (md_title d)).
      rewrite Hmov; cbn; repeat split; auto.
      apply in_or_app; right; now left. }
  destruct Hrow as [m [movie [Hmovie [Hid [Ht Hw]]]]].
  unfold getWatchedMovies, withToolHandler, GetWatchedMoviesSchema,
    handleGetWatchedMovies; tx.
  apply Z.eqb_neq in Hu; rewrite Hu.
  eexists; exists (mkWatchedMovie (m_tmdb_id movie) (m_title movie) (mw_rating input)
                                  (notes_or_null (mw_notes input)) (now env)).
  split; [reflexivity|]; cbn [gw_watched].
  split; [|cbn; auto].
  apply in_map_iff.
  exists (mkWatched u m (mw_rating input) (notes_or_null (mw_notes input)) (now env),
          movie).
  split; [reflexivity|].
  apply order_by_desc_In; unfold watched_join.
  apply in_flat_map; eexists; split.
  - apply filter_In; split; [exact Hw|]; cbn.
    now rewrite Z.eqb_refl.
  - apply in_map, filter_In; split; [exact Hmovie|]; cbn.
    now apply Z.eqb_eq.
Qed.

Lemma marked_film_is_listed_witness :
  exists r s' history entry,
    markAsWatched two_films (mkMark 550 4 (Some "dark")) 1 Db.empty = (Reply r, s') /\
    getWatchedMovies None 1 s' = (Reply history, s') /\
    In entry (gw_watched history) /\
    wm_tmdb_id entry = 550 /\ wm_userRating entry = 4 /\
    wm_notes entry = Some "dark" /\ wm_watched_at entry = 1000.
Proof.
  do 2 eexists.
  assert (Hf : faithful two_films 550).
  { intros d Hd; vm_compute in Hd; inversion Hd; reflexivity. }
  destruct (marked_film_is_listed two_films (mkMark 550 4 (Some "dark")) 1 Db.empty
              _ _ eq_refl Hf) as [history [entry H]].
  exists history, entry; split; [reflexivity | exact H].
Defined.

(** A film added to the watchlist is listed.  When the provider answers a
    request for the film with the record of that film: after an
    addToWatchlist that added the film, getWatchlist for the user lists it
    with the date of the call and the notes given, an empty note being
    stored as none; the count of the response is the length of the list. *)
Theorem added_film_is_listed (env : Env) (input : AddToWatchlistInput)
    (u : Z) (s s1 : Db.t) (r1 : SimpleResult) :
  0 < aw_tmdb_id input -> faithful env (aw_tmdb_id input) ->
  addToWatchlist env input u s = (Reply r1, s1) -> success r1 = true ->
  gl_count (getWatchlist u s1) = List.length (gl_watchlist (getWatchlist u s1)) /\
  exists item,
    In item (gl_watchlist (getWatchlist u s1)) /\
    wi_tmdb_id item = aw_tmdb_id input /\
    wi_notes item = notes_or_null (aw_notes input) /\
    wi_added_at item = now env.
Proof.
  intros Hpos Hf H Hs; split; [reflexivity|].
  rewrite addToWatchlist_valid, handleAddToWatchlist_eval in H by exact Hpos.
  assert (Hrow : exists m movie,
             In movie (movies s1) /\ m_id movie = m /\
             m_tmdb_id movie = aw_tmdb_id input /\
             In (mkWatchlist u m (notes_or_null (aw_notes input)) (now env))
                (watchlist s1)).
  { assert (Hadd : forall m s0 movie,
               In movie (movies s0) -> m_id movie = m ->
               m_tmdb_id movie = aw_tmdb_id input ->
               add_for env input u m s0 = (Ok r1, s1) ->
               exists m0 movie0,
                 In movie0 (movies s1) /\ m_id movie0 = m0 /\
                 m_tmdb_id movie0 = aw_tmdb_id input /\
                 In (mkWatchlist u m0 (notes_or_null (aw_notes input)) (now env))
                    (watchlist s1)).
    { intros m s0 movie Hin Hid Ht Hadd.
      destruct (add_for_added _ _ _ _ _ _ _ Hadd Hs) as [_ ->].
      exists m, movie; cbn; repeat split; auto.
      apply in_or_app; right; now left. }
    destruct (movieIdOf s (aw_tmdb_id input)) as [m|] eqn:Hm.
    - destruct (movieIdOf_row _ _ _ Hm) as [movie [Hin [Hid Ht]]].
      destruct (add_for env input u m s) as [[r|e] s'] eqn:Ha;
        inversion H; subst; eauto.
    - destruct (getMovieDetails env (aw_tmdb_id input)) as [d|e] eqn:Hd;
        [|discriminate].
      destruct (faithful_insertable env s _ d Hf Hd Hm) as [Hid Hfree].
      rewrite Hfree in H.
      destruct (add_for env input u (movies_id_seq s) (with_new_movie s d))
        as [[r|e] s'] eqn:Ha; inversion H; subst.
      eapply (Hadd _ _ (mkMovie (movies_id_seq s) (md_tmdb_id d) (md_title d)));
        [| | |exact Ha]; cbn; auto.
      apply in_or_app; right; now left. }
  destruct Hrow as [m [movie [Hmovie [Hid [Ht Hw]]]]].
  exists (mkItem (m_tmdb_id movie) (m_title movie)
                 (notes_or_null (aw_notes input)) (now env)).
  split; [|cbn; auto].
  unfold getWatchlist; cbn [gl_watchlist].
  apply in_map_iff.
  exists (mkWatchlist u m (notes_or_null (aw_notes input)) (now env), movie).
  split; [reflexivity|].
  apply order_by_desc_In, in_flat_map; eexists; split.
  - apply filter_In; split; [exact Hw|]; cbn; apply Z.eqb_refl.
  - apply in_map, filter_In; split; [exact Hmovie|]; cbn.
    now apply Z.eqb_eq.
Qed.

Lemma added_film_is_listed_witness :
  exists r1 s1 item,
    addToWatchlist two_films (mkAdd 550 (Some EmptyString)) 1 Db.empty
    = (Reply r1, s1) /\
    gl_count (getWatchlist 1 s1) = 1%nat /\
    In item (gl_watchlist (getWatchlist 1 s1)) /\
    wi_tmdb_id item = 550 /\ wi_notes item = None /\ wi_added_at item = 1000.
Proof.
  do 2 eexists.
  assert (Hf : faithful two_films 550).
  { intros d Hd; vm_compute in Hd; inversion Hd; reflexivity. }
  destruct (added_film_is_listed two_films (mkAdd 550 (Some EmptyString)) 1 Db.empty
              _ _ ltac:(reflexivity) Hf eq_refl eq_refl) as [Hcount [item H]].
  exists item; split; [reflexivity|]; split; [reflexivity | exact H].
Defined.

(** *** Bulk checks *)

Lemma existsb_Zeqb_In (x : Z) (l : list Z) :
  existsb (Z.eqb x) l = true <-> In x l.
Proof.
  rewrite existsb_exists; split.
  - intros [y [Hin Heq]]; apply Z.eqb_eq in Heq; now subst.
  - intros Hin; exists x; split; [exact Hin | apply Z.eqb_refl].
Qed.

Lemma map_get_set {V} (k m : Z) (v : V) (acc : list (Z * V)) :
  map_get m (map_set k v acc) = if k =? m then Some v else map_get m acc.
Proof.
  unfold map_set; cbn.
  destruct (k =? m) eqn:E; [reflexivity|].
  induction acc as [|[k' v'] acc IH]; cbn; [reflexivity|].
  destruct (k' =? k) eqn:Ek; cbn.
  - apply Z.eqb_eq in Ek; subst k'; now rewrite E.
  - destruct (k' =? m); [reflexivity | exact IH].
Qed.

Lemma map_get_fold (m : Z) (rows : list WatchedRow) :
  forall acc,
    map_get m (fold_left
                 (fun watchedMap row =>
                    map_set (wd_movie_id row) (wd_rating row, wd_notes row) watchedMap)
                 rows acc)
    = match find (fun row => wd_movie_id row =? m) (rev rows) with
      | Some row => Some (wd_rating row, wd_notes row)
      | None => map_get m acc
      end.
Proof.
  induction rows as [|x rows IH]; intros acc; cbn; [reflexivity|].
  rewrite IH, map_get_set.
  assert (Hfind : forall l,
             find (fun row => wd_movie_id row =? m) (l ++ [x])
             = match find (fun row => wd_movie_id row =? m) l with
               | Some row => Some row
               | None => if wd_movie_id x =? m then Some x else None
               end).
  { induction l as [|y l IHl]; cbn; [reflexivity|].
    destruct (wd_movie_id y =? m); [reflexivity | exact IHl]. }
  rewrite Hfind.
  destruct (find _ (rev rows)); [reflexivity|].
  destruct (wd_movie_id x =? m); reflexivity.
Qed.

(** The bulk checks agree with the single checks: a film id is in the set
    [bulkCheckWatchlist] returns exactly when it is one of the ids asked for
    and [isInWatchlist] holds of it, and it has a binding in the map
    [bulkCheckWatched] returns exactly when it is one of the ids asked for
    and [isWatched] holds of it; the binding is the rating and notes of a
    WatchedEntry of the pair.  Neither changes the store, and for no ids
    both are empty. *)
Theorem bulk_checks_agree (u : Z) (movieIds : list Z) (s : Db.t) :
  exists inList watchedMap,
    bulkCheckWatchlist u movieIds s = (Ok inList, s) /\
    bulkCheckWatched u movieIds s = (Ok watchedMap, s) /\
    (forall m, In m inList <->
               In m movieIds /\ fst (isInWatchlist u m s) = Ok true) /\
    (forall m, map_get m watchedMap <> None <->
               In m movieIds /\ fst (isWatched u m s) = Ok true) /\
    (forall m rating notes,
        map_get m watchedMap = Some (rating, notes) ->
        exists row, In row (watched s) /\ wd_match u m row = true /\
                    wd_rating row = rating /\ wd_notes row = notes).
Proof.
  assert (Hsingle1 : forall m, fst (isInWatchlist u m s) = Ok true
                               <-> inWatchlist s u m = true).
  { intros m; unfold isInWatchlist, select_watchlist, inWatchlist; tx; cbn.
    rewrite count_existsb; split; [intros H; now inversion H | now intros ->]. }
  assert (Hsingle2 : forall m, fst (isWatched u m s) = Ok true
                               <-> inWatched s u m = true).
  { intros m; unfold isWatched, select_watched, inWatched; tx; cbn.
    rewrite count_existsb; split; [intros H; now inversion H | now intros ->]. }
  destruct movieIds as [|m0 rest].
  { exists [], []; split; [reflexivity|]; split; [reflexivity|]; cbn.
    split; [intros m; tauto|]; split; [intros m; split; [congruence | tauto]|].
    discriminate. }
  set (ids := m0 :: rest).
  do 2 eexists; split; [reflexivity|]; split; [reflexivity|].
  split; [|split].
  - intros m; rewrite Hsingle1, inWatchlist_iff, in_map_iff; split.
    + intros [r [Hm Hin]]; apply filter_In in Hin as [Hin Hc].
      apply andb_true_iff in Hc as [Hu Hid]; apply Z.eqb_eq in Hu.
      apply existsb_Zeqb_In in Hid; subst m; eauto.
    + intros [Hid [r [Hin [Hu Hm]]]]; exists r; split; [exact Hm|].
      apply filter_In; split; [exact Hin|].
      apply andb_true_iff; split; [now apply Z.eqb_eq|].
      apply existsb_Zeqb_In; now rewrite Hm.
  - intros m; rewrite Hsingle2, inWatched_iff, map_get_fold; cbn [map_get].
    split.
    + destruct (find _ _) as [row|] eqn:F; [intros _ | congruence].
      apply find_some in F as [Hin Hm]; apply in_rev, filter_In in Hin as [Hin Hc].
      apply andb_true_iff in Hc as [Hu Hid]; apply Z.eqb_eq in Hu, Hm.
      apply existsb_Zeqb_In in Hid; subst m; eauto.
    + intros [Hid [r [Hin [Hu Hm]]]].
      destruct (find _ _) as [row|] eqn:F; [discriminate|].
      assert (Hr : In r (rev (filter
                   (fun r0 => (wd_user_id r0 =? u)
                              && existsb (Z.eqb (wd_movie_id r0)) ids) (watched s)))).
      { apply -> in_rev; apply filter_In; split; [exact Hin|].
        apply andb_true_iff; split; [now apply Z.eqb_eq|].
        apply existsb_Zeqb_In; now rewrite Hm. }
      pose proof (find_none _ _ F r Hr) as Hf; cbn in Hf.
      rewrite Hm, Z.eqb_refl in Hf; discriminate.
  - intros m rating notes; rewrite map_get_fold; cbn [map_get].
    destruct (find _ _) as [row|] eqn:F; [|discriminate].
    intros H; inversion H; subst.
    apply find_some in F as [Hin Hm]; apply in_rev, filter_In in Hin as [Hin Hc].
    apply andb_true_iff in Hc as [Hu _]; apply Z.eqb_eq in Hu, Hm.
    exists row; repeat split; auto; now apply wd_match_iff.
Qed.

Lemma bulk_checks_agree_witness :
  exists inList watchedMap,
    bulkCheckWatchlist 1 [1; 2]
      (run [(two_films, AddToWatchlist 1 (mkAdd 550 None))] Db.empty)
    = (Ok inList, run [(two_films, AddToWatchlist 1 (mkAdd 550 None))] Db.empty) /\
    bulkCheckWatched 1 [1; 2]
      (run [(two_films, AddToWatchlist 1 (mkAdd 550 None))] Db.empty)
    = (Ok watchedMap,
       run [(two_films, AddToWatchlist 1 (mkAdd 550 None))] Db.empty) /\
    In 1 inList /\ map_get 1 watchedMap = None.
Proof.
  destruct (bulk_checks_agree 1 [1; 2]
              (run [(two_films, AddToWatchlist 1 (mkAdd 550 None))] Db.empty))
    as [inList [watchedMap [Hlist [Hmap [Hin [Hbound _]]]]]].
  exists inList, watchedMap.
  split; [exact Hlist | split; [exact Hmap | split]].
  - apply Hin; split; [now left | reflexivity].
  - destruct (map_get 1 watchedMap) eqn:Hget; [|reflexivity].
    assert (Hsome : map_get 1 watchedMap <> None) by congruence.
    apply Hbound in Hsome as [_ Hw]; discriminate Hw.
Defined.

End WatchMore.

(* ------------------------------------------------------------------ *)
(** ** More on the preference tools *)

Module PrefsMore.
Import Db Sql Prefs PrefsSpec MoreSpec PrefsFacts.

Ltac tx := unfold bind, ret, throw, Db.query in *.

(** *** removePreferenceItem *)

(** What removePreferenceItem refuses, for a key without the character
    U+0000: a key the user has no preference for ("not found") and a
    preference whose value is not an array ("is not an array").  Either way
    the answer is an error and neither the store nor the cache changes. *)
Theorem removePreferenceItem_rejects (env : Env) (u : Z) (key : string)
    (item : Item) (db : Db.t) (cache : Cache.t PreferencesContent) :
  u <> 0 -> String.eqb key EmptyString = false -> has_nul key = false ->
  (forall l, stored db u key <> Some (JArr l)) ->
  removePreferenceItem env (mkRemove key item) u (db, cache)
  = (ErrorReply ("Preference " +++ dq +++ key +++ dq
                   +++ match stored db u key with
                       | None => " not found"
                       | Some _ => " is not an array"
                       end), (db, cache)).
Proof.
  intros Hu Hkey Hk Hnot.
  assert (Hrm : remove_item env (mkRemove key item) u db
                = (Throw (Error ("Preference " +++ dq +++ key +++ dq
                                   +++ match stored db u key with
                                       | None => " not found"
                                       | Some _ => " is not an array"
                                       end)), db)).
  { rewrite remove_item_eval by exact Hk; cbn [rm_key rm_item].
    unfold stored in *.
    destruct (filter (p_match u key) (preferences db)) as [|row rest];
      [reflexivity|].
    destruct (p_value row) as [| | | |l|] eqn:Hv; try reflexivity.
    destruct (Hnot l); reflexivity. }
  exact (removePreferenceItem_throws env (mkRemove key item) u db cache _ _
           Hu Hkey Hrm).
Qed.

Lemma removePreferenceItem_rejects_witness :
  stored (fst action_comedy_world) 1 "favorite_actors" = None /\
  removePreferenceItem quiet_env (mkRemove "favorite_actors" (ItemStr "Tom Hanks")) 1
    (fst action_comedy_world, snd action_comedy_world)
  = (ErrorReply ("Preference " +++ dq +++ "favorite_actors" +++ dq +++ " not found"),
     (fst action_comedy_world, snd action_comedy_world)).
Proof.
  split; [reflexivity|].
  apply (removePreferenceItem_rejects quiet_env 1 "favorite_actors"
           (ItemStr "Tom Hanks") (fst action_comedy_world) (snd action_comedy_world));
    [discriminate | reflexivity | reflexivity | intros l; discriminate].
Defined.




Lemma filter_by_name_total item l :
  ~ In JNull l -> filter_by_name item l = Ok (filter (other_name item) l).
Proof.
  induction l as [|x l IH]; intros Hnull; [reflexivity|].
  assert (Hl : ~ In JNull l) by (intros H; apply Hnull; now right).
  assert (Hx : x <> JNull) by (intros H; apply Hnull; now left).
  cbn [filter_by_name filter]; rewrite (IH Hl); unfold other_name.
  destruct x as [| | | | |fields]; cbn; try reflexivity; [congruence|].
  destruct (lookup_field "name" fields) as [name|]; [|reflexivity].
  destruct (strict_eq name item); reflexivity.
Qed.

Lemma filter_by_name_null item l :
  In JNull l ->
  filter_by_name item l
  = Throw (Error "Cannot read properties of null (reading 'name')").
Proof.
  induction l as [|x l IH]; intros Hin; [destruct Hin|].
  destruct x; try reflexivity;
    (destruct Hin as [Heq | Hin]; [discriminate|]);
    cbn [filter_by_name]; now rewrite (IH Hin).
Qed.

(** A stored array whose first element is an object with a name and that
    holds no null element is filtered by name, for a key without the
    character U+0000: every element whose name is the item goes, elements
    without a name stay, and the row is deleted when nothing stays. *)
Theorem removePreferenceItem_by_name (env : Env) (u : Z) (key : string)
    (item : Item) (first : Json) (others : list Json) (db : Db.t)
    (cache : Cache.t PreferencesContent) :
  u <> 0 -> String.eqb key EmptyString = false -> has_nul key = false ->
  stored db u key = Some (JArr (first :: others)) ->
  name_in first <> None -> ~ In JNull others ->
  exists r w',
    removePreferenceItem env (mkRemove key item) u (db, cache) = (Reply r, w')
    /\ stored (fst w') u key
       = match filter (other_name item) (first :: others) with
         | [] => None
         | kept => Some (JArr kept)
         end.
Proof.
  intros Hu Hkey Hk Hst Hname Hnull.
  assert (Hkept : kept_after_remove item (first :: others)
                  = Ok (filter (other_name item) (first :: others))).
  { unfold kept_after_remove.
    destruct (name_in first) eqn:Hn; [|congruence].
    apply filter_by_name_total.
    intros [Heq | Hin]; [subst first; discriminate | auto]. }
  destruct (removePreferenceItem_keeps env u key item db cache _ _
              Hu Hkey Hk Hst Hkept) as [r [w' [Hcall [_ Hstored]]]].
  exists r, w'; split; [exact Hcall|].
  rewrite Hstored; now destruct (filter _ _).
Qed.

Lemma removePreferenceItem_by_name_witness :
  stored (fst crew_world) 1 "crew"
  = Some (JArr [JObj [("name", JStr "Greta Gerwig")];
                JObj [("name", JStr "Bong Joon-ho")]]) /\
  exists r w',
    removePreferenceItem quiet_env (mkRemove "crew" (ItemStr "Greta Gerwig")) 1
      (fst crew_world, snd crew_world) = (Reply r, w')
    /\ stored (fst w') 1 "crew"
       = Some (JArr [JObj [("name", JStr "Bong Joon-ho")]]).
Proof.
  split; [reflexivity|].
  apply (removePreferenceItem_by_name quiet_env 1 "crew" (ItemStr "Greta Gerwig")
           (JObj [("name", JStr "Greta Gerwig")])
           [JObj [("name", JStr "Bong Joon-ho")]]
           (fst crew_world) (snd crew_world));
    [discriminate | reflexivity | reflexivity | reflexivity | discriminate
    | intros [H | []]; discriminate].
Defined.

(** When the stored array starts with a named object and holds [null]
    further on, reading the name of [null] throws: for a key without the
    character U+0000, the removal is answered with that error and neither
    the store nor the cache changes. *)
Theorem removePreferenceItem_null_element (env : Env) (u : Z) (key : string)
    (item : Item) (first : Json) (others : list Json) (db : Db.t)
    (cache : Cache.t PreferencesContent) :
  u <> 0 -> String.eqb key EmptyString = false -> has_nul key = false ->
  stored db u key = Some (JArr (first :: others)) ->
  name_in first <> None -> In JNull others ->
  removePreferenceItem env (mkRemove key item) u (db, cache)
  = (ErrorReply "Cannot read properties of null (reading 'name')", (db, cache)).
Proof.
  intros Hu Hkey Hk Hst Hname Hnull.
  destruct (stored_rows _ _ _ _ Hst) as [row [rest [Hrows Hval]]].
  pose proof (remove_item_eval env (mkRemove key item) u db Hk) as Hrm.
  cbn [rm_key rm_item] in Hrm; rewrite Hrows, Hval in Hrm.
  unfold kept_after_remove in Hrm.
  destruct (name_in first) eqn:Hn; [|congruence].
  rewrite (filter_by_name_null item (first :: others)) in Hrm by now right.
  exact (removePreferenceItem_throws env (mkRemove key item) u db cache _ _
           Hu Hkey Hrm).
Qed.

Lemma removePreferenceItem_null_element_witness :
  stored (fst studios_world) 1 "favorite_studios"
  = Some (JArr [JObj [("name", JStr "A24")]; JNull]) /\
  removePreferenceItem quiet_env (mkRemove "favorite_studios" (ItemStr "A24")) 1
    (fst studios_world, snd studios_world)
  = (ErrorReply "Cannot read properties of null (reading 'name')",
     (fst studios_world, snd studios_world)).
Proof.
  split; [reflexivity|].
  apply (removePreferenceItem_null_element quiet_env 1 "favorite_studios"
           (ItemStr "A24") (JObj [("name", JStr "A24")]) [JNull]
           (fst studios_world) (snd studios_world));
    [discriminate | reflexivity | reflexivity | reflexivity | discriminate
    | now left].
Defined.

(** *** Merging lists of names into a list-valued key *)

Lemma existing_list_stored s u k l :
  stored s u k = Some (JArr l) -> existing_list s u k = l.
Proof.
  unfold stored, existing_list, existingArrayOf.
  destruct (filter _ _) as [|row rest]; [discriminate|].
  intros H; inversion H as [Hv]; now rewrite Hv.
Qed.

Lemma filter_none {A} (f : A -> bool) (l : list A) :
  (forall x, In x l -> f x = false) -> filter f l = [].
Proof.
  induction l as [|x l IH]; intros H; cbn; [reflexivity|].
  rewrite (H x) by now left.
  apply IH; intros y Hy; apply H; now right.
Qed.

Lemma append_absent_again (existing incoming : list string) :
  append_absent (fun name => name)
    (append_absent (fun name => name) existing incoming) incoming
  = append_absent (fun name => name) existing incoming.
Proof.
  unfold append_absent at 1.
  rewrite filter_none; [apply app_nil_r|].
  intros x Hx; apply negb_false_iff, includes_In.
  rewrite map_id; unfold append_absent; rewrite map_id.
  destruct (includes existing x) eqn:E.
  - apply in_or_app; left; now apply includes_In.
  - apply in_or_app; right; apply filter_In; split; [exact Hx|].
    now rewrite E.
Qed.

(** Setting the same array of names twice on a list-valued key is the same
    as setting it once: the second call appends nothing.  This is for a
    user who has a row in users, names without the character U+0000, and a
    key that holds a list of names or nothing. *)
Theorem setPreferences_same_list_twice (env env' : Env) (u : Z) (key : string)
    (existing incoming : list string) (db : Db.t)
    (cache : Cache.t PreferencesContent) :
  is_registered env u -> is_registered env' u ->
  isArrayPreference key = true ->
  existing_list db u key = map JStr existing ->
  nul_free existing -> nul_free incoming ->
  exists r1 w1 r2 w2,
    setPreferences env [(key, JArr (map JStr incoming))] u (db, cache)
    = (Reply r1, w1) /\
    setPreferences env' [(key, JArr (map JStr incoming))] u w1 = (Reply r2, w2) /\
    stored (fst w2) u key = stored (fst w1) u key /\
    stored (fst w1) u key
    = Some (JArr (map JStr (append_absent (fun name => name) existing incoming))).
Proof.
  intros Hreg Hreg' Hkey Hex He Hi.
  destruct (set_names_stored env u key existing incoming db cache Hreg Hkey Hex
              He Hi) as [r1 [[db1 cache1] [Hcall1 Hst1]]].
  cbn [fst] in Hst1.
  destruct (set_names_stored env' u key _ incoming db1 cache1 Hreg' Hkey
              (existing_list_stored _ _ _ _ Hst1)
              (nul_free_append_absent _ _ He Hi) Hi)
    as [r2 [w2 [Hcall2 Hst2]]].
  exists r1, (db1, cache1), r2, w2; repeat split;
    [exact Hcall1 | exact Hcall2 | | exact Hst1].
  cbn [fst]; now rewrite Hst2, Hst1, append_absent_again.
Qed.

Lemma setPreferences_same_list_twice_witness :
  exists r1 w1 r2 w2,
    setPreferences quiet_env [genres ["Comedy"; "Drama"]] 1
      (fst action_comedy_world, snd action_comedy_world) = (Reply r1, w1) /\
    setPreferences quiet_env [genres ["Comedy"; "Drama"]] 1 w1 = (Reply r2, w2) /\
    stored (fst w2) 1 "favorite_genres" = stored (fst w1) 1 "favorite_genres" /\
    stored (fst w1) 1 "favorite_genres"
    = Some (JArr [JStr "Action"; JStr "Comedy"; JStr "Drama"]).
Proof.
  assert (Hreg : is_registered quiet_env 1) by (split; [discriminate | now left]).
  exact (setPreferences_same_list_twice quiet_env quiet_env 1 "favorite_genres"
           ["Action"; "Comedy"] ["Comedy"; "Drama"]
           (fst action_comedy_world) (snd action_comedy_world)
           Hreg Hreg eq_refl eq_refl eq_refl eq_refl).
Defined.

Lemma append_absent_distinct (existing incoming : list string) :
  NoDup existing -> NoDup incoming ->
  NoDup (append_absent (fun name => name) existing incoming).
Proof.
  intros He Hi; unfold append_absent; rewrite map_id.
  apply NoDup_app; [exact He | now apply NoDup_filter |].
  intros c Hc Hc'; apply filter_In in Hc' as [_ Hf].
  apply negb_true_iff in Hf.
  apply includes_In in Hc; congruence.
Qed.

(** A list-valued key stays free of repetitions: when neither the list of
    names it holds nor the array of names sent repeats a name, the merged
    list does not repeat one either.  This is for a user who has a row in
    users and names without the character U+0000. *)
Theorem merge_keeps_distinct (env : Env) (u : Z) (key : string)
    (existing incoming : list string) (db : Db.t)
    (cache : Cache.t PreferencesContent) :
  is_registered env u -> isArrayPreference key = true ->
  existing_list db u key = map JStr existing ->
  nul_free existing -> nul_free incoming ->
  NoDup existing -> NoDup incoming ->
  exists r w' merged,
    setPreferences env [(key, JArr (map JStr incoming))] u (db, cache)
    = (Reply r, w') /\
    stored (fst w') u key = Some (JArr (map JStr merged)) /\
    NoDup merged.
Proof.
  intros Hreg Hkey Hex He Hi Hde Hdi.
  destruct (set_names_stored env u key existing incoming db cache Hreg Hkey Hex
              He Hi) as [r [w' [Hcall Hst]]].
  exists r, w'; eexists; split; [exact Hcall | split; [exact Hst|]].
  now apply append_absent_distinct.
Qed.

Lemma merge_keeps_distinct_witness :
  exists r w' merged,
    setPreferences quiet_env [genres ["Comedy"; "Drama"]] 1
      (fst action_comedy_world, snd action_comedy_world) = (Reply r, w') /\
    stored (fst w') 1 "favorite_genres" = Some (JArr (map JStr merged)) /\
    NoDup merged.
Proof.
  assert (Hreg : is_registered quiet_env 1) by (split; [discriminate | now left]).
  apply (merge_keeps_distinct quiet_env 1 "favorite_genres"
           ["Action"; "Comedy"] ["Comedy"; "Drama"]
           (fst action_comedy_world) (snd action_comedy_world)
           Hreg eq_refl eq_refl eq_refl eq_refl).
  - repeat constructor; cbn; intuition discriminate.
  - repeat constructor; cbn; intuition discriminate.
Defined.

(** *** Keys outside the three list keys, and refused calls *)

Lemma normalizedValueOf_other key value rows :
  isArrayPreference key = false -> normalizedValueOf key value rows = Ok value.
Proof.
  intros Hlist; unfold normalizedValueOf; rewrite Hlist; now destruct value.
Qed.

(** A key other than favorite_genres, favorite_actors and
    favorite_directors is overwritten with the value sent, arrays included:
    nothing is merged.  This is for a user who has a row in users and a key
    and a value without the character U+0000; the row holds the value as
    the column keeps it, the keys of an object in the order of the
    column. *)
Theorem other_keys_are_overwritten (env : Env) (u : Z) (key : string)
    (value : Json) (db : Db.t) (cache : Cache.t PreferencesContent) :
  is_registered env u -> String.eqb key EmptyString = false ->
  has_nul key = false -> holds_nul value = false ->
  isArrayPreference key = false ->
  exists r w',
    setPreferences env [(key, value)] u (db, cache) = (Reply r, w') /\
    stored (fst w') u key = Some (jsonb value).
Proof.
  intros Hreg Hkey Hk Hv Hlist.
  exact (setPreferences_single env u key value value db cache Hreg Hkey Hk
           (normalizedValueOf_other _ _ _ Hlist) Hv).
Qed.

Lemma other_keys_are_overwritten_witness :
  exists r w',
    setPreferences quiet_env [("moods", JArr [JStr "cozy"])] 1
      (fst crew_world, snd crew_world) = (Reply r, w') /\
    stored (fst w') 1 "moods" = Some (JArr [JStr "cozy"]).
Proof.
  assert (Hreg : is_registered quiet_env 1) by (split; [discriminate | now left]).
  exact (other_keys_are_overwritten quiet_env 1 "moods" (JArr [JStr "cozy"])
           (fst crew_world) (snd crew_world) Hreg eq_refl eq_refl eq_refl eq_refl).
Defined.

Lemma SetPreferencesSchema_cases input :
  SetPreferencesSchema input = Ok input
  \/ SetPreferencesSchema input = Throw ZodError.
Proof.
  unfold SetPreferencesSchema; destruct input; [now right|].
  destruct (forallb _ _); [now left | now right].
Qed.

(** The errors of setPreferences.  Whenever setPreferences answers with an
    error, the store and the cache are left as they were.  An input refused
    by the schema (no preference, or an empty key) is answered "Invalid
    input", and a valid input without a user "User ID is required".  It
    answers without an error only for a valid input and a user. *)
Theorem setPreferences_error_cases (env : Env) (input : SetPreferencesInput)
    (u : Z) (w : World) :
  match setPreferences env input u w with
  | (ErrorReply message, w') =>
      w' = w /\
      (SetPreferencesSchema input = Throw ZodError -> message = "Invalid input") /\
      (SetPreferencesSchema input = Ok input -> u = 0 ->
       message = "User ID is required")
  | (Reply r, w') => SetPreferencesSchema input = Ok input /\ u <> 0
  end.
Proof.
  destruct w as [db cache].
  destruct (SetPreferencesSchema_cases input) as [Hok | Hbad].
  - destruct (Z.eq_dec u 0) as [-> | Hu].
    + unfold setPreferences, withToolHandler; rewrite Hok; cbn.
      split; [reflexivity|]; split; [discriminate | reflexivity].
    + destruct (set_loop env u input db) as [[[]|e] db1] eqn:Hloop.
      * destruct (setPreferences_returns env input u db cache db1 Hu Hok Hloop)
          as [r [cache' [-> _]]]; auto.
      * rewrite (setPreferences_throws env input u db cache e db1 Hu Hok Hloop).
        split; [reflexivity|]; split; [congruence | contradiction].
  - unfold setPreferences, withToolHandler; rewrite Hbad; cbn.
    split; [reflexivity|]; split; [reflexivity | congruence].
Qed.

(** *** The cache *)

(** Reading the cache after a write.  A value set under a key is read back
    under that key until its time to live (in seconds, on a clock in
    milliseconds) has passed, and only when a cache is configured; a deleted
    key reads as absent; and neither setting nor deleting a key changes what
    is read under another key. *)
Theorem cache_read_after_write {V : Type} (at_ at' : Z) (key key' : string)
    (value : V) (ttlSeconds : Z) (c : Cache.t V) :
  key' <> key ->
  Cache.getCached at' key (Cache.setCached at_ key value ttlSeconds c)
  = (if Cache.enabled c && (at' <? at_ + ttlSeconds * 1000)
     then Some value else None) /\
  Cache.getCached at' key (Cache.deleteCached key c) = None /\
  Cache.getCached at' key' (Cache.setCached at_ key value ttlSeconds c)
  = Cache.getCached at' key' c /\
  Cache.getCached at' key' (Cache.deleteCached key c)
  = Cache.getCached at' key' c.
Proof.
  intros Hne; repeat split.
  - apply getCached_set_same.
  - apply getCached_deleted.
  - now apply getCached_set_other.
  - now apply getCached_delete_other.
Qed.

Lemma cache_read_after_write_witness :
  Cache.getCached 2500 "a" (Cache.setCached 1000 "a" 7 2 (Cache.mk true [("b", (5, 9000))]))
  = Some 7 /\
  Cache.getCached 3000 "a" (Cache.setCached 1000 "a" 7 2 (Cache.mk true [("b", (5, 9000))]))
  = None /\
  Cache.getCached 3000 "b" (Cache.setCached 1000 "a" 7 2 (Cache.mk true [("b", (5, 9000))]))
  = Some 5.
Proof.
  destruct (cache_read_after_write 1000 2500 "a" "b" 7 2
              (Cache.mk true [("b", (5, 9000))])) as [H1 _]; [discriminate|].
  destruct (cache_read_after_write 1000 3000 "a" "b" 7 2
              (Cache.mk true [("b", (5, 9000))])) as [H2 [_ [H3 _]]]; [discriminate|].
  split; [exact H1 | split; [exact H2 | exact H3]].
Defined.



(** *** One user's calls and another user's preferences *)

Lemma length_append (s t : string) :
  String.length (s +++ t) = (String.length s + String.length t)%nat.
Proof. induction s as [|a s IH]; cbn; [reflexivity | now rewrite IH]. Qed.

Lemma append_cancel_r (s1 s2 t : string) : s1 +++ t = s2 +++ t -> s1 = s2.
Proof.
  revert s2; induction s1 as [|a s1 IH]; intros [|b s2] H; cbn in H.
  - reflexivity.
  - apply (f_equal String.length) in H; cbn in H.
    rewrite length_append in H; lia.
  - apply (f_equal String.length) in H; cbn in H.
    rewrite length_append in H; lia.
  - injection H as -> H; f_equal; now apply IH.
Qed.

Lemma string_of_Z_inj (n m : Z) : string_of_Z n = string_of_Z m -> n = m.
Proof.
  assert (Hnil : forall z, Z.to_int z <> Decimal.Pos Decimal.Nil
                           /\ Z.to_int z <> Decimal.Neg Decimal.Nil).
  { intros [|p|p]; cbn; split; try discriminate;
      intros [= H]; exact (DecimalPos.Unsigned.to_uint_nonnil p H). }
  unfold string_of_Z; intros H.
  apply (f_equal NilZero.int_of_string) in H.
  destruct (Hnil n) as [Hn1 Hn2], (Hnil m) as [Hm1 Hm2].
  rewrite !NilZero.isi in H by assumption.
  injection H as H.
  apply (f_equal Z.of_int) in H; now rewrite !DecimalZ.of_to in H.
Qed.

Lemma cacheKey_inj (u u' : Z) : cacheKey u = cacheKey u' -> u = u'.
Proof.
  unfold cacheKey; cbn; intros H.
  injection H as H; apply append_cancel_r in H; now apply string_of_Z_inj.
Qed.

Lemma rows_of_replace u u' k (row : PrefRow) l :
  u <> u' -> p_user_id row = u ->
  filter (fun r => p_user_id r =? u')
         (map (fun r => if p_match u k r then row else r) l)
  = filter (fun r => p_user_id r =? u') l.
Proof.
  intros Hne Hrow; induction l as [|r l IH]; cbn; [reflexivity|].
  rewrite IH; destruct (p_match u k r) eqn:Hm; [|reflexivity].
  apply p_match_iff in Hm as [Hu _].
  rewrite Hrow, Hu.
  apply Z.eqb_neq in Hne; now rewrite Hne.
Qed.

Lemma rows_of_upsert us at_ u u' k v s :
  u <> u' -> rows_of u' (snd (upsert_pref us at_ u k v s)) = rows_of u' s.
Proof.
  intros Hne; unfold rows_of, upsert_pref.
  destruct (has_nul k); [reflexivity|].
  destruct (jsonb_in v); [|reflexivity].
  destruct (existsb _ _); [now apply rows_of_replace|].
  destruct (negb _); [reflexivity|].
  cbn; rewrite filter_app; cbn.
  apply Z.eqb_neq in Hne; rewrite Hne; apply app_nil_r.
Qed.

Lemma rows_of_update at_ u u' k v s :
  u <> u' -> rows_of u' (snd (update_pref at_ u k v s)) = rows_of u' s.
Proof.
  intros Hne; unfold rows_of, update_pref; cbn; now apply rows_of_replace.
Qed.

Lemma rows_of_delete u u' k s :
  u <> u' -> rows_of u' (snd (delete_pref u k s)) = rows_of u' s.
Proof.
  intros Hne; unfold rows_of, delete_pref; cbn.
  apply WatchMore.filter_filter_implied.
  intros r Hr; apply Z.eqb_eq in Hr.
  destruct (p_match u k r) eqn:Hm; [|reflexivity].
  apply p_match_iff in Hm as [Hu _]; congruence.
Qed.

Lemma rows_of_set_one env u u' pref s :
  u <> u' -> rows_of u' (snd (set_one env u pref s)) = rows_of u' s.
Proof.
  intros Hne; destruct pref as [key value]; unfold set_one, select_pref; tx.
  destruct (isArrayPreference key && isArray value).
  - destruct (has_nul key); [reflexivity|].
    destruct (normalizedValueOf _ _ _); [now apply rows_of_upsert | reflexivity].
  - destruct (normalizedValueOf _ _ _); [now apply rows_of_upsert | reflexivity].
Qed.

Lemma rows_of_set_loop env u u' prefs :
  u <> u' ->
  forall s, rows_of u' (snd (set_loop env u prefs s)) = rows_of u' s.
Proof.
  intros Hne; induction prefs as [|pref prefs IH]; intros s; [reflexivity|].
  cbn [set_loop]; tx.
  pose proof (rows_of_set_one env u u' pref s Hne) as H1.
  destruct (set_one env u pref s) as [[[]|e] s1]; cbn [snd] in *;
    [now rewrite IH | exact H1].
Qed.

Lemma rows_of_remove_item env input u u' s :
  u <> u' -> rows_of u' (snd (remove_item env input u s)) = rows_of u' s.
Proof.
  intros Hne.
  destruct (has_nul (rm_key input)) eqn:Hk.
  { unfold remove_item, select_pref; tx; now rewrite Hk. }
  rewrite remove_item_eval by exact Hk.
  destruct (filter _ (preferences s)) as [|row rest]; [reflexivity|].
  destruct (p_value row) as [| | | |currentValue|]; try reflexivity.
  destruct (kept_after_remove _ _) as [[|x kept]|e]; cbn [snd].
  - now apply rows_of_delete.
  - now apply rows_of_update.
  - reflexivity.
Qed.

Lemma rows_of_transaction {A} (f : Tx A) u' s :
  rows_of u' (snd (f s)) = rows_of u' s ->
  rows_of u' (snd (transaction f s)) = rows_of u' s.
Proof.
  unfold transaction; destruct (f s) as [[a|e] s1]; cbn [snd]; auto.
Qed.

Lemma callTool_rows env c w u' :
  caller c <> u' ->
  rows_of u' (fst (callTool env c w)) = rows_of u' (fst w).
Proof.
  destruct w as [db cache]; intros Hne.
  destruct c as [u input | u input | u]; cbn [callTool caller] in *;
    (destruct (u =? 0) eqn:Hu; [reflexivity|]).
  - unfold setPreferences; rewrite withToolHandler_snd.
    destruct (SetPreferencesSchema_cases input) as [-> | ->]; [|reflexivity].
    rewrite handleSetPreferences_db, Hu.
    apply rows_of_transaction; now apply rows_of_set_loop.
  - unfold removePreferenceItem; rewrite withToolHandler_snd.
    destruct (RemovePreferenceItemSchema input) as [v|e] eqn:Ev; [|reflexivity].
    apply RemovePreferenceItemSchema_Ok in Ev; subst v.
    rewrite handleRemovePreferenceItem_db, Hu.
    apply rows_of_transaction; now apply rows_of_remove_item.
  - now rewrite getPreferences_db.
Qed.

Lemma getPreferences_cache_other env u u' db cache at_ :
  u <> u' ->
  Cache.getCached at_ (cacheKey u') (snd (snd (getPreferences env u (db, cache))))
  = Cache.getCached at_ (cacheKey u') cache.
Proof.
  intros Hne; unfold getPreferences.
  destruct (Cache.getCached (now env) (cacheKey u) cache); [reflexivity|].
  destruct (loadPreferences _ _); [|reflexivity].
  cbn [snd]; apply getCached_set_other.
  intros H; apply cacheKey_inj in H; congruence.
Qed.

Lemma refreshed_cache_other env u u' db cache at_ :
  u <> u' ->
  Cache.getCached at_ (cacheKey u')
    (snd (snd (getPreferences env u (db, Cache.deleteCached (cacheKey u) cache))))
  = Cache.getCached at_ (cacheKey u') cache.
Proof.
  intros Hne; rewrite getPreferences_cache_other by exact Hne.
  apply getCached_delete_other.
  intros H; apply cacheKey_inj in H; congruence.
Qed.

Lemma callTool_cache env c w u' at_ :
  caller c <> u' ->
  Cache.getCached at_ (cacheKey u') (snd (callTool env c w))
  = Cache.getCached at_ (cacheKey u') (snd w).
Proof.
  destruct w as [db cache]; intros Hne.
  destruct c as [u input | u input | u]; cbn [callTool caller] in *;
    (destruct (u =? 0) eqn:Hu; [reflexivity|]).
  - unfold setPreferences; rewrite withToolHandler_snd.
    destruct (SetPreferencesSchema_cases input) as [-> | ->]; [|reflexivity].
    unfold handleSetPreferences; rewrite Hu.
    destruct (transaction _ db) as [[[]|e] db1]; [|reflexivity].
    pose proof (refreshed_cache_other env u u' db1 cache at_ Hne) as Hc.
    destruct (getPreferences env u (db1, Cache.deleteCached (cacheKey u) cache))
      as [resp [db2 cache2]]; exact Hc.
  - unfold removePreferenceItem; rewrite withToolHandler_snd.
    destruct (RemovePreferenceItemSchema input) as [v|e] eqn:Ev; [|reflexivity].
    unfold handleRemovePreferenceItem; rewrite Hu.
    destruct (transaction _ db) as [[msg|e] db1]; [|reflexivity].
    pose proof (refreshed_cache_other env u u' db1 cache at_ Hne) as Hc.
    destruct (getPreferences env u (db1, Cache.deleteCached (cacheKey u) cache))
      as [resp [db2 cache2]]; exact Hc.
  - now apply getPreferences_cache_other.
Qed.

(** The preference tools called for other users leave a user's rows and
    cached response alone: after any sequence of setPreferences,
    removePreferenceItem and getPreferences calls, none of them made for the
    user, the user's preference rows are the same rows and the cache
    answers for the user as it did. *)
Theorem preferences_are_per_user (calls : list (Env * call)) (w : World)
    (u' : Z) :
  forallb (fun ec => negb (caller (snd ec) =? u')) calls = true ->
  rows_of u' (fst (run calls w)) = rows_of u' (fst w) /\
  forall at_,
    Cache.getCached at_ (cacheKey u') (snd (run calls w))
    = Cache.getCached at_ (cacheKey u') (snd w).
Proof.
  revert w; induction calls as [|[env c] calls IH]; intros w Hall;
    [split; reflexivity|].
  cbn [forallb snd] in Hall; apply andb_true_iff in Hall as [Hc Hrest].
  apply negb_true_iff, Z.eqb_neq in Hc.
  cbn [run]; destruct (IH (callTool env c w) Hrest) as [Hrows Hcache].
  split.
  - rewrite Hrows; now apply callTool_rows.
  - intros at_; rewrite Hcache; now apply callTool_cache.
Qed.

Lemma preferences_are_per_user_witness :
  stored (fst (run user_one_calls two_users_world)) 1 "favorite_genres"
  = Some (JArr [JStr "Action"; JStr "Comedy"; JStr "Drama"]) /\
  rows_of 2 (fst (run user_one_calls two_users_world))
  = [mkPref 2 "favorite_genres" (JArr [JStr "Horror"]) 1000] /\
  forall at_,
    Cache.getCached at_ (cacheKey 2) (snd (run user_one_calls two_users_world))
    = Cache.getCached at_ (cacheKey 2) (snd two_users_world).
Proof.
  split; [reflexivity|].
  destruct (preferences_are_per_user user_one_calls two_users_world 2 eq_refl)
    as [Hrows Hcache].
  split; [rewrite Hrows; reflexivity | exact Hcache].
Defined.

End PrefsMore.
